(** * A tool-calling agent with long-term memory: model and properties

    Shallow embedding of the Python sources
    - [tool_definitions.py]  (tool bodies, memory store operations),
    - [src/tools/tool_registry.py]  (the tool registry and [call]),
    - [src/lang_graph/nodes.py]  (the tool node with human confirmation),
    - [test/run_langgraph.py]  (the loop that resumes the suspended node),
    - [src/lang_graph/memory.py] and [run_example.py]  (reflection, agent loop).

    Python values that cross the tool boundary are JSON-like dictionaries and
    are modelled by the inductive type [Json], which also has a place for
    the objects that are not JSON data (an exception instance inside a
    validation error).  Stateful code is written in a
    state-and-exception monad [M] over an explicit [World]; everything the
    program obtains from outside (the language model, the clock, the random
    generator, pydantic validation, JSON (de)serialisation, the embedding
    distance of the vector store, the confirmation channel) is a field of the
    record [Env] or an oracle stored in the [World].  Output printed to the
    console is not modelled. *)

From Stdlib Require Import ZArith String Ascii List Bool Lia.
From Stdlib Require QArith.
From stdpp Require Import base option list strings pretty gmap sorting.

Open Scope string_scope.
Open Scope list_scope.
Open Scope Z_scope.

(* ================================================================== *)
(** ** JSON-like Python values *)
(* ================================================================== *)

#[local] Set Warnings "-register-all".

Inductive Json : Type :=
| JNull
| JBool (b : bool)
| JInt (z : Z)
| JFloat (q : QArith_base.Q)
| JStr (s : string)
| JList (l : list Json)
| JObj (kv : list (string * Json))
(* any other Python object, of the class [type_name]; not JSON data *)
| JObject (type_name : string).

(** [d.get(k)] on a dictionary held as an association list. *)
Fixpoint jget (k : string) (kv : list (string * Json)) : option Json :=
  match kv with
  | [] => None
  | (k', v) :: kv' => if String.eqb k k' then Some v else jget k kv'
  end.

(** Python truth value of an optional JSON value ([None] for a missing key). *)
Definition truthy (v : option Json) : bool :=
  match v with
  | None | Some JNull => false
  | Some (JBool b) => b
  | Some (JInt z) => negb (z =? 0)
  | Some (JFloat q) => negb (QArith_base.Qnum q =? 0)
  | Some (JStr s) => negb (String.eqb s "")
  | Some (JList l) => match l with [] => false | _ => true end
  | Some (JObj kv) => match kv with [] => false | _ => true end
  | Some (JObject _) => true
  end.

(** Whether a value is a dictionary. *)
Definition is_dict (v : Json) : bool :=
  match v with
  | JObj _ => true
  | _ => false
  end.

(** Whether [v[:50]] is defined: strings and lists can be sliced. *)
Definition sliceable (v : Json) : bool :=
  match v with
  | JStr _ | JList _ => true
  | _ => false
  end.

(** The class of the first object inside [v], in the order in which
    [json.dumps] walks the value, that is not JSON data. *)
Fixpoint first_object (v : Json) : option string :=
  match v with
  | JObject type_name => Some type_name
  | JList l =>
      (fix among (l : list Json) : option string :=
         match l with
         | [] => None
         | x :: l' =>
             match first_object x with
             | Some t => Some t
             | None => among l'
             end
         end) l
  | JObj kv =>
      (fix among (kv : list (string * Json)) : option string :=
         match kv with
         | [] => None
         | (_, x) :: kv' =>
             match first_object x with
             | Some t => Some t
             | None => among kv'
             end
         end) kv
  | _ => None
  end.

(** Whether [json.dumps] accepts the value. *)
Definition serializable (v : Json) : bool :=
  match first_object v with
  | None => true
  | Some _ => false
  end.

Definition nl : string := String (ascii_of_nat 10) EmptyString.

(* ================================================================== *)
(** ** Messages, tool calls, trajectories *)
(* ================================================================== *)

(** A tool call as the reasoning capability emits it: the arguments are
    still a JSON text. *)
Record RawToolCall := {
  rtc_id : string;
  rtc_name : string;
  rtc_arguments : option string
}.

(** Reply of the reasoning capability. *)
Record Response := {
  resp_content : option string;
  resp_tool_calls : option (list RawToolCall)
}.

(** An entry of [state["tool_calls"]]: the arguments are parsed. *)
Record ToolCall := {
  tc_id : string;
  tc_name : string;
  tc_arguments : Json
}.

Inductive Message : Type :=
| MsgSystem (content : string)
| MsgUser (content : string)
| MsgAssistant (r : Response)
| MsgTool (tool_call_id : string) (content : string).

Definition msg_tool_call_id (m : Message) : option string :=
  match m with
  | MsgTool i _ => Some i
  | _ => None
  end.

Record Trace := {
  tool_name : string;
  tool_args : Json;
  observation : string
}.

Record Trajectory := {
  question : string;
  traces : list Trace;
  final_answer : option string
}.

(* ================================================================== *)
(** ** The memory store and the world *)
(* ================================================================== *)

(** Metadata of a memory record.  Every key is optional, as the readers
    use [metadata.get(key, default)]; the values carry the types that
    [write_memory] stores. *)
Record Metadata := {
  md_memory_type : option string;
  md_importance : option Z;
  md_tags : option string;
  md_created_at : option string
}.

Record Entry := {
  e_id : string;
  e_document : string;
  e_metadata : Metadata
}.

(** Observable invocations of capabilities, in order. *)
Inductive Event : Type :=
| EvReason (messages : list Message) (reply : Response)
| EvHandler (name : string) (args : Json)
| EvReflect (question answer : string).

Record World := {
  mem : list Entry;             (* [memory_collection], in store order *)
  store_error : option string;  (* [Some msg]: store operations raise [msg] *)
  ticks : nat;                  (* how many oracle readings were taken *)
  resumes : list string;        (* resume values not yet handed back *)
  trace : list Event
}.

Definition set_mem (w : World) (m : list Entry) : World :=
  {| mem := m; store_error := store_error w; ticks := ticks w;
     resumes := resumes w; trace := trace w |}.

Definition set_ticks (w : World) (n : nat) : World :=
  {| mem := mem w; store_error := store_error w; ticks := n;
     resumes := resumes w; trace := trace w |}.

Definition set_resumes (w : World) (r : list string) : World :=
  {| mem := mem w; store_error := store_error w; ticks := ticks w;
     resumes := r; trace := trace w |}.

Definition set_trace (w : World) (t : list Event) : World :=
  {| mem := mem w; store_error := store_error w; ticks := ticks w;
     resumes := resumes w; trace := t |}.

(* ================================================================== *)
(** ** Exceptions and the monad of effectful code *)
(* ================================================================== *)

Inductive exn : Type :=
| ValidationError (errors : Json)       (* pydantic.ValidationError *)
| Exception (cls : string) (msg : string).

Inductive outcome (A : Type) : Type :=
| Return (a : A)
| Raise (e : exn).
Arguments Return {A} a.
Arguments Raise {A} e.

Definition returns {A} (o : outcome A) : bool :=
  match o with
  | Return _ => true
  | Raise _ => false
  end.

Definition M (A : Type) : Type := World -> outcome A * World.

Definition ret {A} (a : A) : M A := fun w => (Return a, w).

Definition raise {A} (e : exn) : M A := fun w => (Raise e, w).

Definition bind {A B} (m : M A) (k : A -> M B) : M B :=
  fun w =>
    match m w with
    | (Return a, w') => k a w'
    | (Raise e, w') => (Raise e, w')
    end.

(** [try: m  except ... as e: h e] *)
Definition try_except {A} (m : M A) (h : exn -> M A) : M A :=
  fun w =>
    match m w with
    | (Return a, w') => (Return a, w')
    | (Raise e, w') => h e w'
    end.

Declare Scope M_scope.
Delimit Scope M_scope with M.
Notation "x <- m ;; k" := (bind m (fun x => k))
  (at level 100, m at next level, right associativity) : M_scope.
Notation "m ;; k" := (bind m (fun _ => k))
  (at level 100, right associativity) : M_scope.
Open Scope M_scope.

Definition log (ev : Event) : M unit :=
  fun w => (Return tt, set_trace w (trace w ++ [ev])).

(** Advance the oracle index and return the index that was current. *)
Definition tick : M nat :=
  fun w => (Return (ticks w), set_ticks w (S (ticks w))).

(** [str(e)] *)
Definition exn_str (e : exn) : string :=
  match e with
  | ValidationError _ => "validation error"
  | Exception _ msg => msg
  end.

(** Replies of the reasoning capability recorded in a trace. *)
Fixpoint responses (tr : list Event) : list Response :=
  match tr with
  | [] => []
  | EvReason _ reply :: tr' => reply :: responses tr'
  | _ :: tr' => responses tr'
  end.

(** (question, answer) pairs handed to the Reflection Engine. *)
Fixpoint reflections (tr : list Event) : list (string * string) :=
  match tr with
  | [] => []
  | EvReflect q a :: tr' => (q, a) :: reflections tr'
  | _ :: tr' => reflections tr'
  end.

(** [bool(msg.tool_calls)] *)
Definition has_tool_calls (r : Response) : bool :=
  match resp_tool_calls r with
  | None | Some [] => false
  | Some _ => true
  end.

(* ================================================================== *)
(** ** Input models of the memory tools (validated pydantic objects) *)
(* ================================================================== *)

Record ReadMemoryInput := {
  rm_query : string;
  rm_memory_type : string;    (* default "all" *)
  rm_top_k : Z                (* default 5, ge=1, le=10 *)
}.

Record WriteMemoryInput := {
  wm_content : string;
  wm_memory_type : string;    (* default "episodic" *)
  wm_importance : Z;          (* default 3, ge=1, le=5 *)
  wm_tags : list string       (* default [] *)
}.

(** Names of the pydantic input models. *)
Inductive InputModel : Type :=
| GetTimeInput | CalculaterInput | GoogleSearchInput
| RAGSearchInput | ReadMemoryInputModel | WriteMemoryInputModel.

(* ================================================================== *)
(** ** External capabilities *)
(* ================================================================== *)

Record Env := {
  (* the reasoning capability, at its n-th consultation *)
  llm : nat -> list Message -> Response;
  (* the judgment capability: content of its reply to a snippet *)
  judge : nat -> string -> option string;
  (* [json.loads]; [None] when the text is not JSON *)
  json_loads : string -> option Json;
  (* the text [json.dumps(v, ensure_ascii=b)] yields for JSON data [v] *)
  json_dumps : bool -> Json -> string;
  (* [str(v)] of a Python value inside an f-string *)
  py_str : Json -> string;
  (* wall clock: microseconds since the epoch at the n-th reading *)
  clock : nat -> Z;
  (* rendering of [t.timestamp()] inside an f-string *)
  timestamp_str : Z -> string;
  (* [t.isoformat()] *)
  isoformat : Z -> string;
  (* [random.randint(1, 30)] at the n-th reading *)
  randint : nat -> Z;
  (* embedding distance between a query text and a stored document *)
  distance : string -> string -> Z;
  (* pydantic construction of an input model from the argument
     dictionary: the validation errors ([e.errors()], which holds the
     exception object of a validator that raised) or the validated input *)
  validate_read : Json -> Json + ReadMemoryInput;
  validate_write : Json -> Json + WriteMemoryInput;
  validate_other : InputModel -> Json -> Json + Json;
  (* bodies of get_time, calculate, google_search, rag_search: each
     catches its own exceptions and returns a dictionary *)
  other_tool : string -> Json -> nat -> Json
}.

(** [json.dumps(v, ensure_ascii=b)]: [TypeError] on a value that holds an
    object that is not JSON data. *)
Definition dumps (env : Env) (ensure_ascii : bool) (v : Json) : M string :=
  match first_object v with
  | None => ret (json_dumps env ensure_ascii v)
  | Some type_name =>
      raise (Exception "TypeError"
               ("Object of type " +:+ type_name +:+ " is not JSON serializable"))
  end.

(* ================================================================== *)
(** ** Stable sorting by a boolean order *)
(* ================================================================== *)

(** [list.sort] and [sorted] are stable; a stable sort has one result, so
    the insertion sort below stands for them. *)
Fixpoint insert_by {A} (leb : A -> A -> bool) (x : A) (l : list A) : list A :=
  match l with
  | [] => [x]
  | y :: l' => if leb x y then x :: l else y :: insert_by leb x l'
  end.

Definition sort_by {A} (leb : A -> A -> bool) (l : list A) : list A :=
  foldr (insert_by leb) [] l.

(** Membership of a string in a Python list of strings. *)
Definition str_in (s : string) (l : list string) : bool :=
  existsb (String.eqb s) l.

(* ================================================================== *)
(** ** The vector store collection [memory_collection] *)
(* ================================================================== *)

Module Collection.

(** Every operation raises when the store is unavailable. *)
Definition available : M unit :=
  fun w =>
    match store_error w with
    | Some msg => (Raise (Exception "StoreError" msg), w)
    | None => (Return tt, w)
    end.

(** [where={"memory_type": t}] keeps the records whose metadata has
    exactly that value; [where=None] keeps all. *)
Definition matches (where_filter : option string) (e : Entry) : bool :=
  match where_filter with
  | None => true
  | Some t =>
      match md_memory_type (e_metadata e) with
      | Some t' => String.eqb t t'
      | None => false
      end
  end.

(** The [n] records of [l] nearest to the query text among those that
    match the filter, nearest first. *)
Definition nearest (env : Env) (q : string) (n : Z)
    (where_filter : option string) (l : list Entry) : list Entry :=
  take (Z.to_nat n)
    (sort_by (fun a b => distance env q (e_document a)
                         <=? distance env q (e_document b))
       (filter (fun e => matches where_filter e = true) l)).

(** [query(query_texts=[q], n_results=n, where=f)], for the [n >= 1] that
    the input model of [read_memory] lets through. *)
Definition query (env : Env) (q : string) (n : Z) (where_filter : option string)
  : M (list Entry) :=
  available;;
  fun w => (Return (nearest env q n where_filter (mem w)), w).

(** [add(documents=[doc], metadatas=[md], ids=[i])]: a record whose id is
    already present is ignored. *)
Definition add (doc : string) (md : Metadata) (i : string) : M unit :=
  available;;
  fun w =>
    if str_in i (map e_id (mem w)) then (Return tt, w)
    else (Return tt,
          set_mem w (mem w ++ [{| e_id := i; e_document := doc; e_metadata := md |}])).

(** [get()]: all records, in store order. *)
Definition get : M (list Entry) :=
  available;;
  fun w => (Return (mem w), w).

(** [delete(ids=l)] *)
Definition delete (ids : list string) : M unit :=
  available;;
  fun w =>
    (Return tt,
     set_mem w (filter (fun e => str_in (e_id e) ids = false) (mem w))).

End Collection.

(** The ["results"] list of a tool result. *)
Definition results_of (r : Json) : list Json :=
  match r with
  | JObj kv => match jget "results" kv with
               | Some (JList l) => l
               | _ => []
               end
  | _ => []
  end.

(** The results carried by the outcome of a tool body. *)
Definition results_in (o : outcome Json) : list Json :=
  match o with
  | Return r => results_of r
  | Raise _ => []
  end.

(** A field of a JSON dictionary. *)
Definition field (k : string) (r : Json) : option Json :=
  match r with
  | JObj kv => jget k kv
  | _ => None
  end.

(* ================================================================== *)
(** ** [tool_definitions.py] *)
(* ================================================================== *)

Module ToolDefinitions.

Record MemoryInfo := {
  mi_id : string;
  mi_importance : Z;
  mi_created_at : string
}.

(** Order of the sort keys [(importance, created_at)]: tuples compare
    lexicographically, strings by code point (byte order of UTF-8). *)
Definition key_leb (a b : MemoryInfo) : bool :=
  (mi_importance a <? mi_importance b)
  || ((mi_importance a =? mi_importance b)
      && String.leb (mi_created_at a) (mi_created_at b)).

(** Construction of an input model from the unpacked argument
    dictionary, as in [lambda args: f(Model(....args))]: unpacking needs a
    dictionary, which the model then validates. *)
Definition construct {A} (validate : Json -> Json + A) (args : Json) : M A :=
  match args with
  | JObj _ =>
      match validate args with
      | inl errors => raise (ValidationError errors)
      | inr input => ret input
      end
  | _ => raise (Exception "TypeError" "argument after ** must be a mapping")
  end.

Record ToolSpec := {
  name : string;
  description : string;
  input_model : InputModel;
  handler : Json -> M Json
}.

Section WithEnv.
Context (env : Env).

(** [datetime.now()] *)
Definition now : M Z :=
  n <- tick ;; ret (clock env n).

(** [{"error": str(e)}] *)
Definition error_dict (e : exn) : Json :=
  JObj [("error", JStr (exn_str e))].

(** One element of [results_list] in [read_memory]. *)
Definition result_of (e : Entry) : Json :=
  let metadata := e_metadata e in
  JObj [("content", JStr (e_document e));
        ("memory_type", JStr (default "unknown" (md_memory_type metadata)));
        ("importance", JInt (default 0 (md_importance metadata)));
        ("tags", match md_tags metadata with
                 | Some s => JStr s
                 | None => JList []
                 end);
        ("created_at", JStr (default "unknown" (md_created_at metadata)))].

(** [where_filter = None; if input.memory_type != "all": ...] *)
Definition where_filter_of (input : ReadMemoryInput) : option string :=
  if negb (String.eqb (rm_memory_type input) "all")
  then Some (rm_memory_type input) else None.

Definition read_memory (input : ReadMemoryInput) : M Json :=
  try_except
    (let where_filter := where_filter_of input in
     hits <- Collection.query env (rm_query input) (rm_top_k input) where_filter ;;
     match hits with
     | [] => ret (JObj [("results", JList []);
                        ("message", JStr "관련 기억을 찾지 못했습니다.")])
     | _ =>
         let results_list := map result_of hits in
         ret (JObj [("results", JList results_list);
                    ("count", JInt (Z.of_nat (length results_list)))])
     end)
    (fun e => ret (error_dict e)).

Definition write_memory (input : WriteMemoryInput) : M Json :=
  try_except
    (t_id <- now ;;
     let memory_id := "mem_" +:+ timestamp_str env t_id in
     t_created <- now ;;
     let metadata :=
       {| md_memory_type := Some (wm_memory_type input);
          md_importance := Some (wm_importance input);
          md_tags := Some (String.concat "," (wm_tags input));
          md_created_at := Some (isoformat env t_created) |} in
     Collection.add (wm_content input) metadata memory_id ;;
     ret (JObj [("status", JStr "saved");
                ("memory_id", JStr memory_id);
                ("content", JStr (wm_content input));
                ("memory_type", JStr (wm_memory_type input))]))
    (fun e => ret (error_dict e)).

Definition memory_info_of (e : Entry) : MemoryInfo :=
  {| mi_id := e_id e;
     mi_importance := default 3 (md_importance (e_metadata e));
     mi_created_at := default "" (md_created_at (e_metadata e)) |}.

Definition cleanup_memories (max_count : Z) : M unit :=
  all_data <- Collection.get ;;
  let ids := map e_id all_data in
  if Z.of_nat (length ids) <=? max_count then ret tt
  else
    let memory_info := sort_by key_leb (map memory_info_of all_data) in
    let to_delete := Z.of_nat (length ids) - max_count in
    let delete_ids := map mi_id (take (Z.to_nat to_delete) memory_info) in
    Collection.delete delete_ids.

(** Handler of a tool whose body is an external collaborator:
    construct the input, then run the body. *)
Definition other_handler (model : InputModel) (tool : string) (args : Json)
  : M Json :=
  input <- construct (validate_other env model) args ;;
  n <- tick ;;
  ret (other_tool env tool input n).

Definition read_memory_handler (args : Json) : M Json :=
  input <- construct (validate_read env) args ;;
  read_memory input.

Definition write_memory_handler (args : Json) : M Json :=
  input <- construct (validate_write env) args ;;
  write_memory input.

(** Errors raised by constructing the declared input model from
    [args]; [None] when the arguments validate. *)
Definition validation_errors (model : InputModel) (args : Json)
  : option Json :=
  match model with
  | ReadMemoryInputModel =>
      match validate_read env args with inl errors => Some errors | inr _ => None end
  | WriteMemoryInputModel =>
      match validate_write env args with inl errors => Some errors | inr _ => None end
  | _ =>
      match validate_other env model args with inl errors => Some errors | inr _ => None end
  end.

Definition get_default_tool_specs : list ToolSpec :=
  [ {| name := "get_time";
       description := "Get the current time in a specified timezone.";
       input_model := GetTimeInput;
       handler := other_handler GetTimeInput "get_time" |};
    {| name := "calculate";
       description := "Perform basic arithmetic operations between two numbers.";
       input_model := CalculaterInput;
       handler := other_handler CalculaterInput "calculate" |};
    {| name := "google_search";
       description := "Perform a Google search and return the top results.";
       input_model := GoogleSearchInput;
       handler := other_handler GoogleSearchInput "google_search" |};
    {| name := "rag_search";
       description := "Search documents from ChromaDB with reranking.";
       input_model := RAGSearchInput;
       handler := other_handler RAGSearchInput "rag_search" |};
    {| name := "read_memory";
       description := "Search past conversations and user information.";
       input_model := ReadMemoryInputModel;
       handler := read_memory_handler |};
    {| name := "write_memory";
       description := "Store important information in memory.";
       input_model := WriteMemoryInputModel;
       handler := write_memory_handler |} ].

End WithEnv.

End ToolDefinitions.

(* ================================================================== *)
(** ** [src/tools/tool_registry.py] *)
(* ================================================================== *)

Module ToolRegistry.
Import ToolDefinitions.

(** [register_tool]: fails on a name that is already registered. *)
Definition register_tool (spec : ToolSpec) (tools : gmap string ToolSpec)
  : outcome (gmap string ToolSpec) :=
  match tools !! name spec with
  | Some _ => Raise (Exception "ValueError" ("Tool already registered: " +:+ name spec))
  | None => Return (<[name spec := spec]> tools)
  end.

Definition get (tools : gmap string ToolSpec) (n : string) : M ToolSpec :=
  match tools !! n with
  | None => raise (Exception "KeyError" ("Unknown tool: " +:+ n))
  | Some spec => ret spec
  end.

(** [call]: the lookup is outside the [try]; the handler runs inside. *)
Definition call (tools : gmap string ToolSpec) (n : string) (args : Json)
  : M Json :=
  spec <- get tools n ;;
  try_except
    (log (EvHandler n args) ;; handler spec args)
    (fun e =>
       match e with
       | ValidationError errors =>
           ret (JObj [("error", JStr "validation_error"); ("details", errors)])
       | Exception _ msg =>
           ret (JObj [("error", JStr "runtime_error"); ("details", JStr msg)])
       end).

Fixpoint register_all (specs : list ToolSpec) (tools : gmap string ToolSpec)
  : outcome (gmap string ToolSpec) :=
  match specs with
  | [] => Return tools
  | spec :: rest =>
      match register_tool spec tools with
      | Return tools' => register_all rest tools'
      | Raise e => Raise e
      end
  end.

Definition register_default_tools (env : Env) : outcome (gmap string ToolSpec) :=
  register_all (get_default_tool_specs env) ∅.

(** The module-level [registry = register_default_tools()]. *)
Definition registry (env : Env) : gmap string ToolSpec :=
  match register_default_tools env with
  | Return tools => tools
  | Raise _ => ∅
  end.

End ToolRegistry.

(* ================================================================== *)
(** ** [src/lang_graph/nodes.py]: the tool node *)
(* ================================================================== *)

Module Nodes.
Import ToolDefinitions ToolRegistry.

Definition DANGEROUS_TOOLS : list string := ["google_search"; "write_memory"].

Record AgentState := {
  messages : list Message;
  tool_calls : option (list ToolCall)
}.

(** The confirmation channel of the host framework, within one activation
    of the node.  The world holds the resume values the activation was
    started with; the i-th [interrupt] call of the activation hands back
    the i-th of them, and the call after the last one suspends the node,
    which the code sees as the exception [GraphInterrupt] carrying the
    prompt.  How the node is activated again is in [RunLanggraph]. *)
Definition interrupt (prompt : string) : M string :=
  fun w =>
    match resumes w with
    | token :: rest => (Return token, set_resumes w rest)
    | [] => (Raise (Exception "GraphInterrupt" prompt), w)
    end.

Definition cancelled : Json :=
  JObj [("status", JStr "cancelled"); ("reason", JStr "사용자가 취소함")].

Section WithEnv.
Context (env : Env).

Definition confirm_prompt (tc : ToolCall) : string :=
  "'" +:+ tc_name tc +:+ "' 실행할까요? 인자: " +:+ py_str env (tc_arguments tc).

(** The tail of the loop body: run the tool and append its message. *)
Definition execute (tc : ToolCall) (tool_messages : list Message)
  : M (list Message) :=
  result <- call (registry env) (tc_name tc) (tc_arguments tc) ;;
  observation <- dumps env false result ;;
  ret (tool_messages ++ [MsgTool (tc_id tc) observation]).

(** [for tc in tool_calls: ...] *)
Fixpoint tool_loop (tcs : list ToolCall) (tool_messages : list Message)
  : M (list Message) :=
  match tcs with
  | [] => ret tool_messages
  | tc :: rest =>
      if str_in (tc_name tc) DANGEROUS_TOOLS then
        confirm <- interrupt (confirm_prompt tc) ;;
        if negb (String.eqb confirm "y") then
          content <- dumps env true cancelled ;;
          tool_loop rest (tool_messages ++ [MsgTool (tc_id tc) content])
        else
          tool_messages' <- execute tc tool_messages ;;
          tool_loop rest tool_messages'
      else
        tool_messages' <- execute tc tool_messages ;;
        tool_loop rest tool_messages'
  end.

Definition tool_node (state : AgentState) : M AgentState :=
  match tool_calls state with
  | None | Some [] => ret {| messages := []; tool_calls := None |}
  | Some tcs =>
      tool_messages <- tool_loop tcs [] ;;
      ret {| messages := tool_messages; tool_calls := None |}
  end.

End WithEnv.

End Nodes.

(* ================================================================== *)
(** ** [test/run_langgraph.py]: resuming the suspended tool node *)
(* ================================================================== *)

(** [run_agent] streams the graph and, while the tool node is suspended,
    sends the next answer with [Command(resume=approval)].  The host
    framework then starts [tool_node] again from its first statement, with
    all answers given so far as the resume values of the activation: the
    statements before the pending [interrupt] run again, and what earlier
    activations did to the store stays done.  An activation that raises
    anything else ends the run with that exception. *)
Module RunLanggraph.
Import Nodes.

Section WithEnv.
Context (env : Env).

(** One activation of the tool node with the resume values [given]. *)
Definition activate (given : list string) (state : AgentState)
  : M AgentState :=
  fun w => tool_node env state (set_resumes w given).

(** The [while True:] loop of [run_agent] from the first activation of
    the tool node to its end: [answers] are the values still to come
    ([approval], or "y" under [auto_approve]).  With no answer left the
    result is the pending suspension. *)
Fixpoint resume (answers given : list string) (state : AgentState)
  : M AgentState :=
  fun w =>
    match activate given state w with
    | (Raise (Exception cls prompt), w') =>
        if String.eqb cls "GraphInterrupt" then
          match answers with
          | [] => (Raise (Exception cls prompt), w')
          | approval :: answers' =>
              resume answers' (given ++ [approval]) state w'
          end
        else (Raise (Exception cls prompt), w')
    | other => other
    end.

Definition tool_turn (answers : list string) (state : AgentState)
  : M AgentState :=
  resume answers [] state.

End WithEnv.

End RunLanggraph.

(* ================================================================== *)
(** ** Reflection: the statements shared by both copies *)
(* ================================================================== *)

(** [memory.py] and [run_example.py] each define [extract_and_save_memory].
    The two bodies consist of the same statements; the copy in [memory.py]
    wraps everything after the judgment call in [try: ... except: pass]. *)
Module Reflection.
Import ToolDefinitions ToolRegistry.

Definition snippet (question answer : string) : string :=
  "User: " +:+ question +:+ nl +:+ "Assistant: " +:+ answer.

Section WithEnv.
Context (env : Env).

(** [client.chat.completions.create(...)] with the extractor prompt;
    yields [response.choices[0].message.content]. *)
Definition ask_judge (question answer : string) : M (option string) :=
  log (EvReflect question answer) ;;
  n <- tick ;;
  ret (judge env n (snippet question answer)).

(** [decision = json.loads(content)] *)
Definition load_decision (content : option string) : M Json :=
  match content with
  | None => raise (Exception "TypeError" "the JSON object must be str, bytes or bytearray, not NoneType")
  | Some text =>
      match json_loads env text with
      | None => raise (Exception "JSONDecodeError" "Expecting value")
      | Some decision => ret decision
      end
  end.

(** [d[k]] *)
Definition item (kv : list (string * Json)) (k : string) : M Json :=
  match jget k kv with
  | Some v => ret v
  | None => raise (Exception "KeyError" k)
  end.

(** [if decision.get("should_write"): registry.call("write_memory", {...});
    print(... decision['content'][:50] ...)] *)
Definition act_on (decision : Json) : M unit :=
  match decision with
  | JObj kv =>
      if truthy (jget "should_write" kv) then
        content <- item kv "content" ;;
        memory_type <- item kv "memory_type" ;;
        importance <- item kv "importance" ;;
        let tags := default (JList []) (jget "tags" kv) in
        call (registry env) "write_memory"
          (JObj [("content", content); ("memory_type", memory_type);
                 ("importance", importance); ("tags", tags)]) ;;
        if sliceable content then ret tt
        else raise (Exception "TypeError" "object is not subscriptable")
      else ret tt
  | _ => raise (Exception "AttributeError" "object has no attribute 'get'")
  end.

End WithEnv.

End Reflection.

(* ================================================================== *)
(** ** [src/lang_graph/memory.py] *)
(* ================================================================== *)

Module Memory.
Import Reflection.

Definition extract_and_save_memory (env : Env) (question answer : string)
  : M unit :=
  content <- ask_judge env question answer ;;
  try_except
    (decision <- load_decision env content ;; act_on env decision)
    (fun _ => ret tt).

End Memory.

(* ================================================================== *)
(** ** [run_example.py] *)
(* ================================================================== *)

Module RunExample.
Import ToolDefinitions ToolRegistry Reflection.

(** The system prompt (its first line; the wording plays no role). *)
Definition SYSTEM_PROMPT : string :=
  "You are an AI assistant that uses tools (functions), RAG, and memory.".

Definition SENTINEL : string := "최대 단계 초과".

(** [arguments or "{}"] *)
Definition or_empty_object (arguments : option string) : string :=
  match arguments with
  | None => "{}"
  | Some a => if String.eqb a "" then "{}" else a
  end.

Section WithEnv.
Context (env : Env).

Definition extract_and_save_memory (question answer : string) : M unit :=
  content <- ask_judge env question answer ;;
  decision <- load_decision env content ;;
  act_on env decision.

(** [client.chat.completions.create(model, messages, tools, ...)] *)
Definition reason (messages : list Message) : M Response :=
  n <- tick ;;
  let reply := llm env n messages in
  log (EvReason messages reply) ;;
  ret reply.

(** [json.loads(tc.function.arguments or "{}")] *)
Definition load_arguments (arguments : option string) : M Json :=
  match json_loads env (or_empty_object arguments) with
  | None => raise (Exception "JSONDecodeError" "Expecting value")
  | Some v => ret v
  end.

(** [for tc in tool_calls: ...] *)
Fixpoint run_tool_calls (tcs : list RawToolCall)
    (messages : list Message) (trs : list Trace)
  : M (list Message * list Trace) :=
  match tcs with
  | [] => ret (messages, trs)
  | tc :: rest =>
      tool_args <- load_arguments (rtc_arguments tc) ;;
      result <- call (registry env) (rtc_name tc) tool_args ;;
      observation <- dumps env false result ;;
      run_tool_calls rest
        (messages ++ [MsgTool (rtc_id tc) observation])
        (trs ++ [{| tool_name := rtc_name tc; tool_args := tool_args;
                    observation := observation |}])
  end.

(** [random.randint(1, 30)] *)
Definition random_1_30 : M Z :=
  n <- tick ;; ret (randint env n).

(** The branch [if not tool_calls:] of the loop body. *)
Definition finish (q : string) (trs : list Trace) (answer : string)
  : M Trajectory :=
  extract_and_save_memory q answer ;;
  r <- random_1_30 ;;
  (if r =? 1 then cleanup_memories 500 else ret tt) ;;
  ret {| question := q; traces := trs; final_answer := Some answer |}.

(** [for cycle in range(max_cycles): ...] followed by the sentinel. *)
Fixpoint cycles (n : nat) (q : string)
    (messages : list Message) (trs : list Trace) : M Trajectory :=
  match n with
  | O =>
      ret {| question := q; traces := trs; final_answer := Some SENTINEL |}
  | S n' =>
      msg <- reason messages ;;
      match resp_tool_calls msg with
      | None | Some [] => finish q trs (default "" (resp_content msg))
      | Some tcs =>
          st <- run_tool_calls tcs (messages ++ [MsgAssistant msg]) trs ;;
          cycles n' q (fst st) (snd st)
      end
  end.

Definition run_react_agent (q : string) (max_cycles : Z) : M Trajectory :=
  cycles (Z.to_nat max_cycles) q [MsgSystem SYSTEM_PROMPT; MsgUser q] [].

End WithEnv.

End RunExample.

(* ================================================================== *)
(** ** [src/lang_graph/nodes.py]: message conversion and the LLM node *)
(* ================================================================== *)

Module LlmNode.
Import ToolDefinitions ToolRegistry Nodes.

(** An element of [state["messages"]], by the branch of
    [convert_messages] that handles it: a message object with a [type]
    (its [tool_calls] and [tool_call_id] are [None] when the attribute is
    missing), a dictionary, or anything else with its [str]. *)
Inductive StateMessage : Type :=
| MessageObject (type : string) (content : option string)
    (tool_calls : option (list (list (string * Json))))
    (tool_call_id : option string)
| MessageDict (d : list (string * Json))
| MessageOther (text : string).

(** [role_map.get(m.type, m.type)] *)
Definition role_of (type : string) : string :=
  if String.eqb type "human" then "user"
  else if String.eqb type "ai" then "assistant"
  else if String.eqb type "system" then "system"
  else if String.eqb type "tool" then "tool"
  else type.

(** [a or b] on optional JSON values, with a default for [b]. *)
Definition or_else (a : option Json) (b : Json) : Json :=
  match a with
  | Some v => if truthy a then v else b
  | None => b
  end.

Section WithEnv.
Context (env : Env).

(** One element of the [tool_calls] list of a converted message.  The
    [args] of a message object are the dictionary that the message library
    parsed from the reply's argument text, hence JSON data, which
    [json.dumps] turns into text. *)
Definition convert_tool_call (tc : list (string * Json)) : Json :=
  JObj [("id", or_else (jget "id" tc) (default (JStr "") (jget "tool_call_id" tc)));
        ("type", JStr "function");
        ("function",
         JObj [("name", default (JStr "") (jget "name" tc));
               ("arguments",
                match jget "args" tc with
                | Some (JStr s) => JStr s
                | Some v => JStr (json_dumps env true v)
                | None => JStr (json_dumps env true (JObj []))
                end)])].

(** The body of the loop of [convert_messages]: what is appended for one
    message. *)
Definition convert_message (m : StateMessage) : Json :=
  match m with
  | MessageObject type content tool_calls tool_call_id =>
      JObj ([("role", JStr (role_of type));
             ("content", JStr (default "" content))]
            ++ match tool_calls with
               | None | Some [] => []
               | Some tcs => [("tool_calls", JList (map convert_tool_call tcs))]
               end
            ++ match tool_call_id with
               | None => []
               | Some i => if String.eqb i "" then [] else [("tool_call_id", JStr i)]
               end)
  | MessageDict d => JObj d
  | MessageOther text => JObj [("role", JStr "user"); ("content", JStr text)]
  end.

Definition convert_messages (messages : list StateMessage) : list Json :=
  map convert_message messages.

(** [converted_messages and converted_messages[0].get("role") == "system"] *)
Definition has_system (converted_messages : list Json) : bool :=
  match converted_messages with
  | JObj d :: _ =>
      match jget "role" d with
      | Some (JStr r) => String.eqb r "system"
      | _ => false
      end
  | _ => false
  end.

(** The first line of the system prompt of [nodes.py] (the wording plays
    no role). *)
Definition SYSTEM_PROMPT : string :=
  "You are an AI assistant that uses tools (functions), RAG, and memory.".

(** The message list handed to the chat completion. *)
Definition outgoing (messages : list StateMessage) : list Json :=
  let converted_messages := convert_messages messages in
  if has_system converted_messages then converted_messages
  else JObj [("role", JStr "system"); ("content", JStr SYSTEM_PROMPT)]
       :: converted_messages.

(** One element of [tool_calls_data]. *)
Definition tool_call_data (tc : RawToolCall) : M ToolCall :=
  match json_loads env (RunExample.or_empty_object (rtc_arguments tc)) with
  | None => raise (Exception "JSONDecodeError" "Expecting value")
  | Some arguments =>
      ret {| tc_id := rtc_id tc; tc_name := rtc_name tc;
             tc_arguments := arguments |}
  end.

Fixpoint tool_calls_data (tcs : list RawToolCall) : M (list ToolCall) :=
  match tcs with
  | [] => ret []
  | tc :: rest =>
      d <- tool_call_data tc ;;
      ds <- tool_calls_data rest ;;
      ret (d :: ds)
  end.

(** [llm_node].  [chat] is the chat completion of the module's client, at
    its n-th consultation, on the outgoing message list. *)
Definition llm_node (chat : nat -> list Json -> Response)
    (messages : list StateMessage) : M AgentState :=
  n <- tick ;;
  let msg := chat n (outgoing messages) in
  match resp_tool_calls msg with
  | None | Some [] =>
      ret {| Nodes.messages :=
               [MsgAssistant {| resp_content := Some (default "" (resp_content msg));
                                resp_tool_calls := None |}];
             Nodes.tool_calls := None |}
  | Some tcs =>
      data <- tool_calls_data tcs ;;
      ret {| Nodes.messages :=
               [MsgAssistant {| resp_content := Some (default "" (resp_content msg));
                                resp_tool_calls := Some tcs |}];
             Nodes.tool_calls := Some data |}
  end.

End WithEnv.

End LlmNode.

(* ================================================================== *)
(** ** [src/lang_graph/graph.py]: the router *)
(* ================================================================== *)

Module Graph.
Import Nodes.

(** The name of the terminal node of the graph library. *)
Definition END : string := "__end__".

Definition route (state : AgentState) : string :=
  match tool_calls state with
  | None | Some [] => END
  | Some _ => "tool"
  end.

End Graph.

(* ================================================================== *)
(** ** [tool_definitions.py]: the calculator and the document search *)
(* ================================================================== *)

Module Calculator.

Section WithNumbers.
(** Python floats with their arithmetic; [is_zero x] is [x == 0] and
    [number x] is the value as it appears in the result. *)
Context {F : Type} (add subtract multiply divide : F -> F -> F)
  (is_zero : F -> bool) (number : F -> Json).

Record CalculaterInput := {
  num1 : F;
  num2 : F;
  op : string
}.

(** The [try] block: the result, or the exception raised in it. *)
Definition compute (input : CalculaterInput) : outcome F :=
  if String.eqb (op input) "add" then
    Return (add (num1 input) (num2 input))
  else if String.eqb (op input) "subtract" then
    Return (subtract (num1 input) (num2 input))
  else if String.eqb (op input) "multiply" then
    Return (multiply (num1 input) (num2 input))
  else if String.eqb (op input) "divide" then
    if is_zero (num2 input)
    then Raise (Exception "ValueError" "Division by zero is not allowed.")
    else Return (divide (num1 input) (num2 input))
  else Raise (Exception "ValueError" ("Invalid operation: " +:+ op input)).

Definition calculate (input : CalculaterInput) : Json :=
  match compute input with
  | Return result => JObj [("result", number result)]
  | Raise e => JObj [("error", JStr (exn_str e))]
  end.

End WithNumbers.

End Calculator.

Module RagSearch.

Record RAGSearchInput := {
  query : string;
  n_results : Z            (* default 5, ge=1, le=20 *)
}.

Section WithCapabilities.
(** Reranker scores with their descending order ([score_ge a b] is
    [a >= b]) and their rounded rendering; the query of the document
    collection, yielding [documents[0]] and [metadatas[0]]; the
    reranker. *)
Context {Score : Type} (score_ge : Score -> Score -> bool)
  (rounded : Score -> Json)
  (collection_query : string -> Z -> outcome (list string * list (option Json)))
  (predict : list (string * string) -> outcome (list Score)).

(** [zip(documents, metadatas, scores)] *)
Fixpoint zip3 (documents : list string) (metadatas : list (option Json))
    (scores : list Score) : list (string * option Json * Score) :=
  match documents, metadatas, scores with
  | d :: ds, m :: ms, s :: ss => (d, m, s) :: zip3 ds ms ss
  | _, _, _ => []
  end.

(** [sorted(..., key=lambda x: x[2], reverse=True)[:n_results]] *)
Definition ranked (n : Z) (triples : list (string * option Json * Score))
  : list (string * option Json * Score) :=
  take (Z.to_nat n)
    (sort_by (fun a b => score_ge (snd a) (snd b)) triples).

(** One element of [results_list]. *)
Definition result_at (i : nat) (t : string * option Json * Score) : Json :=
  let '(doc, metadata, score) := t in
  JObj [("rank", JInt (Z.of_nat i + 1));
        ("content", JStr doc);
        ("metadata", if truthy metadata then default (JObj []) metadata
                     else JObj []);
        ("score", rounded score)].

Definition rag_search (input : RAGSearchInput) : Json :=
  let body : outcome Json :=
    match collection_query (query input) (n_results input) with
    | Raise e => Raise e
    | Return (documents, metadatas) =>
        match documents with
        | [] => Return (JObj [("results", JList []); ("total", JInt 0)])
        | _ =>
            match predict (map (fun doc => (query input, doc)) documents) with
            | Raise e => Raise e
            | Return scores =>
                Return (JObj [("results",
                               JList (imap result_at
                                        (ranked (n_results input)
                                           (zip3 documents metadatas scores))));
                              ("source", JStr "chroma_rag")])
            end
        end
    end in
  match body with
  | Return r => r
  | Raise e => JObj [("error", JStr (exn_str e))]
  end.

End WithCapabilities.

End RagSearch.

(* ================================================================== *)
(** ** Notions used in the statements *)
(* ================================================================== *)

Import ToolDefinitions ToolRegistry Nodes Reflection RunExample.

(** Tool calls queued for a turn, and how many of them need confirmation. *)
Definition queued (state : AgentState) : list ToolCall :=
  default [] (tool_calls state).

Definition risky_count (tcs : list ToolCall) : nat :=
  length (filter (fun tc => str_in (tc_name tc) DANGEROUS_TOOLS = true) tcs).

(** The records [cleanup_memories] selects for deletion. *)
Definition evicted (max_count : Z) (l : list Entry) : list MemoryInfo :=
  take (Z.to_nat (Z.of_nat (length l) - max_count))
    (sort_by key_leb (map memory_info_of l)).

Definition survivors (max_count : Z) (l : list Entry) : list Entry :=
  filter (fun e => str_in (e_id e) (map mi_id (evicted max_count l)) = false) l.

(** What [read_memory] finds in a store. *)
Definition hits (env : Env) (input : ReadMemoryInput) (l : list Entry)
  : list Entry :=
  Collection.nearest env (rm_query input) (rm_top_k input)
    (where_filter_of input) l.

Definition read_result (found : list Entry) : Json :=
  match found with
  | [] => JObj [("results", JList []);
                ("message", JStr "관련 기억을 찾지 못했습니다.")]
  | _ => JObj [("results", JList (map result_of found));
               ("count", JInt (Z.of_nat (length (map result_of found))))]
  end.

(** The id and the record [write_memory] builds in a world. *)
Definition new_memory_id (env : Env) (w : World) : string :=
  "mem_" +:+ timestamp_str env (clock env (ticks w)).

Definition new_entry (env : Env) (input : WriteMemoryInput) (w : World) : Entry :=
  {| e_id := new_memory_id env w;
     e_document := wm_content input;
     e_metadata :=
       {| md_memory_type := Some (wm_memory_type input);
          md_importance := Some (wm_importance input);
          md_tags := Some (String.concat "," (wm_tags input));
          md_created_at := Some (isoformat env (clock env (S (ticks w)))) |} |}.

Definition saved (env : Env) (input : WriteMemoryInput) (w : World) : Json :=
  JObj [("status", JStr "saved");
        ("memory_id", JStr (new_memory_id env w));
        ("content", JStr (wm_content input));
        ("memory_type", JStr (wm_memory_type input))].

(** Tool bodies leave the trace, the confirmation channel and the
    availability of the store alone, and return a dictionary. *)
Definition framed (w w' : World) : Prop :=
  trace w' = trace w /\ resumes w' = resumes w /\ store_error w' = store_error w.

(** A step that consults neither the reasoning capability nor the
    Reflection Engine and keeps the store as available as it was. *)
Definition quiet (w w' : World) : Prop :=
  responses (trace w') = responses (trace w)
  /\ reflections (trace w') = reflections (trace w)
  /\ store_error w' = store_error w.

(** The world after the judgment capability was asked. *)
Definition asked (question answer : string) (w : World) : World :=
  set_ticks (set_trace w (trace w ++ [EvReflect question answer])) (S (ticks w)).

(** The decision dictionary carried by a judgment reply, if there is one. *)
Definition decision_of (env : Env) (content : option string)
  : option (list (string * Json)) :=
  match content with
  | Some text => match json_loads env text with
                 | Some (JObj kv) => Some kv
                 | _ => None
                 end
  | None => None
  end.

(** The reply asks for a write: it is a dictionary whose [should_write]
    is true. *)
Definition wants_write (env : Env) (content : option string) : bool :=
  match decision_of env content with
  | Some kv => truthy (jget "should_write" kv)
  | None => false
  end.

(** The reply lets reflection run to its end: it decodes to a dictionary
    that either asks for no write or carries the fields that the write and
    the log line use. *)
Definition decision_accepted (env : Env) (content : option string) : bool :=
  match decision_of env content with
  | Some kv =>
      if truthy (jget "should_write" kv) then
        match jget "content" kv, jget "memory_type" kv, jget "importance" kv with
        | Some c, Some _, Some _ => sliceable c
        | _, _, _ => false
        end
      else true
  | None => false
  end.

(** The result of the call is JSON data whenever the call returns one:
    [json.dumps] accepts it. *)
Definition serializes (env : Env) (n : string) (args : Json) : Prop :=
  forall w result w',
    call (registry env) n args w = (Return result, w') ->
    serializable result = true.

(** A tool call the loop can carry out: a registered tool, arguments
    that decode, a result that can be serialised. *)
Definition executable (env : Env) (tc : RawToolCall) : Prop :=
  is_Some (registry env !! rtc_name tc)
  /\ exists args,
       json_loads env (or_empty_object (rtc_arguments tc)) = Some args
       /\ serializes env (rtc_name tc) args.

(** Every reply of the reasoning capability asks for executable calls
    only. *)
Definition asks_executable (env : Env) : Prop :=
  forall n msgs tcs,
    resp_tool_calls (llm env n msgs) = Some tcs -> Forall (executable env) tcs.

Definition calls_tools (r : Response) : Prop := has_tool_calls r = true.

(** What a run of the loop leaves in the trace, by the way it ended. *)
Definition ended_with_answer (q : string) (w w' : World) (rs : list Response)
    (traj : Trajectory) : Prop :=
  exists rs' r,
    rs = rs' ++ [r]
    /\ Forall calls_tools rs'
    /\ has_tool_calls r = false
    /\ final_answer traj = Some (default "" (resp_content r))
    /\ reflections (trace w')
       = reflections (trace w) ++ [(q, default "" (resp_content r))].

Definition ended_with_sentinel (n : nat) (w w' : World) (rs : list Response)
    (traj : Trajectory) : Prop :=
  length rs = n
  /\ Forall calls_tools rs
  /\ final_answer traj = Some SENTINEL
  /\ reflections (trace w') = reflections (trace w).

(* ================================================================== *)
(** ** Concrete environments and worlds *)
(* ================================================================== *)

Module Fixtures.

(** The JSON text of the decision not to write. *)
Definition dq : string := String (ascii_of_nat 34) EmptyString.

Definition no_write_text : string :=
  "{" +:+ dq +:+ "should_write" +:+ dq +:+ ": false}".

(** A decoder that knows the empty object and that decision. *)
Definition loads (s : string) : option Json :=
  if String.eqb s "{}" then Some (JObj [])
  else if String.eqb s no_write_text
       then Some (JObj [("should_write", JBool false)])
       else None.

Definition validate_w (args : Json) : Json + WriteMemoryInput :=
  match field "content" args with
  | Some (JStr c) =>
      inr {| wm_content := c; wm_memory_type := "episodic";
             wm_importance := 3; wm_tags := [] |}
  | _ => inl (JList [JStr "content: field required"])
  end.

Definition validate_r (args : Json) : Json + ReadMemoryInput :=
  match field "query" args with
  | Some (JStr q) =>
      inr {| rm_query := q; rm_memory_type := "all"; rm_top_k := 5 |}
  | _ => inl (JList [JStr "query: field required"])
  end.

Definition make_env (reasoning : nat -> list Message -> Response)
    (judgment : nat -> string -> option string)
    (time : nat -> Z) (dice : nat -> Z) : Env :=
  {| llm := reasoning;
     judge := judgment;
     json_loads := loads;
     json_dumps := fun _ _ => "<json>";
     py_str := fun _ => "<args>";
     clock := time;
     timestamp_str :=
       fun t => pretty (t `div` 1000000) +:+ "." +:+ pretty (t `mod` 1000000);
     isoformat := fun t => "T+" +:+ pretty t;
     randint := dice;
     distance := fun _ _ => 0;
     validate_read := validate_r;
     validate_write := validate_w;
     validate_other := fun _ args => inr args;
     other_tool := fun _ _ _ => JObj [("result", JInt 0)] |}.

Definition answer_now : nat -> list Message -> Response :=
  fun _ _ => {| resp_content := Some "done"; resp_tool_calls := None |}.

(** A reasoning behaviour that keeps asking for the tool [tool]. *)
Definition always_call (tool : string) : nat -> list Message -> Response :=
  fun n _ =>
    {| resp_content := None;
       resp_tool_calls :=
         Some [{| rtc_id := "call_" +:+ pretty n; rtc_name := tool;
                  rtc_arguments := Some "{}" |}] |}.

Definition nothing_to_save : nat -> string -> option string :=
  fun _ _ => Some no_write_text.

Definition ticking_clock : nat -> Z :=
  fun n => 1700000000250000 + Z.of_nat n.

Definition env0 : Env :=
  make_env answer_now nothing_to_save ticking_clock (fun _ => 2).

(** The wall clock yields the same reading twice. *)
Definition env_frozen : Env :=
  make_env answer_now nothing_to_save (fun _ => 1700000000250000) (fun _ => 2).

Definition world_of (m : list Entry) (tokens : list string) : World :=
  {| mem := m; store_error := None; ticks := 0; resumes := tokens; trace := [] |}.

Definition entry (i : string) (kind : string) (importance : Z)
    (created : string) : Entry :=
  {| e_id := i; e_document := "note " +:+ i;
     e_metadata := {| md_memory_type := Some kind;
                      md_importance := Some importance;
                      md_tags := Some "";
                      md_created_at := Some created |} |}.

Definition three : list Entry :=
  [ entry "mem_1" "profile" 5 "2025-01-01T10:00:00";
    entry "mem_2" "episodic" 1 "2025-01-03T10:00:00";
    entry "mem_3" "episodic" 1 "2025-01-02T10:00:00" ].

Definition likes_python : WriteMemoryInput :=
  {| wm_content := "preferred language: Python"; wm_memory_type := "profile";
     wm_importance := 5; wm_tags := ["lang_pref"; "python"] |}.

Definition uses_torch : WriteMemoryInput :=
  {| wm_content := "uses PyTorch"; wm_memory_type := "profile";
     wm_importance := 4; wm_tags := [] |}.

End Fixtures.

Module LoopFixtures.
Import Fixtures.

(** The reasoning capability keeps asking for [calculate]. *)
Definition env_calculating : Env :=
  make_env (always_call "calculate") nothing_to_save ticking_clock (fun _ => 2).

(** The reasoning capability asks for a tool that is not registered. *)
Definition env_unknown_tool : Env :=
  make_env (always_call "no_such_tool") nothing_to_save ticking_clock
    (fun _ => 2).

End LoopFixtures.

(** No two records of the store share an id. *)
Definition unique_ids (w : World) : Prop := NoDup (map e_id (mem w)).

(** A step after which the ids are unique if they were before. *)
Definition keeps_ids (w w' : World) : Prop := unique_ids w -> unique_ids w'.

(** The names of the tools that a sequence of replies asks for, in
    order. *)
Definition requested (rs : list Response) : list string :=
  flat_map (fun r => map rtc_name (default [] (resp_tool_calls r))) rs.

(* ================================================================== *)
(** ** Further concrete values *)
(* ================================================================== *)

Module ExtraFixtures.
Import Fixtures.

(** A tool that hands its arguments back. *)
Definition echo : ToolSpec :=
  {| name := "echo"; description := "Echo the arguments.";
     input_model := GetTimeInput; handler := fun args => ret args |}.

(** A world whose store raises on every access. *)
Definition world_down : World :=
  {| mem := three; store_error := Some "database is locked"; ticks := 0;
     resumes := []; trace := [] |}.

(** A safe call followed by two risky ones. *)
Definition mixed_queue : list ToolCall :=
  [ {| tc_id := "a"; tc_name := "calculate"; tc_arguments := JObj [] |};
    {| tc_id := "b"; tc_name := "google_search"; tc_arguments := JObj [] |};
    {| tc_id := "c"; tc_name := "write_memory";
       tc_arguments := JObj [("content", JStr "x")] |} ].

(** A chat completion that asks for a document search. *)
Definition chat_search : nat -> list Json -> Response :=
  fun n _ =>
    {| resp_content := None;
       resp_tool_calls :=
         Some [{| rtc_id := "call_" +:+ pretty n; rtc_name := "rag_search";
                  rtc_arguments := Some "{}" |}] |}.

(** The JSON text of a decision to write, and a decoder that knows it. *)
Definition save_text : string :=
  "{" +:+ dq +:+ "should_write" +:+ dq +:+ ": true, "
  +:+ dq +:+ "memory_type" +:+ dq +:+ ": " +:+ dq +:+ "profile" +:+ dq +:+ ", "
  +:+ dq +:+ "importance" +:+ dq +:+ ": 4, "
  +:+ dq +:+ "content" +:+ dq +:+ ": " +:+ dq +:+ "likes tea" +:+ dq +:+ "}".

Definition loads_saving (s : string) : option Json :=
  if String.eqb s save_text
  then Some (JObj [("should_write", JBool true);
                   ("memory_type", JStr "profile");
                   ("importance", JInt 4);
                   ("content", JStr "likes tea")])
  else loads s.

(** The judgment capability always decides to write. *)
Definition env_saving : Env :=
  {| llm := answer_now;
     judge := fun _ _ => Some save_text;
     json_loads := loads_saving;
     json_dumps := json_dumps env0;
     py_str := py_str env0;
     clock := ticking_clock;
     timestamp_str := timestamp_str env0;
     isoformat := isoformat env0;
     randint := fun _ => 2;
     distance := fun _ _ => 0;
     validate_read := validate_r;
     validate_write := validate_w;
     validate_other := fun _ args => inr args;
     other_tool := fun _ _ _ => JObj [("result", JInt 0)] |}.

(** The errors of a search query that its validator rejected: the entry
    holds the exception the validator raised. *)
Definition blank_query_errors : Json :=
  JList [JObj [("type", JStr "value_error");
               ("loc", JList [JStr "query"]);
               ("msg", JStr "Value error, Query must not be empty");
               ("input", JStr "");
               ("ctx", JObj [("error", JObject "ValueError")])]].

(** Validation that rejects a blank search query and lets everything else
    through. *)
Definition validate_search (model : InputModel) (args : Json) : Json + Json :=
  match model, field "query" args with
  | GoogleSearchInput, Some (JStr "") => inl blank_query_errors
  | _, _ => inr args
  end.

Definition env_strict : Env :=
  {| llm := always_call "google_search";
     judge := nothing_to_save;
     json_loads := fun s => if String.eqb s "{}"
                            then Some (JObj [("query", JStr "")])
                            else loads s;
     json_dumps := json_dumps env0;
     py_str := py_str env0;
     clock := ticking_clock;
     timestamp_str := timestamp_str env0;
     isoformat := isoformat env0;
     randint := fun _ => 2;
     distance := fun _ _ => 0;
     validate_read := validate_r;
     validate_write := validate_w;
     validate_other := validate_search;
     other_tool := fun _ _ _ => JObj [("result", JInt 0)] |}.

(** Two writes queued in one turn. *)
Definition two_writes : AgentState :=
  {| Nodes.messages := [];
     Nodes.tool_calls :=
       Some [ {| tc_id := "call_a"; tc_name := "write_memory";
                 tc_arguments := JObj [("content", JStr "A")] |};
              {| tc_id := "call_b"; tc_name := "write_memory";
                 tc_arguments := JObj [("content", JStr "B")] |} ] |}.

(** A document collection of three texts and a reranker with integer
    scores. *)
Definition rag_collection (q : string) (n : Z)
  : outcome (list string * list (option Json)) :=
  Return (["intro"; "setup"; "usage"],
          [Some (JObj [("page", JInt 1)]); None; Some (JObj [])]).

Definition rag_scores : nat -> Z :=
  fun i => nth i [1; 3; 2] 0.

Definition rag_predict (pairs : list (string * string)) : outcome (list Z) :=
  Return (imap (fun i _ => rag_scores i) pairs).

Definition world_after_save : World :=
  Eval vm_compute in
    snd (Memory.extract_and_save_memory env_saving "my drink?" "noted"
           (world_of [] [])).

End ExtraFixtures.

(* ================================================================== *)
(** * Properties *)
(* ================================================================== *)

Ltac unfold_M :=
  cbv beta delta [bind ret raise try_except log tick
    Collection.query Collection.add Collection.get Collection.delete
    Collection.available] in *.

(** Closes a case of reflection in which the store is not touched. *)
Ltac no_write_case :=
  do 3 (unfold_M; cbn [Reflection.act_on]; cbv beta iota);
  let Hm := fresh "Hm" in
  intros ? Hm; simplify_eq; exfalso; apply Hm; reflexivity.

Ltac simpl_world :=
  cbn [mem store_error ticks resumes trace
       set_mem set_ticks set_resumes set_trace fst snd] in *.

(* ================================================================== *)
(** ** Facts on sorting and on the order of strings *)
(* ================================================================== *)

Section SortFacts.
Context {A : Type} (leb : A -> A -> bool).

Lemma insert_by_perm x l : insert_by leb x l ≡ₚ x :: l.
Proof.
  induction l as [|y l IH]; simpl; [done|].
  destruct (leb x y); [done|].
  rewrite IH. apply Permutation_swap.
Qed.

Lemma sort_by_perm l : sort_by leb l ≡ₚ l.
Proof.
  induction l as [|x l IH]; simpl; [done|].
  unfold sort_by in *. simpl. rewrite insert_by_perm. by rewrite IH.
Qed.

Lemma sort_by_length l : length (sort_by leb l) = length l.
Proof. by rewrite sort_by_perm. Qed.

Hypothesis leb_total : forall a b, leb a b = true \/ leb b a = true.
Hypothesis leb_trans :
  forall a b c, leb a b = true -> leb b c = true -> leb a c = true.

Lemma insert_by_sorted x l :
  StronglySorted (fun a b => leb a b = true) l ->
  StronglySorted (fun a b => leb a b = true) (insert_by leb x l).
Proof.
  induction 1 as [|y l Hs IH Hall]; simpl.
  - repeat constructor.
  - destruct (leb x y) eqn:Hxy.
    + constructor; [by constructor|].
      constructor; [done|].
      eapply Forall_impl; [exact Hall|]. intros z Hz. by eapply leb_trans.
    + constructor; [done|].
      rewrite insert_by_perm. constructor; [|done].
      destruct (leb_total x y) as [H|H]; congruence.
Qed.

Lemma sort_by_sorted l :
  StronglySorted (fun a b => leb a b = true) (sort_by leb l).
Proof.
  induction l as [|x l IH]; [constructor|].
  unfold sort_by in *. simpl. by apply insert_by_sorted.
Qed.

End SortFacts.

Lemma ascii_compare_trans_le a b c :
  Ascii.compare a b <> Gt -> Ascii.compare b c <> Gt -> Ascii.compare a c <> Gt.
Proof.
  unfold Ascii.compare. rewrite !N.compare_le_iff. lia.
Qed.

Lemma string_leb_trans a b c :
  String.leb a b = true -> String.leb b c = true -> String.leb a c = true.
Proof.
  unfold String.leb.
  revert b c. induction a as [|x a IH]; intros [|y b] [|z c]; simpl; try done.
  unfold Ascii.compare.
  destruct (N.compare_spec (N_of_ascii x) (N_of_ascii y)) as [Hxy|Hxy|Hxy];
    destruct (N.compare_spec (N_of_ascii y) (N_of_ascii z)) as [Hyz|Hyz|Hyz];
    destruct (N.compare_spec (N_of_ascii x) (N_of_ascii z)) as [Hxz|Hxz|Hxz];
    try done; try lia.
  apply IH.
Qed.

Lemma key_leb_total a b : key_leb a b = true \/ key_leb b a = true.
Proof.
  unfold key_leb.
  destruct (Z.ltb_spec (mi_importance a) (mi_importance b)); [by left|].
  destruct (Z.ltb_spec (mi_importance b) (mi_importance a)); [by right|].
  assert (mi_importance a = mi_importance b) as -> by lia.
  rewrite Z.eqb_refl. simpl.
  apply String.leb_total.
Qed.

Lemma key_leb_trans a b c :
  key_leb a b = true -> key_leb b c = true -> key_leb a c = true.
Proof.
  unfold key_leb. rewrite !orb_true_iff, !andb_true_iff.
  rewrite !Z.ltb_lt, !Z.eqb_eq.
  intros [H1|[H1 L1]] [H2|[H2 L2]]; try (left; lia).
  right. split; [lia|]. by eapply string_leb_trans.
Qed.

(* ================================================================== *)
(** ** The eviction policy [cleanup_memories] *)
(* ================================================================== *)

Lemma str_in_true s l : str_in s l = true <-> s ∈ l.
Proof.
  unfold str_in. rewrite existsb_exists. split.
  - intros (x & Hx & Heq). apply String.eqb_eq in Heq. subst.
    by apply list_elem_of_In.
  - intros H. exists s. split; [by apply list_elem_of_In|apply String.eqb_refl].
Qed.

Lemma str_in_false s l : str_in s l = false <-> s ∉ l.
Proof.
  rewrite <- str_in_true. destruct (str_in s l); split; congruence.
Qed.

Lemma length_filter_fmap {A B} (f : A -> B) (Q : B -> Prop)
    `{forall x, Decision (Q x)} (l : list A) :
  length (filter (fun a => Q (f a)) l) = length (filter Q (f <$> l)).
Proof.
  induction l as [|a l IH]; [done|].
  rewrite fmap_cons, !filter_cons. destruct (decide (Q (f a))); simpl; lia.
Qed.

Lemma filter_all {A} (P : A -> Prop) `{forall x, Decision (P x)} (l : list A) :
  (forall x, x ∈ l -> P x) -> filter P l = l.
Proof.
  induction l as [|a l IH]; intros Hall; [done|].
  rewrite filter_cons, decide_True by (apply Hall; left).
  f_equal. apply IH. intros x Hx. apply Hall. by right.
Qed.

Lemma filter_none {A} (P : A -> Prop) `{forall x, Decision (P x)} (l : list A) :
  (forall x, x ∈ l -> ~ P x) -> filter P l = [].
Proof.
  induction l as [|a l IH]; intros Hall; [done|].
  rewrite filter_cons, decide_False by (apply Hall; left).
  apply IH. intros x Hx. apply Hall. by right.
Qed.

Lemma NoDup_fmap_eq {A B} (f : A -> B) (l : list A) x y :
  NoDup (f <$> l) -> x ∈ l -> y ∈ l -> f x = f y -> x = y.
Proof.
  induction l as [|a l IH]; simpl; intros Hnd Hx Hy Heq.
  - by apply elem_of_nil in Hx.
  - apply NoDup_cons in Hnd as [Hnotin Hnd].
    apply elem_of_cons in Hx as [->|Hx]; apply elem_of_cons in Hy as [->|Hy].
    + done.
    + exfalso. apply Hnotin. rewrite Heq. by apply list_elem_of_fmap_2.
    + exfalso. apply Hnotin. rewrite <- Heq. by apply list_elem_of_fmap_2.
    + by apply IH.
Qed.

Lemma memory_info_ids (l : list Entry) :
  mi_id <$> (memory_info_of <$> l) = e_id <$> l.
Proof. by rewrite <- list_fmap_compose. Qed.

Lemma cleanup_memories_noop w max_count :
  store_error w = None ->
  Z.of_nat (length (mem w)) <= max_count ->
  cleanup_memories max_count w = (Return tt, w).
Proof.
  intros Hs Hle.
  unfold cleanup_memories, Collection.get, Collection.available, bind, ret.
  rewrite Hs, length_map.
  by destruct (Z.leb_spec (Z.of_nat (length (mem w))) max_count); [|lia].
Qed.

Lemma cleanup_memories_evicts w max_count :
  store_error w = None ->
  max_count < Z.of_nat (length (mem w)) ->
  cleanup_memories max_count w
  = (Return tt, set_mem w (survivors max_count (mem w))).
Proof.
  intros Hs Hlt.
  unfold cleanup_memories, Collection.get, Collection.delete,
    Collection.available, bind, ret.
  rewrite Hs, length_map.
  destruct (Z.leb_spec (Z.of_nat (length (mem w))) max_count); [lia|].
  by rewrite Hs.
Qed.

Section Eviction.
Variables (l : list Entry) (max_count : Z).
Hypothesis ids_unique : NoDup (e_id <$> l).

Let sorted := sort_by key_leb (map memory_info_of l).
Let d := Z.to_nat (Z.of_nat (length l) - max_count).

Lemma sorted_ids_NoDup : NoDup (mi_id <$> sorted).
Proof.
  unfold sorted. rewrite sort_by_perm.
  change (map memory_info_of l) with (memory_info_of <$> l).
  by rewrite memory_info_ids.
Qed.

Lemma evicted_or_kept e :
  e ∈ l -> memory_info_of e ∈ take d sorted \/ memory_info_of e ∈ drop d sorted.
Proof.
  intros He. apply elem_of_app. rewrite take_drop. unfold sorted.
  rewrite sort_by_perm. by apply list_elem_of_fmap_2.
Qed.

Lemma survivor_iff e :
  e ∈ survivors max_count l <-> e ∈ l /\ memory_info_of e ∈ drop d sorted.
Proof.
  unfold survivors, evicted. fold sorted. fold d.
  rewrite list_elem_of_filter, str_in_false.
  pose proof sorted_ids_NoDup as Hnd.
  rewrite <- (take_drop d sorted), fmap_app in Hnd.
  apply NoDup_app in Hnd as (_ & Hdisj & _).
  split.
  - intros [Hnot He]. split; [done|].
    destruct (evicted_or_kept e He) as [Ht|Hd]; [|done].
    exfalso. apply Hnot.
    change (e_id e) with (mi_id (memory_info_of e)).
    by apply (list_elem_of_fmap_2 mi_id).
  - intros [He Hd]. split; [|done].
    intros Hin. apply (Hdisj (e_id e)); [done|].
    change (e_id e) with (mi_id (memory_info_of e)).
    by apply (list_elem_of_fmap_2 mi_id).
Qed.

Lemma evicted_iff e :
  e ∈ l -> e ∉ survivors max_count l <-> memory_info_of e ∈ evicted max_count l.
Proof.
  intros He. rewrite survivor_iff.
  unfold evicted. fold sorted. fold d.
  pose proof sorted_ids_NoDup as Hnd.
  split.
  - intros Hn. destruct (evicted_or_kept e He); [done|]. exfalso. by apply Hn.
  - intros Ht [_ Hd].
    rewrite <- (take_drop d sorted), fmap_app in Hnd.
    apply NoDup_app in Hnd as (_ & Hdisj & _).
    apply (Hdisj (mi_id (memory_info_of e))); by apply list_elem_of_fmap_2.
Qed.

Lemma survivors_length :
  length (survivors max_count l) = (length l - d)%nat.
Proof.
  unfold survivors, evicted. fold sorted. fold d.
  etrans; [exact (length_filter_fmap e_id
             (fun i => str_in i (map mi_id (take d sorted)) = false) l)|].
  pose proof sorted_ids_NoDup as Hnd.
  assert (e_id <$> l ≡ₚ (mi_id <$> take d sorted) ++ (mi_id <$> drop d sorted))
    as Hperm.
  { rewrite <- fmap_app, take_drop. unfold sorted.
    rewrite sort_by_perm.
    change (map memory_info_of l) with (memory_info_of <$> l).
    by rewrite memory_info_ids. }
  rewrite Hperm, filter_app.
  rewrite <- (take_drop d sorted), fmap_app in Hnd.
  apply NoDup_app in Hnd as (_ & Hdisj & _).
  rewrite filter_none, filter_all; simpl.
  - rewrite length_fmap, length_drop. unfold sorted.
    by rewrite sort_by_length, length_map.
  - intros i Hi. apply str_in_false. intros Hin. by apply (Hdisj i).
  - intros i Hi. rewrite str_in_false. intros Hn. by apply Hn.
Qed.

Lemma evicted_below_survivors gone kept :
  gone ∈ l -> gone ∉ survivors max_count l -> kept ∈ survivors max_count l ->
  key_leb (memory_info_of gone) (memory_info_of kept) = true.
Proof.
  intros Hg Hgone Hkept.
  apply evicted_iff in Hgone; [|done].
  apply survivor_iff in Hkept as [_ Hkept].
  unfold evicted in Hgone. fold sorted in Hgone. fold d in Hgone.
  pose proof (sort_by_sorted key_leb key_leb_total key_leb_trans
                (map memory_info_of l)) as Hs.
  fold sorted in Hs. rewrite <- (take_drop d sorted) in Hs.
  by apply (StronglySorted_app_1_elem_of _ _ _ _ _ Hs).
Qed.

End Eviction.

(** C3 (amended to [0 <= max_count]).  On an available store with unique
    ids, [cleanup_memories max_count] returns normally and
    - changes nothing when the size is at most [max_count];
    - otherwise deletes exactly [size - max_count] records, the ones at the
      front of the ascending stable sort by [(importance, created_at)]:
      every deleted record has a key below or equal to the key of every
      retained record;
    - leaves a store of size [min size max_count];
    - is a no-op when invoked again at once. *)
Theorem C3_cleanup_evicts_smallest_keys (w : World) (max_count : Z) :
  store_error w = None ->
  NoDup (e_id <$> mem w) ->
  0 <= max_count ->
  exists w',
    cleanup_memories max_count w = (Return tt, w')
    /\ (Z.of_nat (length (mem w)) <= max_count -> w' = w)
    /\ mem w' = survivors max_count (mem w)
    /\ (max_count < Z.of_nat (length (mem w)) ->
        length (evicted max_count (mem w))
        = Z.to_nat (Z.of_nat (length (mem w)) - max_count)
        /\ Z.of_nat (length (mem w)) - Z.of_nat (length (mem w'))
           = Z.of_nat (length (mem w)) - max_count)
    /\ (forall gone, gone ∈ mem w ->
          gone ∉ mem w' <-> memory_info_of gone ∈ evicted max_count (mem w))
    /\ (forall gone kept, gone ∈ mem w -> gone ∉ mem w' -> kept ∈ mem w' ->
          key_leb (memory_info_of gone) (memory_info_of kept) = true)
    /\ Z.of_nat (length (mem w')) = Z.min (Z.of_nat (length (mem w))) max_count
    /\ cleanup_memories max_count w' = (Return tt, w').
Proof.
  intros Hs Hnd Hpos.
  destruct (Z.le_gt_cases (Z.of_nat (length (mem w))) max_count) as [Hle|Hgt].
  - exists w. rewrite cleanup_memories_noop by done.
    assert (Z.to_nat (Z.of_nat (length (mem w)) - max_count) = 0%nat) as Hd by lia.
    assert (evicted max_count (mem w) = []) as Hev.
    { unfold evicted. by rewrite Hd. }
    assert (survivors max_count (mem w) = mem w) as Hsurv.
    { unfold survivors. rewrite Hev. apply filter_all. by intros. }
    split; [done|]. split; [done|]. split; [done|]. split; [lia|].
    split.
    { intros gone Hg. rewrite Hev. split.
      - intros Hn. by destruct Hn.
      - intros Hin. by apply elem_of_nil in Hin. }
    split.
    { intros gone kept Hg Hn. by destruct Hn. }
    split; [lia|done].
  - exists (set_mem w (survivors max_count (mem w))).
    rewrite cleanup_memories_evicts by (done || lia).
    pose proof (survivors_length (mem w) max_count Hnd) as Hlen.
    simpl.
    split; [done|]. split; [lia|]. split; [done|].
    split.
    { intros _. split.
      - unfold evicted. rewrite length_take, sort_by_length, length_map. lia.
      - rewrite Hlen. lia. }
    split.
    { intros gone Hg. by apply evicted_iff. }
    split.
    { intros gone kept. by apply evicted_below_survivors. }
    split.
    { rewrite Hlen. lia. }
    apply cleanup_memories_noop; [done|]. simpl. rewrite Hlen. lia.
Qed.

(* ================================================================== *)
(** ** The registry *)
(* ================================================================== *)

Lemma register_all_lookup specs : forall tools tools' n spec,
  register_all specs tools = Return tools' ->
  tools' !! n = Some spec ->
  tools !! n = Some spec \/ (In spec specs /\ name spec = n).
Proof.
  induction specs as [|s specs IH]; simpl; intros tools tools' n spec Hreg Hl.
  - left. congruence.
  - unfold register_tool in Hreg.
    destruct (tools !! name s) eqn:Hs; [done|].
    destruct (IH _ _ _ _ Hreg Hl) as [H|[H1 H2]].
    + destruct (decide (name s = n)) as [<-|Hne].
      * rewrite lookup_insert_eq in H. right. split; [left|]; congruence.
      * rewrite lookup_insert_ne in H by done. by left.
    + right. split; [by right|done].
Qed.

Lemma register_default_tools_ok env :
  register_default_tools env = Return (registry env).
Proof.
  unfold registry.
  assert (returns (register_default_tools env) = true) as H
    by (vm_compute; reflexivity).
  by destruct (register_default_tools env).
Qed.

Lemma registry_lookup env n spec :
  registry env !! n = Some spec ->
  In spec (get_default_tool_specs env) /\ name spec = n.
Proof.
  intros Hl.
  destruct (register_all_lookup _ _ _ _ _ (register_default_tools_ok env) Hl)
    as [H|H]; [|done].
  by rewrite lookup_empty in H.
Qed.

Lemma registry_google_search env :
  registry env !! "google_search"
  = Some {| name := "google_search";
            description := "Perform a Google search and return the top results.";
            input_model := GoogleSearchInput;
            handler := other_handler env GoogleSearchInput "google_search" |}.
Proof. reflexivity. Qed.

Lemma registry_write_memory env :
  registry env !! "write_memory"
  = Some {| name := "write_memory";
            description := "Store important information in memory.";
            input_model := WriteMemoryInputModel;
            handler := write_memory_handler env |}.
Proof. reflexivity. Qed.

(* ================================================================== *)
(** ** The memory tools *)
(* ================================================================== *)

Lemma read_memory_available env input w :
  store_error w = None ->
  read_memory env input w = (Return (read_result (hits env input (mem w))), w).
Proof.
  intros Hs. unfold read_memory, read_result, hits. unfold_M. rewrite Hs.
  by destruct (Collection.nearest _ _ _ _ _).
Qed.

Lemma read_memory_unavailable env input w msg :
  store_error w = Some msg ->
  read_memory env input w = (Return (JObj [("error", JStr msg)]), w).
Proof.
  intros Hs. unfold read_memory. unfold_M. by rewrite Hs.
Qed.

Lemma write_memory_fresh env input w :
  store_error w = None ->
  str_in (new_memory_id env w) (map e_id (mem w)) = false ->
  write_memory env input w
  = (Return (saved env input w),
     {| mem := mem w ++ [new_entry env input w];
        store_error := store_error w;
        ticks := S (S (ticks w));
        resumes := resumes w;
        trace := trace w |}).
Proof.
  intros Hs Hfresh. unfold write_memory, now, new_memory_id in *.
  unfold_M. simpl_world. rewrite Hs. simpl_world. rewrite Hfresh.
  unfold set_mem, set_ticks. simpl_world. by rewrite Hs.
Qed.

Lemma write_memory_present env input w :
  store_error w = None ->
  str_in (new_memory_id env w) (map e_id (mem w)) = true ->
  write_memory env input w
  = (Return (saved env input w), set_ticks w (S (S (ticks w)))).
Proof.
  intros Hs Hpresent. unfold write_memory, now, new_memory_id in *.
  unfold_M. simpl_world. rewrite Hs. simpl_world. rewrite Hpresent. reflexivity.
Qed.

Lemma write_memory_unavailable env input w msg :
  store_error w = Some msg ->
  write_memory env input w
  = (Return (JObj [("error", JStr msg)]), set_ticks w (S (S (ticks w)))).
Proof.
  intros Hs. unfold write_memory, now. unfold_M. simpl_world. by rewrite Hs.
Qed.

Lemma read_memory_framed env input w :
  exists r, read_memory env input w = (Return r, w).
Proof.
  destruct (store_error w) as [msg|] eqn:Hs.
  - eexists. by apply read_memory_unavailable.
  - eexists. by apply read_memory_available.
Qed.

Lemma write_memory_framed env input w :
  exists r w', write_memory env input w = (Return r, w') /\ framed w w'.
Proof.
  destruct (store_error w) as [msg|] eqn:Hs.
  - do 2 eexists. split; [by apply write_memory_unavailable|]. by repeat split.
  - destruct (str_in (new_memory_id env w) (map e_id (mem w))) eqn:Hf.
    + do 2 eexists. split; [by apply write_memory_present|]. by repeat split.
    + do 2 eexists. split; [by apply write_memory_fresh|]. by repeat split.
Qed.

(** Given a dictionary, a default handler either rejects it with the
    validation errors of its declared input model or returns a dictionary;
    given anything else it raises [TypeError]. *)
Lemma default_handler_cases env spec args w :
  In spec (get_default_tool_specs env) ->
  if is_dict args then
    match validation_errors env (input_model spec) args with
    | Some errors => handler spec args w = (Raise (ValidationError errors), w)
    | None => exists r w', handler spec args w = (Return r, w') /\ framed w w'
    end
  else
    handler spec args w
    = (Raise (Exception "TypeError" "argument after ** must be a mapping"), w).
Proof.
  intros Hin. cbn [get_default_tool_specs In] in Hin.
  destruct Hin as [<-|[<-|[<-|[<-|[<-|[<-|[]]]]]]];
    cbn [handler input_model validation_errors];
    unfold other_handler, read_memory_handler, write_memory_handler, construct;
    (destruct args as [| | | | | |kv|]; cbn [is_dict]; try done).
  1-4: destruct (validate_other env _ (JObj kv)) as [errors|input]; [done|];
       unfold_M; do 2 eexists; split; [done|by repeat split].
  - destruct (validate_read env (JObj kv)) as [errors|input]; [done|].
    destruct (read_memory_framed env input w) as [r Hr].
    exists r, w. unfold_M. split; [done|]. by repeat split.
  - destruct (validate_write env (JObj kv)) as [errors|input]; [done|].
    unfold_M. apply write_memory_framed.
Qed.

(* ================================================================== *)
(** ** Tool dispatch: [ToolRegistry.call] *)
(* ================================================================== *)

Lemma call_unknown (tools : gmap string ToolSpec) n args w :
  tools !! n = None ->
  call tools n args w = (Raise (Exception "KeyError" ("Unknown tool: " +:+ n)), w).
Proof. intros H. unfold call, get. unfold_M. by rewrite H. Qed.

Lemma call_known (tools : gmap string ToolSpec) n args w spec :
  tools !! n = Some spec ->
  call tools n args w
  = match handler spec args (set_trace w (trace w ++ [EvHandler n args])) with
    | (Return r, w') => (Return r, w')
    | (Raise (ValidationError errors), w') =>
        (Return (JObj [("error", JStr "validation_error"); ("details", errors)]), w')
    | (Raise (Exception _ msg), w') =>
        (Return (JObj [("error", JStr "runtime_error"); ("details", JStr msg)]), w')
    end.
Proof.
  intros H. unfold call, get. unfold_M. rewrite H.
  destruct (handler spec args _) as [[r|[errors|cls msg]] w']; reflexivity.
Qed.

(** C4.  Dispatch through a registry [tools]:
    - an unknown name raises the lookup error [KeyError];
    - for a known name the call never raises: a [ValidationError] of the
      handler becomes [{"error": "validation_error", "details": errors}],
      any other exception becomes
      [{"error": "runtime_error", "details": str(e)}], and a result of
      the handler is passed on unchanged;
    - in the shipped registry, an argument dictionary that fails the
      declared input model of the tool yields exactly the validation-error
      dictionary. *)
Theorem C4_call_contract (env : Env) (tools : gmap string ToolSpec)
    (n : string) (args : Json) (w : World) :
  (tools !! n = None ->
   call tools n args w = (Raise (Exception "KeyError" ("Unknown tool: " +:+ n)), w))
  /\ (forall spec, tools !! n = Some spec ->
      (exists r w', call tools n args w = (Return r, w'))
      /\ (forall errors w',
            handler spec args (set_trace w (trace w ++ [EvHandler n args]))
            = (Raise (ValidationError errors), w') ->
            call tools n args w
            = (Return (JObj [("error", JStr "validation_error");
                             ("details", errors)]), w'))
      /\ (forall cls msg w',
            handler spec args (set_trace w (trace w ++ [EvHandler n args]))
            = (Raise (Exception cls msg), w') ->
            call tools n args w
            = (Return (JObj [("error", JStr "runtime_error");
                             ("details", JStr msg)]), w'))
      /\ (forall r w',
            handler spec args (set_trace w (trace w ++ [EvHandler n args]))
            = (Return r, w') ->
            call tools n args w = (Return r, w')))
  /\ (forall spec errors,
        is_dict args = true ->
        registry env !! n = Some spec ->
        validation_errors env (input_model spec) args = Some errors ->
        call (registry env) n args w
        = (Return (JObj [("error", JStr "validation_error");
                         ("details", errors)]),
           set_trace w (trace w ++ [EvHandler n args]))).
Proof.
  split; [apply call_unknown|]. split.
  - intros spec Hspec. rewrite (call_known _ _ _ _ _ Hspec).
    destruct (handler spec args _) as [[r|[errors|cls msg]] w'] eqn:Hh.
    + split; [by eauto|]. repeat split; intros; congruence.
    + split; [by eauto|]. repeat split; intros; congruence.
    + split; [by eauto|]. repeat split; intros; congruence.
  - intros spec errors Hdict Hspec Hval. rewrite (call_known _ _ _ _ _ Hspec).
    apply registry_lookup in Hspec as [Hin _].
    pose proof (default_handler_cases env spec args
                  (set_trace w (trace w ++ [EvHandler n args])) Hin) as Hc.
    rewrite Hdict, Hval in Hc. by rewrite Hc.
Qed.

(** A call of a registered tool of the shipped registry returns, records
    exactly one handler invocation and leaves the confirmation channel
    alone. *)
Lemma call_registered env n args w :
  is_Some (registry env !! n) ->
  exists r w',
    call (registry env) n args w = (Return r, w')
    /\ trace w' = trace w ++ [EvHandler n args]
    /\ resumes w' = resumes w
    /\ store_error w' = store_error w.
Proof.
  intros [spec Hspec]. rewrite (call_known _ _ _ _ _ Hspec).
  apply registry_lookup in Hspec as [Hin _].
  pose proof (default_handler_cases env spec args
                (set_trace w (trace w ++ [EvHandler n args])) Hin) as Hc.
  destruct (is_dict args);
    [destruct (validation_errors env (input_model spec) args) as [errors|]|].
  - rewrite Hc. by eauto 10.
  - destruct Hc as (r & w' & -> & Ht & Hr & Hs). by eauto 10.
  - rewrite Hc. by eauto 10.
Qed.

(* ================================================================== *)
(** ** Results that can be serialised *)
(* ================================================================== *)

Lemma serializable_details k1 s k2 v :
  serializable (JObj [(k1, JStr s); (k2, v)]) = serializable v.
Proof. unfold serializable. cbn. by destruct (first_object v). Qed.

Lemma result_of_serializable e : first_object (result_of e) = None.
Proof. unfold result_of. cbn. by destruct (md_tags (e_metadata e)). Qed.

Lemma read_result_serializable found : serializable (read_result found) = true.
Proof.
  assert (first_object (JList (map result_of found)) = None) as Hl.
  { induction found as [|e found IH]; [done|].
    cbn [map first_object]. rewrite result_of_serializable. exact IH. }
  unfold serializable. destruct found as [|e found]; [done|].
  unfold read_result. cbn [first_object]. cbn [first_object] in Hl.
  by rewrite Hl.
Qed.

Lemma read_memory_serializable env input w r w' :
  read_memory env input w = (Return r, w') -> serializable r = true.
Proof.
  destruct (store_error w) as [msg|] eqn:Hs.
  - rewrite (read_memory_unavailable _ _ _ _ Hs). by intros [= <- _].
  - rewrite read_memory_available by done. intros [= <- _].
    apply read_result_serializable.
Qed.

Lemma write_memory_serializable env input w r w' :
  write_memory env input w = (Return r, w') -> serializable r = true.
Proof.
  destruct (store_error w) as [msg|] eqn:Hs.
  - rewrite (write_memory_unavailable _ _ _ _ Hs). by intros [= <- _].
  - destruct (str_in (new_memory_id env w) (map e_id (mem w))) eqn:Hf.
    + rewrite write_memory_present by done. by intros [= <- _].
    + rewrite write_memory_fresh by done. by intros [= <- _].
Qed.

(** The result of a dispatched call can be serialised when the validation
    errors of its arguments, if any, and the result of the tool body hold
    JSON data only.  The dictionaries built by the registry and by the
    memory tools themselves always do. *)
Lemma call_serializes env n args :
  (forall spec errors,
     registry env !! n = Some spec ->
     validation_errors env (input_model spec) args = Some errors ->
     serializable errors = true) ->
  (forall input k, serializable (other_tool env n input k) = true) ->
  serializes env n args.
Proof.
  intros Herr Hbody w result w'.
  destruct (registry env !! n) as [spec|] eqn:Hspec;
    [|by rewrite call_unknown].
  rewrite (call_known _ _ _ _ _ Hspec).
  specialize (Herr spec). pose proof (registry_lookup _ _ _ Hspec) as [Hin Hn].
  set (w0 := set_trace w _). clearbody w0.
  cbn [get_default_tool_specs In] in Hin.
  destruct Hin as [<-|[<-|[<-|[<-|[<-|[<-|[]]]]]]];
    cbn [handler input_model validation_errors name] in *; subst n;
    unfold other_handler, read_memory_handler, write_memory_handler, construct;
    (destruct args as [| | | | | |kv|];
     try (unfold_M; cbv beta iota; by intros [= <- _])).
  1-4: destruct (validate_other env _ (JObj kv)) as [errors|input];
       unfold_M; cbv beta iota; intros [= <- _];
       [rewrite serializable_details; by apply Herr|apply Hbody].
  - destruct (validate_read env (JObj kv)) as [errors|input].
    + unfold_M. cbv beta iota. intros [= <- _].
      rewrite serializable_details. by apply Herr.
    + unfold bind at 1. unfold ret at 1.
      destruct (read_memory_framed env input w0) as [r Hr].
      rewrite Hr. intros [= <- _]. by eapply read_memory_serializable.
  - destruct (validate_write env (JObj kv)) as [errors|input].
    + unfold_M. cbv beta iota. intros [= <- _].
      rewrite serializable_details. by apply Herr.
    + unfold bind at 1. unfold ret at 1.
      destruct (write_memory_framed env input w0) as (r & w1 & Hr & _).
      rewrite Hr. intros [= <- _]. by eapply write_memory_serializable.
Qed.

(** In the environments of [Fixtures] every result can be serialised. *)
Lemma fixtures_serialize reasoning judgment time dice n args :
  serializes (Fixtures.make_env reasoning judgment time dice) n args.
Proof.
  apply call_serializes; [|done].
  intros spec errors Hspec. apply registry_lookup in Hspec as [Hin _].
  cbn [get_default_tool_specs In] in Hin.
  destruct Hin as [<-|[<-|[<-|[<-|[<-|[<-|[]]]]]]];
    cbn [input_model validation_errors Fixtures.make_env validate_read
         validate_write validate_other]; try done.
  - unfold Fixtures.validate_r.
    repeat case_match; intros ?; simplify_eq; reflexivity.
  - unfold Fixtures.validate_w.
    repeat case_match; intros ?; simplify_eq; reflexivity.
Qed.

(* ================================================================== *)
(** ** The tool node: confirmation of risky calls *)
(* ================================================================== *)

Lemma dangerous_registered env n :
  str_in n DANGEROUS_TOOLS = true -> is_Some (registry env !! n).
Proof.
  intros H. apply str_in_true in H. unfold DANGEROUS_TOOLS in H.
  apply elem_of_cons in H as [->|H].
  { rewrite registry_google_search. by eexists. }
  apply elem_of_cons in H as [->|H].
  { rewrite registry_write_memory. by eexists. }
  by apply elem_of_nil in H.
Qed.

Lemma dumps_ok env b v w :
  serializable v = true ->
  dumps env b v w = (Return (json_dumps env b v), w).
Proof. unfold serializable, dumps. by destruct (first_object v). Qed.

Lemma dumps_cases env b v w :
  (serializable v = true
   /\ dumps env b v w = (Return (json_dumps env b v), w))
  \/ (serializable v = false
      /\ exists msg, dumps env b v w = (Raise (Exception "TypeError" msg), w)).
Proof.
  unfold serializable, dumps. destruct (first_object v) as [t|].
  - right. split; [done|]. by eexists.
  - by left.
Qed.

Lemma dumps_world {env b v w o w'} : dumps env b v w = (o, w') -> w' = w.
Proof.
  unfold dumps. destruct (first_object v); unfold_M; by intros [= _ <-].
Qed.

Lemma dumps_cancelled env w :
  dumps env true cancelled w = (Return (json_dumps env true cancelled), w).
Proof. reflexivity. Qed.

Lemma tool_loop_cancel env tc rest acc w token tokens :
  str_in (tc_name tc) DANGEROUS_TOOLS = true ->
  resumes w = token :: tokens ->
  token <> "y" ->
  tool_loop env (tc :: rest) acc w
  = tool_loop env rest
      (acc ++ [MsgTool (tc_id tc) (json_dumps env true cancelled)])
      (set_resumes w tokens).
Proof.
  intros Hd Hr Hne. cbn [tool_loop]. rewrite Hd. unfold interrupt.
  unfold bind at 1. rewrite Hr. apply String.eqb_neq in Hne. rewrite Hne.
  cbn [negb]. unfold bind. by rewrite dumps_cancelled.
Qed.

Lemma tool_loop_approve env tc rest acc w tokens :
  str_in (tc_name tc) DANGEROUS_TOOLS = true ->
  resumes w = "y" :: tokens ->
  tool_loop env (tc :: rest) acc w
  = (tool_messages' <- execute env tc acc ;; tool_loop env rest tool_messages')
      (set_resumes w tokens).
Proof.
  intros Hd Hr. cbn [tool_loop]. rewrite Hd. unfold interrupt.
  unfold bind at 1. by rewrite Hr.
Qed.

Lemma tool_loop_safe env tc rest acc w :
  str_in (tc_name tc) DANGEROUS_TOOLS = false ->
  tool_loop env (tc :: rest) acc w
  = (tool_messages' <- execute env tc acc ;; tool_loop env rest tool_messages') w.
Proof. intros Hd. cbn [tool_loop]. by rewrite Hd. Qed.

Lemma tool_loop_no_token env tc rest acc w :
  str_in (tc_name tc) DANGEROUS_TOOLS = true ->
  resumes w = [] ->
  tool_loop env (tc :: rest) acc w
  = (Raise (Exception "GraphInterrupt" (confirm_prompt env tc)), w).
Proof.
  intros Hd Hr. cbn [tool_loop]. rewrite Hd. unfold interrupt.
  unfold bind at 1. by rewrite Hr.
Qed.

(** Running a registered tool whose result can be serialised appends the
    message with the serialised result. *)
Lemma execute_registered env tc acc w :
  is_Some (registry env !! tc_name tc) ->
  serializes env (tc_name tc) (tc_arguments tc) ->
  exists result w',
    call (registry env) (tc_name tc) (tc_arguments tc) w = (Return result, w')
    /\ execute env tc acc w
       = (Return (acc ++ [MsgTool (tc_id tc) (json_dumps env false result)]), w')
    /\ trace w' = trace w ++ [EvHandler (tc_name tc) (tc_arguments tc)]
    /\ resumes w' = resumes w.
Proof.
  intros Hreg Hser.
  destruct (call_registered env _ (tc_arguments tc) w Hreg)
    as (r & w' & Hc & Ht & Hr & _).
  exists r, w'. split; [done|]. split; [|done].
  unfold execute. unfold bind at 1. rewrite Hc.
  unfold bind. rewrite dumps_ok by (by eapply Hser). done.
Qed.

(** The calls of a queue whose tools are registered and whose results can
    be serialised. *)
Lemma tool_loop_messages env tcs : forall acc w,
  Forall (fun tc => is_Some (registry env !! tc_name tc)) tcs ->
  Forall (fun tc => serializes env (tc_name tc) (tc_arguments tc)) tcs ->
  (risky_count tcs <= length (resumes w))%nat ->
  exists msgs w',
    tool_loop env tcs acc w = (Return (acc ++ msgs), w')
    /\ map msg_tool_call_id msgs = map (fun tc => Some (tc_id tc)) tcs.
Proof.
  induction tcs as [|tc rest IH]; intros acc w Hreg Hser Hres.
  - exists [], w. simpl. by rewrite app_nil_r.
  - apply Forall_cons in Hreg as [Hr Hreg].
    apply Forall_cons in Hser as [Hs Hser].
    unfold risky_count in Hres. rewrite filter_cons in Hres.
    destruct (str_in (tc_name tc) DANGEROUS_TOOLS) eqn:Hd.
    + rewrite decide_True in Hres by done. cbn [length] in Hres.
      destruct (resumes w) as [|token tokens] eqn:Hw; cbn [length] in Hres; [lia|].
      destruct (decide (token = "y")) as [->|Hne].
      * rewrite (tool_loop_approve _ _ _ _ _ tokens) by done.
        destruct (execute_registered env tc acc (set_resumes w tokens) Hr Hs)
          as (r & w1 & _ & He & _ & Hr1).
        unfold bind. rewrite He.
        destruct (IH (acc ++ [MsgTool (tc_id tc) (json_dumps env false r)]) w1
                    Hreg Hser)
          as (msgs & w' & Hl & Hm).
        { rewrite Hr1. simpl_world. unfold risky_count. lia. }
        exists (MsgTool (tc_id tc) (json_dumps env false r) :: msgs), w'.
        rewrite Hl, <- app_assoc. simpl. by rewrite Hm.
      * rewrite (tool_loop_cancel _ _ _ _ _ token tokens) by done.
        destruct (IH (acc ++ [MsgTool (tc_id tc) (json_dumps env true cancelled)])
                    (set_resumes w tokens) Hreg Hser)
          as (msgs & w' & Hl & Hm).
        { simpl_world. unfold risky_count. lia. }
        exists (MsgTool (tc_id tc) (json_dumps env true cancelled) :: msgs), w'.
        rewrite Hl, <- app_assoc. simpl. by rewrite Hm.
    + rewrite decide_False in Hres by done.
      rewrite tool_loop_safe by done.
      destruct (execute_registered env tc acc w Hr Hs)
        as (r & w1 & _ & He & _ & Hr1).
      unfold bind. rewrite He.
      destruct (IH (acc ++ [MsgTool (tc_id tc) (json_dumps env false r)]) w1
                  Hreg Hser)
        as (msgs & w' & Hl & Hm).
      { rewrite Hr1. unfold risky_count. lia. }
      exists (MsgTool (tc_id tc) (json_dumps env false r) :: msgs), w'.
      rewrite Hl, <- app_assoc. simpl. by rewrite Hm.
Qed.

(** With fewer resume values than risky calls, the loop is suspended at a
    risky call after handing back all values. *)
Lemma tool_loop_suspends env tcs : forall acc w,
  Forall (fun tc => is_Some (registry env !! tc_name tc)) tcs ->
  Forall (fun tc => serializes env (tc_name tc) (tc_arguments tc)) tcs ->
  (length (resumes w) < risky_count tcs)%nat ->
  exists tc w',
    tc ∈ tcs
    /\ str_in (tc_name tc) DANGEROUS_TOOLS = true
    /\ tool_loop env tcs acc w
       = (Raise (Exception "GraphInterrupt" (confirm_prompt env tc)), w')
    /\ resumes w' = [].
Proof.
  induction tcs as [|tc rest IH]; intros acc w Hreg Hser Hres.
  - unfold risky_count in Hres. simpl in Hres. lia.
  - apply Forall_cons in Hreg as [Hr Hreg].
    apply Forall_cons in Hser as [Hs Hser].
    unfold risky_count in Hres. rewrite filter_cons in Hres.
    destruct (str_in (tc_name tc) DANGEROUS_TOOLS) eqn:Hd.
    + rewrite decide_True in Hres by done. cbn [length] in Hres.
      destruct (resumes w) as [|token tokens] eqn:Hw.
      * exists tc, w. split; [left|]. split; [done|]. split; [|done].
        by apply tool_loop_no_token.
      * cbn [length] in Hres.
        destruct (decide (token = "y")) as [->|Hne].
        -- rewrite (tool_loop_approve _ _ _ _ _ tokens) by done.
           destruct (execute_registered env tc acc (set_resumes w tokens) Hr Hs)
             as (r & w1 & _ & He & _ & Hr1).
           unfold bind. rewrite He.
           destruct (IH (acc ++ [MsgTool (tc_id tc) (json_dumps env false r)])
                       w1 Hreg Hser) as (tc' & w' & Hin & H).
           { rewrite Hr1. simpl_world. unfold risky_count. lia. }
           exists tc', w'. split; [by right|done].
        -- rewrite (tool_loop_cancel _ _ _ _ _ token tokens) by done.
           destruct (IH (acc ++ [MsgTool (tc_id tc) (json_dumps env true cancelled)])
                       (set_resumes w tokens) Hreg Hser) as (tc' & w' & Hin & H).
           { simpl_world. unfold risky_count. lia. }
           exists tc', w'. split; [by right|done].
    + rewrite decide_False in Hres by done.
      rewrite tool_loop_safe by done.
      destruct (execute_registered env tc acc w Hr Hs)
        as (r & w1 & _ & He & _ & Hr1).
      unfold bind. rewrite He.
      destruct (IH (acc ++ [MsgTool (tc_id tc) (json_dumps env false r)])
                  w1 Hreg Hser) as (tc' & w' & Hin & H).
      { rewrite Hr1. unfold risky_count. lia. }
      exists tc', w'. split; [by right|done].
Qed.

(* ================================================================== *)
(** ** The tool node under the resume protocol *)
(* ================================================================== *)

Import RunLanggraph.

(** An activation that has a resume value for every risky call returns
    one message per queued call. *)
Lemma activate_returns env given state w :
  Forall (fun tc => is_Some (registry env !! tc_name tc)) (queued state) ->
  Forall (fun tc => serializes env (tc_name tc) (tc_arguments tc))
    (queued state) ->
  (risky_count (queued state) <= length given)%nat ->
  exists msgs w',
    activate env given state w
    = (Return {| messages := msgs; tool_calls := None |}, w')
    /\ map msg_tool_call_id msgs = map (fun tc => Some (tc_id tc)) (queued state).
Proof.
  intros Hreg Hser Hres. unfold activate, tool_node, queued in *.
  destruct (tool_calls state) as [[|tc rest]|]; cbn [default] in *.
  - by eexists [], _.
  - destruct (tool_loop_messages env (tc :: rest) [] (set_resumes w given)
                Hreg Hser Hres)
      as (msgs & w' & Hl & Hm).
    change ([] ++ msgs) with msgs in Hl.
    exists msgs, w'. unfold bind. by rewrite Hl.
  - by eexists [], _.
Qed.

(** An activation with fewer resume values than risky calls is suspended. *)
Lemma activate_suspends env given state w :
  Forall (fun tc => is_Some (registry env !! tc_name tc)) (queued state) ->
  Forall (fun tc => serializes env (tc_name tc) (tc_arguments tc))
    (queued state) ->
  (length given < risky_count (queued state))%nat ->
  exists tc w',
    tc ∈ queued state
    /\ str_in (tc_name tc) DANGEROUS_TOOLS = true
    /\ activate env given state w
       = (Raise (Exception "GraphInterrupt" (confirm_prompt env tc)), w').
Proof.
  intros Hreg Hser Hres. unfold activate, tool_node, queued in *.
  destruct (tool_calls state) as [[|tc0 rest]|]; cbn [default] in *.
  - unfold risky_count in Hres. simpl in Hres. lia.
  - destruct (tool_loop_suspends env (tc0 :: rest) [] (set_resumes w given)
                Hreg Hser Hres)
      as (tc & w' & Hin & Hd & Hl & _).
    exists tc, w'. split; [done|]. split; [done|].
    unfold bind. by rewrite Hl.
  - unfold risky_count in Hres. simpl in Hres. lia.
Qed.

Lemma resume_returns env state : forall answers given w,
  Forall (fun tc => is_Some (registry env !! tc_name tc)) (queued state) ->
  Forall (fun tc => serializes env (tc_name tc) (tc_arguments tc))
    (queued state) ->
  (risky_count (queued state) <= length given + length answers)%nat ->
  exists msgs w',
    resume env answers given state w
    = (Return {| messages := msgs; tool_calls := None |}, w')
    /\ map msg_tool_call_id msgs = map (fun tc => Some (tc_id tc)) (queued state).
Proof.
  induction answers as [|approval answers IH]; intros given w Hreg Hser Hres.
  - destruct (activate_returns env given state w Hreg Hser)
      as (msgs & w' & Ha & Hm); [cbn [length] in Hres; lia|].
    exists msgs, w'. cbn [resume]. by rewrite Ha.
  - destruct (le_lt_dec (risky_count (queued state)) (length given)) as [Hle|Hlt].
    + destruct (activate_returns env given state w Hreg Hser Hle)
        as (msgs & w' & Ha & Hm).
      exists msgs, w'. cbn [resume]. by rewrite Ha.
    + destruct (activate_suspends env given state w Hreg Hser Hlt)
        as (tc & w1 & _ & _ & Ha).
      cbn [resume]. rewrite Ha. cbn [String.eqb Ascii.eqb Bool.eqb].
      apply IH; [done|done|].
      rewrite length_app. cbn [length] in *. lia.
Qed.

(** C2 (amended: every queued call names a registered tool and yields a
    result that can be serialised, and there is an answer for every risky
    call).  The turn of the tool node ends with the node returning exactly
    one tool message per queued call, the i-th message keyed by the id of
    the i-th call, whether the call was run or cancelled. *)
Theorem C2_one_result_per_call (env : Env) (state : AgentState) (w : World)
    (answers : list string) :
  Forall (fun tc => is_Some (registry env !! tc_name tc)) (queued state) ->
  Forall (fun tc => serializes env (tc_name tc) (tc_arguments tc))
    (queued state) ->
  (risky_count (queued state) <= length answers)%nat ->
  exists msgs w',
    tool_turn env answers state w
    = (Return {| messages := msgs; tool_calls := None |}, w')
    /\ length msgs = length (queued state)
    /\ map msg_tool_call_id msgs = map (fun tc => Some (tc_id tc)) (queued state).
Proof.
  intros Hreg Hser Hres. unfold tool_turn.
  destruct (resume_returns env state answers [] w Hreg Hser)
    as (msgs & w' & Hr & Hm); [cbn [length]; lia|].
  exists msgs, w'. split; [done|]. split; [|done].
  apply (f_equal length) in Hm. by rewrite !length_map in Hm.
Qed.

(* ================================================================== *)
(** ** Reading the memory store *)
(* ================================================================== *)

Lemma nearest_elem env q n f l e :
  e ∈ Collection.nearest env q n f l ->
  e ∈ l /\ Collection.matches f e = true.
Proof.
  unfold Collection.nearest. intros H.
  apply (subseteq_take (Z.to_nat n)) in H.
  rewrite sort_by_perm in H.
  apply list_elem_of_filter in H as [H1 H2]. done.
Qed.

Lemma nearest_length env q n f l :
  (length (Collection.nearest env q n f l) <= Z.to_nat n)%nat.
Proof. unfold Collection.nearest. rewrite length_take. lia. Qed.

Lemma results_of_read_result found :
  results_of (read_result found) = map result_of found.
Proof. by destruct found. Qed.

Lemma result_of_memory_type e :
  field "memory_type" (result_of e)
  = Some (JStr (default "unknown" (md_memory_type (e_metadata e)))).
Proof. reflexivity. Qed.

Lemma result_of_tags e :
  field "tags" (result_of e)
  = Some (match md_tags (e_metadata e) with
          | Some s => JStr s
          | None => JList []
          end).
Proof. reflexivity. Qed.

(** C5.  With a filter other than "all", [read_memory] returns a
    dictionary and never raises; each of its results stems from a stored
    record whose [memory_type] is the filter, and reports that type; there
    are at most [top_k] results; and when the store is available and no
    record matches, the result is the dictionary with the empty result list
    and a message, which has no ["error"] key. *)
Theorem C5_read_respects_filter (env : Env) (input : ReadMemoryInput) (w : World) :
  rm_memory_type input <> "all" ->
  exists r,
    read_memory env input w = (Return r, w)
    /\ (forall rec, rec ∈ results_of r ->
          exists e, e ∈ mem w /\ rec = result_of e
            /\ md_memory_type (e_metadata e) = Some (rm_memory_type input)
            /\ field "memory_type" rec = Some (JStr (rm_memory_type input)))
    /\ (length (results_of r) <= Z.to_nat (rm_top_k input))%nat
    /\ (store_error w = None ->
        filter (fun e => Collection.matches (where_filter_of input) e = true) (mem w) = [] ->
        r = JObj [("results", JList []);
                  ("message", JStr "관련 기억을 찾지 못했습니다.")]
        /\ field "error" r = None).
Proof.
  intros Hne.
  assert (where_filter_of input = Some (rm_memory_type input)) as Hwf.
  { unfold where_filter_of. apply String.eqb_neq in Hne. by rewrite Hne. }
  destruct (store_error w) as [msg|] eqn:Hs.
  - exists (JObj [("error", JStr msg)]).
    split; [by apply read_memory_unavailable|].
    split; [intros rec Hrec; by apply elem_of_nil in Hrec|].
    split; [simpl; lia|done].
  - exists (read_result (hits env input (mem w))).
    split; [by apply read_memory_available|].
    rewrite results_of_read_result. split; [|split].
    + intros rec Hrec. change map with (@fmap list _) in Hrec.
      apply list_elem_of_fmap in Hrec as (e & -> & He).
      apply nearest_elem in He as [He Hm]. exists e.
      rewrite Hwf in Hm. simpl in Hm.
      destruct (md_memory_type (e_metadata e)) as [t|] eqn:Ht; [|done].
      apply String.eqb_eq in Hm. subst t.
      split; [done|]. split; [done|]. split; [done|].
      by rewrite result_of_memory_type, Ht.
    + rewrite length_map. apply nearest_length.
    + intros _ Hempty. unfold hits, Collection.nearest. rewrite Hempty.
      unfold sort_by. cbn [foldr]. by rewrite take_nil.
Qed.

(** C3, witness: a store of three records bounded to two; the record with
    importance 1 and the older creation time goes. *)
Lemma C3_witness :
  exists w',
    cleanup_memories 2 (Fixtures.world_of Fixtures.three []) = (Return tt, w')
    /\ map e_id (mem w') = ["mem_1"; "mem_2"]
    /\ Z.of_nat (length (mem w')) = 2.
Proof.
  destruct (C3_cleanup_evicts_smallest_keys
              (Fixtures.world_of Fixtures.three []) 2)
    as (w' & H1 & _ & H2 & _ & _ & _ & H3 & _).
  - reflexivity.
  - apply (bool_decide_unpack _). vm_compute. exact I.
  - lia.
  - exists w'. split; [exact H1|]. split; [|exact H3].
    rewrite H2. vm_compute. reflexivity.
Defined.

(** C3, counterexample to the claim as stated: with [max_count = -1] on a
    store of three records the code deletes all three records, not
    [size - max_count = 4], and the resulting size [0] is not
    [min 3 (-1)]. *)
Lemma C3_counterexample_negative_max_count :
  exists w',
    cleanup_memories (-1) (Fixtures.world_of Fixtures.three []) = (Return tt, w')
    /\ length (mem (Fixtures.world_of Fixtures.three [])) = 3%nat
    /\ mem w' = []
    /\ Z.of_nat 3 - Z.of_nat (length (mem w')) <> Z.of_nat 3 - (-1)
    /\ Z.of_nat (length (mem w')) <> Z.min (Z.of_nat 3) (-1).
Proof.
  eexists. split; [vm_compute; reflexivity|]. simpl. repeat split; lia.
Qed.

(** C2, witness: one safe and one risky call, the latter approved. *)
Lemma C2_witness :
  let state := {| messages := [];
                  tool_calls := Some [ {| tc_id := "a"; tc_name := "calculate";
                                          tc_arguments := JObj [] |};
                                       {| tc_id := "b"; tc_name := "google_search";
                                          tc_arguments := JObj [] |} ] |} in
  exists msgs w',
    tool_turn Fixtures.env0 ["y"] state (Fixtures.world_of [] [])
    = (Return {| messages := msgs; tool_calls := None |}, w')
    /\ map msg_tool_call_id msgs = [Some "a"; Some "b"].
Proof.
  intros state.
  destruct (C2_one_result_per_call Fixtures.env0 state (Fixtures.world_of [] [])
              ["y"])
    as (msgs & w' & H1 & _ & H2).
  - repeat constructor; by eexists.
  - repeat constructor; apply fixtures_serialize.
  - vm_compute. lia.
  - exists msgs, w'. split; [exact H1|exact H2].
Defined.

(** C2, counterexample to the claim as stated: a queued call that names
    no registered tool makes the node raise [KeyError]; no message is
    produced for the one queued call. *)
Lemma C2_counterexample_unknown_tool :
  tool_turn Fixtures.env0 []
    {| messages := [];
       tool_calls := Some [ {| tc_id := "call_1"; tc_name := "no_such_tool";
                               tc_arguments := JObj [] |} ] |}
    (Fixtures.world_of [] [])
  = (Raise (Exception "KeyError" "Unknown tool: no_such_tool"),
     Fixtures.world_of [] []).
Proof. reflexivity. Qed.

(** C5, witness: reading with the filter "profile". *)
Lemma C5_witness :
  exists r,
    read_memory Fixtures.env0
      {| rm_query := "language"; rm_memory_type := "profile"; rm_top_k := 5 |}
      (Fixtures.world_of Fixtures.three [])
    = (Return r, Fixtures.world_of Fixtures.three [])
    /\ (length (results_of r) <= 5)%nat.
Proof.
  destruct (C5_read_respects_filter Fixtures.env0
              {| rm_query := "language"; rm_memory_type := "profile"; rm_top_k := 5 |}
              (Fixtures.world_of Fixtures.three []))
    as (r & H1 & _ & H2 & _).
  - discriminate.
  - exists r. split; [exact H1|exact H2].
Defined.

(* ================================================================== *)
(** ** Writing to the memory store *)
(* ================================================================== *)

(** C9.  Two invocations of [write_memory] whose wall-clock readings
    render alike: the first saves its record under a fresh id; the second
    reports "saved" under the same id, so the id is neither unique nor
    greater than the earlier one, and its record is not persisted, the
    store ignoring an [add] under an id it holds. *)
Theorem C9_same_reading_same_id (env : Env) (first second : WriteMemoryInput)
    (w w1 : World) (r1 : Json) :
  store_error w = None ->
  str_in (new_memory_id env w) (map e_id (mem w)) = false ->
  write_memory env first w = (Return r1, w1) ->
  timestamp_str env (clock env (ticks w1))
  = timestamp_str env (clock env (ticks w)) ->
  exists r2 w2,
    write_memory env second w1 = (Return r2, w2)
    /\ field "status" r2 = Some (JStr "saved")
    /\ field "content" r2 = Some (JStr (wm_content second))
    /\ field "memory_id" r1 = Some (JStr (new_memory_id env w))
    /\ field "memory_id" r2 = field "memory_id" r1
    /\ map e_document (mem w1) = map e_document (mem w) ++ [wm_content first]
    /\ mem w2 = mem w1.
Proof.
  intros Hs Hfresh Hw Heq.
  rewrite write_memory_fresh in Hw by done. injection Hw as <- <-.
  set (w1 := {| mem := _; store_error := _; ticks := _; resumes := _;
                trace := _ |}) in *.
  assert (new_memory_id env w1 = new_memory_id env w) as Hid.
  { unfold new_memory_id. by rewrite Heq. }
  exists (saved env second w1), (set_ticks w1 (S (S (ticks w1)))).
  split.
  - apply write_memory_present; [done|].
    apply str_in_true. rewrite Hid. unfold w1. simpl_world.
    rewrite map_app. apply elem_of_app. right. by apply list_elem_of_singleton.
  - split; [done|]. split; [done|]. split; [done|].
    split; [unfold saved; cbn [field jget String.eqb Ascii.eqb Bool.eqb];
            by rewrite Hid|].
    split; [|done]. unfold w1. simpl_world. by rewrite map_app.
Qed.

(** C9, at concrete values: the wall clock yields the same reading twice. *)
Lemma C9_witness :
  exists r1 w1 r2 w2,
    write_memory Fixtures.env_frozen Fixtures.likes_python
      (Fixtures.world_of [] []) = (Return r1, w1)
    /\ write_memory Fixtures.env_frozen Fixtures.uses_torch w1 = (Return r2, w2)
    /\ field "status" r2 = Some (JStr "saved")
    /\ field "memory_id" r1 = Some (JStr "mem_1700000000.250000")
    /\ field "memory_id" r2 = Some (JStr "mem_1700000000.250000")
    /\ map e_document (mem w2) = ["preferred language: Python"].
Proof.
  destruct (write_memory Fixtures.env_frozen Fixtures.likes_python
              (Fixtures.world_of [] [])) as [[r1|e] w1] eqn:Hw;
    [|vm_compute in Hw; discriminate].
  destruct (C9_same_reading_same_id Fixtures.env_frozen Fixtures.likes_python
              Fixtures.uses_torch (Fixtures.world_of [] []) w1 r1)
    as (r2 & w2 & H1 & H2 & _ & H4 & H5 & H6 & H7);
    [reflexivity|reflexivity|exact Hw|reflexivity|].
  exists r1, w1, r2, w2. split; [reflexivity|]. split; [exact H1|].
  split; [exact H2|]. split; [exact H4|]. split; [by rewrite H5|].
  rewrite H7, H6. reflexivity.
Defined.

(* ================================================================== *)
(** ** Tags through the store *)
(* ================================================================== *)

Lemma read_results_stem env input w rec :
  rec ∈ results_in (fst (read_memory env input w)) ->
  exists e, e ∈ mem w /\ rec = result_of e.
Proof.
  destruct (store_error w) as [msg|] eqn:Hs.
  - rewrite (read_memory_unavailable _ _ _ msg) by done. simpl.
    intros H. by apply elem_of_nil in H.
  - rewrite read_memory_available by done. simpl.
    rewrite results_of_read_result. intros H.
    change map with (@fmap list _) in H.
    apply list_elem_of_fmap in H as (e & -> & He).
    apply nearest_elem in He as [He _]. by exists e.
Qed.

(** C10.  A record written by [write_memory] with the tag list [ts]
    stores the single string [",".join(ts)] as its tags.  Every result of
    [read_memory] is built from a stored record; a later read that finds
    the written record reports its ["tags"] as that string; and a result
    reports the list default [[]] exactly when the metadata of its record
    has no tags entry. *)
Theorem C10_tags_are_stored_joined (env : Env) (input : WriteMemoryInput)
    (w : World) :
  store_error w = None ->
  str_in (new_memory_id env w) (map e_id (mem w)) = false ->
  exists r w' e,
    write_memory env input w = (Return r, w')
    /\ mem w' = mem w ++ [e]
    /\ e_id e = new_memory_id env w
    /\ md_tags (e_metadata e) = Some (String.concat "," (wm_tags input))
    /\ (forall query v rec,
          rec ∈ results_in (fst (read_memory env query v)) ->
          exists x, x ∈ mem v /\ rec = result_of x)
    /\ (forall query v,
          store_error v = None ->
          e ∈ hits env query (mem v) ->
          result_of e ∈ results_in (fst (read_memory env query v))
          /\ field "tags" (result_of e)
             = Some (JStr (String.concat "," (wm_tags input))))
    /\ (forall x,
          field "tags" (result_of x) = Some (JList [])
          <-> md_tags (e_metadata x) = None).
Proof.
  intros Hs Hfresh.
  eexists (saved env input w), _, (new_entry env input w).
  split; [by apply write_memory_fresh|].
  split; [done|]. split; [done|]. split; [done|].
  split; [intros query v rec; apply read_results_stem|].
  split.
  - intros query v Hv He. split; [|done].
    rewrite read_memory_available by done. simpl.
    rewrite results_of_read_result.
    change map with (@fmap list _). by apply list_elem_of_fmap_2.
  - intros x. rewrite result_of_tags.
    destruct (md_tags (e_metadata x)); split; congruence.
Qed.

(** C10, witness: the tags ["lang_pref"; "python"] come back as one string. *)
Lemma C10_witness :
  exists r w' e,
    write_memory Fixtures.env0 Fixtures.likes_python (Fixtures.world_of [] [])
    = (Return r, w')
    /\ mem w' = [e]
    /\ md_tags (e_metadata e) = Some "lang_pref,python"
    /\ field "tags" (result_of e) = Some (JStr "lang_pref,python").
Proof.
  destruct (C10_tags_are_stored_joined Fixtures.env0 Fixtures.likes_python
              (Fixtures.world_of [] []))
    as (r & w' & e & H1 & H2 & _ & H3 & _ & _ & _); [reflexivity|reflexivity|].
  exists r, w', e. split; [exact H1|]. split; [exact H2|].
  split; [exact H3|]. rewrite result_of_tags, H3. reflexivity.
Defined.

(* ================================================================== *)
(** ** Reflection *)
(* ================================================================== *)

Lemma bind_inv {A B} (m : M A) (k : A -> M B) w o w' :
  bind m k w = (o, w') ->
  (exists a w1, m w = (Return a, w1) /\ k a w1 = (o, w'))
  \/ (exists e, m w = (Raise e, w') /\ o = Raise e).
Proof.
  unfold bind. destruct (m w) as [[a|e] w1]; intros H.
  - left. by eauto.
  - right. exists e. by simplify_eq.
Qed.

Lemma responses_app a b : responses (a ++ b) = responses a ++ responses b.
Proof.
  induction a as [|[] a IH]; simpl; [done|by rewrite IH|done|done].
Qed.

Lemma reflections_app a b :
  reflections (a ++ b) = reflections a ++ reflections b.
Proof.
  induction a as [|[] a IH]; simpl; [done|done|done|by rewrite IH].
Qed.

Lemma quiet_refl w : quiet w w.
Proof. by repeat split. Qed.

Lemma quiet_trans w1 w2 w3 : quiet w1 w2 -> quiet w2 w3 -> quiet w1 w3.
Proof.
  intros (A1 & A2 & A3) (B1 & B2 & B3). repeat split; congruence.
Qed.

Lemma call_quiet env n args w o w' :
  call (registry env) n args w = (o, w') -> quiet w w'.
Proof.
  destruct (registry env !! n) as [spec|] eqn:Hl.
  - destruct (call_registered env n args w) as (r & w1 & Hc & Ht & _ & Hs);
      [by eexists|].
    rewrite Hc. intros ?; simplify_eq. repeat split; [| |done].
    + by rewrite Ht, responses_app, app_nil_r.
    + by rewrite Ht, reflections_app, app_nil_r.
  - rewrite call_unknown by done. intros ?; simplify_eq. apply quiet_refl.
Qed.

Lemma ask_judge_eq env question answer w :
  ask_judge env question answer w
  = (Return (judge env (ticks w) (snippet question answer)),
     asked question answer w).
Proof. reflexivity. Qed.

Lemma act_on_skip env decision w :
  match decision with
  | JObj kv => truthy (jget "should_write" kv) = false
  | _ => True
  end ->
  exists o, act_on env decision w = (o, w).
Proof.
  destruct decision as [| | | | | |kv|]; intros H; try by eexists.
  simpl. rewrite H. by eexists.
Qed.

(** Without a decision that asks for a write, everything after the
    judgment call leaves the world as it is. *)
Lemma decide_skip env content w :
  wants_write env content = false ->
  exists o, (decision <- load_decision env content ;; act_on env decision) w = (o, w).
Proof.
  unfold wants_write, decision_of, load_decision. intros H. unfold_M.
  destruct content as [text|]; [|by eexists].
  destruct (json_loads env text) as [decision|]; [|by eexists].
  apply act_on_skip. by destruct decision.
Qed.

(** The copy in [memory.py] satisfies the claim: it never raises, and
    unless the reply is a decision that asks for a write it leaves the
    store untouched. *)
Lemma memory_py_reflection_skips env question answer w :
  exists w',
    Memory.extract_and_save_memory env question answer w = (Return tt, w')
    /\ (wants_write env (judge env (ticks w) (snippet question answer)) = false ->
        w' = asked question answer w /\ mem w' = mem w).
Proof.
  unfold Memory.extract_and_save_memory.
  unfold bind at 1. rewrite ask_judge_eq. unfold try_except.
  destruct ((decision <- load_decision env _ ;; act_on env decision)
              (asked question answer w)) as [[[]|e] w1] eqn:Hd.
  - exists w1. split; [done|]. intros Hw.
    destruct (decide_skip env _ (asked question answer w) Hw) as [o Ho].
    rewrite Ho in Hd. by simplify_eq.
  - exists w1. split; [done|]. intros Hw.
    destruct (decide_skip env _ (asked question answer w) Hw) as [o Ho].
    rewrite Ho in Hd. by simplify_eq.
Qed.

(** The copy in [memory.py] writes only on a decision that asks for a
    write, carries the required keys, and passes the validation of
    [write_memory]'s input model. *)
Lemma memory_py_writes_only_on_valid_decision env question answer w w' :
  Memory.extract_and_save_memory env question answer w = (Return tt, w') ->
  mem w' <> mem w ->
  exists kv c mt imp input,
    decision_of env (judge env (ticks w) (snippet question answer)) = Some kv
    /\ truthy (jget "should_write" kv) = true
    /\ jget "content" kv = Some c
    /\ jget "memory_type" kv = Some mt
    /\ jget "importance" kv = Some imp
    /\ validate_write env
         (JObj [("content", c); ("memory_type", mt); ("importance", imp);
                ("tags", default (JList []) (jget "tags" kv))])
       = inr input.
Proof.
  unfold Memory.extract_and_save_memory.
  unfold bind at 1. rewrite ask_judge_eq. unfold try_except.
  unfold decision_of, load_decision.
  destruct (judge env (ticks w) (snippet question answer)) as [text|];
    [|no_write_case].
  destruct (json_loads env text) as [[| | | | | |kv|]|]; try no_write_case.
  unfold bind at 1. unfold ret at 1. cbn [act_on].
  destruct (truthy (jget "should_write" kv)) eqn:Hsw; [|no_write_case].
  unfold item.
  destruct (jget "content" kv) as [c|] eqn:Hc; [|no_write_case].
  destruct (jget "memory_type" kv) as [mt|] eqn:Hmt; [|no_write_case].
  destruct (jget "importance" kv) as [imp|] eqn:Himp; [|no_write_case].
  unfold bind at 1 2 3. unfold ret at 1 2 3. unfold bind at 1.
  set (args := JObj _).
  destruct (validate_write env args) as [errors|input] eqn:Hv;
    [|intros _ _; by exists kv, c, mt, imp, input].
  rewrite (call_known _ _ _ _ _ (registry_write_memory env)).
  cbn [handler]. unfold write_memory_handler, construct. subst args.
  unfold bind at 1. rewrite Hv. unfold raise.
  destruct (sliceable c); no_write_case.
Qed.

(** C8 (the defect).  In [run_example.py] the same statements run without
    the [try]: a judgment reply that is not JSON makes
    [extract_and_save_memory] raise [JSONDecodeError] instead of skipping
    silently (the store stays as it was). *)
Theorem C8_run_example_reflection_raises (env : Env) (question answer : string)
    (w : World) (text : string) :
  judge env (ticks w) (snippet question answer) = Some text ->
  json_loads env text = None ->
  RunExample.extract_and_save_memory env question answer w
  = (Raise (Exception "JSONDecodeError" "Expecting value"),
     asked question answer w)
  /\ mem (asked question answer w) = mem w.
Proof.
  intros Hj Hl. split; [|done].
  unfold RunExample.extract_and_save_memory.
  unfold bind at 1. rewrite ask_judge_eq, Hj.
  unfold load_decision. unfold_M. by rewrite Hl.
Qed.

(** C8, witness: a judgment reply in prose. *)
Lemma C8_witness :
  let env := Fixtures.make_env Fixtures.answer_now
               (fun _ _ => Some "Nothing here is worth remembering.")
               Fixtures.ticking_clock (fun _ => 2) in
  fst (RunExample.extract_and_save_memory env "hi" "hello"
         (Fixtures.world_of [] []))
  = Raise (Exception "JSONDecodeError" "Expecting value").
Proof.
  intros env.
  destruct (C8_run_example_reflection_raises env "hi" "hello"
              (Fixtures.world_of [] []) "Nothing here is worth remembering.")
    as [H _]; [reflexivity|reflexivity|].
  rewrite H. reflexivity.
Defined.

(* ================================================================== *)
(** ** The agent loop [run_react_agent] *)
(* ================================================================== *)

Lemma item_pure kv k w : exists o, item kv k w = (o, w).
Proof. unfold item. destruct (jget k kv); by eexists. Qed.

Lemma act_on_quiet env decision w o w' :
  act_on env decision w = (o, w') -> quiet w w'.
Proof.
  destruct decision as [| | | | | |kv|]; cbn [act_on];
    try (unfold raise; intros ?; simplify_eq; apply quiet_refl).
  destruct (truthy (jget "should_write" kv));
    [|unfold ret; intros ?; simplify_eq; apply quiet_refl].
  unfold item.
  destruct (jget "content" kv) as [c|];
    [|unfold_M; cbv beta iota; intros ?; simplify_eq; apply quiet_refl].
  destruct (jget "memory_type" kv) as [mt|];
    [|unfold_M; cbv beta iota; intros ?; simplify_eq; apply quiet_refl].
  destruct (jget "importance" kv) as [imp|];
    [|unfold_M; cbv beta iota; intros ?; simplify_eq; apply quiet_refl].
  intros H. unfold bind at 1 2 3 in H. unfold ret at 1 2 3 in H.
  apply bind_inv in H as [(r & w1 & Hc & Hk)|(e & Hc & ->)].
  - apply call_quiet in Hc.
    destruct (sliceable c); unfold_M; simplify_eq; done.
  - by apply call_quiet in Hc.
Qed.

Lemma load_decision_pure env content w :
  exists o, load_decision env content w = (o, w).
Proof.
  unfold load_decision. destruct content as [text|]; [|by eexists].
  destruct (json_loads env text); by eexists.
Qed.

(** Reflection in [run_example.py] hands exactly one (question, answer)
    pair to the judgment capability. *)
Lemma extract_and_save_memory_trace env q a w o w' :
  RunExample.extract_and_save_memory env q a w = (o, w') ->
  responses (trace w') = responses (trace w)
  /\ reflections (trace w') = reflections (trace w) ++ [(q, a)]
  /\ store_error w' = store_error w.
Proof.
  unfold RunExample.extract_and_save_memory.
  unfold bind at 1. rewrite ask_judge_eq. intros H.
  assert (quiet (asked q a w) w') as (Q1 & Q2 & Q3).
  { apply bind_inv in H as [(d & w1 & Hl & Ha)|(e & Hl & ->)].
    - destruct (load_decision_pure env (judge env (ticks w) (snippet q a))
                  (asked q a w)) as [o1 Ho1].
      rewrite Ho1 in Hl. simplify_eq. by apply act_on_quiet in Ha.
    - destruct (load_decision_pure env (judge env (ticks w) (snippet q a))
                  (asked q a w)) as [o1 Ho1].
      rewrite Ho1 in Hl. simplify_eq. apply quiet_refl. }
  rewrite Q1, Q2, Q3. unfold asked. simpl_world.
  by rewrite responses_app, reflections_app, app_nil_r.
Qed.

Lemma extract_and_save_memory_returns env q a w :
  decision_accepted env (judge env (ticks w) (snippet q a)) = true ->
  exists w', RunExample.extract_and_save_memory env q a w = (Return tt, w').
Proof.
  unfold decision_accepted, decision_of.
  unfold RunExample.extract_and_save_memory.
  unfold bind at 1. rewrite ask_judge_eq.
  destruct (judge env (ticks w) (snippet q a)) as [text|]; [|done].
  unfold load_decision.
  destruct (json_loads env text) as [[| | | | | |kv|]|]; try done.
  unfold bind at 1. unfold ret at 1. cbn [act_on].
  destruct (truthy (jget "should_write" kv)); [|by eexists].
  unfold item.
  destruct (jget "content" kv) as [c|]; [|done].
  destruct (jget "memory_type" kv) as [mt|]; [|done].
  destruct (jget "importance" kv) as [imp|]; [|done].
  intros Hs. unfold bind at 1 2 3. unfold ret at 1 2 3.
  destruct (call_registered env "write_memory"
              (JObj [("content", c); ("memory_type", mt); ("importance", imp);
                     ("tags", default (JList []) (jget "tags" kv))])
              (asked q a w)) as (r & w1 & Hc & _).
  { rewrite registry_write_memory. by eexists. }
  unfold bind. rewrite Hc, Hs. by eexists.
Qed.

Lemma cleanup_memories_quiet max_count w o w' :
  cleanup_memories max_count w = (o, w') -> quiet w w'.
Proof.
  destruct (store_error w) as [msg|] eqn:Hs.
  - unfold cleanup_memories. unfold_M. rewrite Hs.
    intros ?; simplify_eq. apply quiet_refl.
  - destruct (Z.le_gt_cases (Z.of_nat (length (mem w))) max_count).
    + rewrite cleanup_memories_noop by done.
      intros ?; simplify_eq. apply quiet_refl.
    + rewrite cleanup_memories_evicts by (done || lia).
      intros ?; simplify_eq. by repeat split.
Qed.

Lemma cleanup_memories_returns max_count w :
  store_error w = None -> exists w', cleanup_memories max_count w = (Return tt, w').
Proof.
  intros Hs.
  destruct (Z.le_gt_cases (Z.of_nat (length (mem w))) max_count).
  - rewrite cleanup_memories_noop by done. by eexists.
  - rewrite cleanup_memories_evicts by (done || lia). by eexists.
Qed.

Lemma maintenance_quiet env w o w' :
  (r <- random_1_30 env ;; if r =? 1 then cleanup_memories 500 else ret tt) w
  = (o, w') ->
  quiet w w'.
Proof.
  unfold random_1_30. unfold bind at 1 2. unfold tick, ret at 1.
  destruct (randint env (ticks w) =? 1).
  - intros H. apply cleanup_memories_quiet in H. apply H.
  - unfold ret. intros ?; simplify_eq. by repeat split.
Qed.

Lemma maintenance_returns env w :
  store_error w = None ->
  exists w',
    (r <- random_1_30 env ;; if r =? 1 then cleanup_memories 500 else ret tt) w
    = (Return tt, w').
Proof.
  intros Hs. unfold random_1_30. unfold bind at 1 2. unfold tick, ret at 1.
  destruct (randint env (ticks w) =? 1).
  - by apply cleanup_memories_returns.
  - by eexists.
Qed.

Lemma finish_spec env q trs a w o w' :
  finish env q trs a w = (o, w') ->
  responses (trace w') = responses (trace w)
  /\ reflections (trace w') = reflections (trace w) ++ [(q, a)]
  /\ store_error w' = store_error w
  /\ (forall traj, o = Return traj ->
        final_answer traj = Some a /\ question traj = q /\ traces traj = trs).
Proof.
  unfold finish. intros H.
  apply bind_inv in H as [([] & w1 & He & H)|(e & He & ->)].
  - apply extract_and_save_memory_trace in He as (E1 & E2 & E3).
    assert (quiet w1 w' /\
            (forall traj, o = Return traj ->
               final_answer traj = Some a /\ question traj = q /\ traces traj = trs))
      as [(Q1 & Q2 & Q3) Hf].
    { unfold bind at 1 in H.
      destruct (random_1_30 env w1) as [[r|e] w2] eqn:Hr.
      - apply bind_inv in H as [([] & w3 & Hc & H)|(e & Hc & ->)].
        + unfold ret in H. simplify_eq. split; [|by intros traj [= <-]].
          apply (maintenance_quiet env w1 (Return tt)).
          unfold bind at 1. by rewrite Hr.
        + split; [|done].
          apply (maintenance_quiet env w1 (Raise e)).
          unfold bind at 1. by rewrite Hr.
      - unfold random_1_30 in Hr. unfold_M. simplify_eq. }
    split; [congruence|]. split; [congruence|]. split; [congruence|done].
  - apply extract_and_save_memory_trace in He as (E1 & E2 & E3). done.
Qed.

Lemma finish_returns env q trs a w :
  decision_accepted env (judge env (ticks w) (snippet q a)) = true ->
  store_error w = None ->
  exists traj w', finish env q trs a w = (Return traj, w').
Proof.
  intros Hd Hs. unfold finish.
  destruct (extract_and_save_memory_returns env q a w Hd) as [w1 He].
  pose proof (extract_and_save_memory_trace _ _ _ _ _ _ He) as (_ & _ & Hs1).
  destruct (maintenance_returns env w1) as [w2 Hm]; [congruence|].
  unfold bind at 1. rewrite He.
  unfold bind at 1 in Hm. unfold bind at 1.
  destruct (random_1_30 env w1) as [[r|e] w3]; [|done].
  unfold bind at 1. rewrite Hm. unfold ret. by eauto.
Qed.

Lemma run_tool_calls_quiet env tcs : forall msgs trs w o w',
  run_tool_calls env tcs msgs trs w = (o, w') -> quiet w w'.
Proof.
  induction tcs as [|tc rest IH]; intros msgs trs w o w' H.
  - unfold run_tool_calls, ret in H. simplify_eq. apply quiet_refl.
  - cbn [run_tool_calls] in H. unfold load_arguments in H.
    destruct (json_loads env _) as [args|].
    + unfold bind at 1 in H. unfold ret at 1 in H.
      apply bind_inv in H as [(r & w1 & Hc & H)|(e & Hc & ->)].
      * apply call_quiet in Hc.
        apply bind_inv in H as [(obs & w2 & Hd & H)|(e & Hd & ->)];
          rewrite (dumps_world Hd) in *; [|done].
        apply IH in H. by eapply quiet_trans.
      * by apply call_quiet in Hc.
    + unfold_M. cbv beta iota in H. simplify_eq. apply quiet_refl.
Qed.

Lemma run_tool_calls_returns env tcs : forall msgs trs w,
  Forall (executable env) tcs ->
  exists st w', run_tool_calls env tcs msgs trs w = (Return st, w').
Proof.
  induction tcs as [|tc rest IH]; intros msgs trs w Hex.
  - by eexists _, _.
  - apply Forall_cons in Hex as [(Hreg & args & Hargs & Hser) Hex].
    cbn [run_tool_calls]. unfold load_arguments. rewrite Hargs.
    unfold bind at 1. unfold ret at 1.
    destruct (call_registered env (rtc_name tc) args w Hreg)
      as (r & w1 & Hc & _).
    unfold bind at 1. rewrite Hc.
    unfold bind at 1. rewrite dumps_ok by (by eapply Hser). by apply IH.
Qed.

Lemma reason_eq env msgs w :
  reason env msgs w
  = (Return (llm env (ticks w) msgs),
     set_trace (set_ticks w (S (ticks w)))
       (trace w ++ [EvReason msgs (llm env (ticks w) msgs)])).
Proof. reflexivity. Qed.

Lemma cycles_spec env q n : forall msgs trs w o w',
  cycles env n q msgs trs w = (o, w') ->
  exists rs,
    responses (trace w') = responses (trace w) ++ rs
    /\ store_error w' = store_error w
    /\ (length rs <= n)%nat
    /\ (forall traj, o = Return traj ->
          ended_with_answer q w w' rs traj \/ ended_with_sentinel n w w' rs traj).
Proof.
  induction n as [|n IH]; intros msgs trs w o w' H.
  - cbn [cycles] in H. unfold ret in H. simplify_eq.
    exists []. rewrite app_nil_r. split; [done|]. split; [done|]. split; [done|].
    intros traj [= <-]. right. by repeat split.
  - cbn [cycles] in H. unfold bind at 1 in H. rewrite reason_eq in H.
    set (reply := llm env (ticks w) msgs) in *.
    set (w1 := set_trace _ _) in H.
    assert (responses (trace w1) = responses (trace w) ++ [reply]) as Hr1.
    { unfold w1. simpl_world. by rewrite responses_app. }
    assert (reflections (trace w1) = reflections (trace w)) as Hf1.
    { unfold w1. simpl_world. by rewrite reflections_app, app_nil_r. }
    assert (store_error w1 = store_error w) as Hs1 by done.
    destruct (resp_tool_calls reply) as [[|tc tcs]|] eqn:Htc.
    + apply finish_spec in H as (F1 & F2 & F3 & F4).
      exists [reply]. split; [congruence|]. split; [congruence|].
      split; [simpl; lia|]. intros traj Ho. left.
      destruct (F4 traj Ho) as (Hfa & _).
      exists [], reply. split; [done|]. split; [done|].
      split; [unfold has_tool_calls; by rewrite Htc|].
      split; [done|]. congruence.
    + apply bind_inv in H as [(st & w2 & Ht & H)|(e & Ht & ->)].
      * apply run_tool_calls_quiet in Ht as (Q1 & Q2 & Q3).
        apply IH in H as (rs & R1 & R2 & R3 & R4).
        exists (reply :: rs).
        split; [rewrite R1, Q1, Hr1, <- app_assoc; done|].
        split; [congruence|]. split; [simpl; lia|].
        intros traj Ho.
        assert (calls_tools reply) as Hct.
        { unfold calls_tools, has_tool_calls. by rewrite Htc. }
        destruct (R4 traj Ho) as [(rs' & r & -> & A1 & A2 & A3 & A4)|(B1 & B2 & B3 & B4)].
        -- left. exists (reply :: rs'), r. split; [done|].
           split; [by constructor|]. split; [done|]. split; [done|]. congruence.
        -- right. split; [simpl; lia|]. split; [by constructor|].
           split; [done|]. congruence.
      * apply run_tool_calls_quiet in Ht as (Q1 & Q2 & Q3).
        exists [reply]. split; [congruence|]. split; [congruence|].
        split; [simpl; lia|]. done.
    + apply finish_spec in H as (F1 & F2 & F3 & F4).
      exists [reply]. split; [congruence|]. split; [congruence|].
      split; [simpl; lia|]. intros traj Ho. left.
      destruct (F4 traj Ho) as (Hfa & _).
      exists [], reply. split; [done|]. split; [done|].
      split; [unfold has_tool_calls; by rewrite Htc|].
      split; [done|]. congruence.
Qed.

Lemma cycles_returns env q n : forall msgs trs w,
  asks_executable env ->
  (forall k s, decision_accepted env (judge env k s) = true) ->
  store_error w = None ->
  exists traj w', cycles env n q msgs trs w = (Return traj, w').
Proof.
  induction n as [|n IH]; intros msgs trs w Hex Hacc Hs.
  - by eexists _, _.
  - cbn [cycles]. unfold bind at 1. rewrite reason_eq.
    set (reply := llm env (ticks w) msgs) in *.
    set (w1 := set_trace _ _).
    assert (store_error w1 = None) as Hs1 by done.
    destruct (resp_tool_calls reply) as [[|tc tcs]|] eqn:Htc.
    + by apply finish_returns.
    + destruct (run_tool_calls_returns env (tc :: tcs)
                  (msgs ++ [MsgAssistant reply]) trs w1)
        as (st & w2 & Ht); [by apply (Hex _ _ _ Htc)|].
      unfold bind at 1. rewrite Ht.
      apply IH; [done|done|].
      apply run_tool_calls_quiet in Ht as (_ & _ & Q3). congruence.
    + by apply finish_returns.
Qed.

(** Whatever the reasoning capability does, and however the run ends,
    it is consulted at most [max_cycles] times. *)
Lemma reasoning_bounded_always env q max_cycles w o w' :
  run_react_agent env q max_cycles w = (o, w') ->
  exists rs,
    responses (trace w') = responses (trace w) ++ rs
    /\ (length rs <= Z.to_nat max_cycles)%nat.
Proof.
  intros H. apply cycles_spec in H as (rs & H1 & _ & H2 & _). by exists rs.
Qed.

(** C6 (amended).  Let every tool call the reasoning capability asks for
    name a registered tool, carry arguments that decode and yield a result
    that can be serialised, let the store be available, and let the
    judgment replies be ones on which reflection runs to its end.  Then [run_react_agent] returns a trajectory after at most
    [max_cycles] consultations of the reasoning capability: either the last
    reply carries no tool calls, all earlier ones do, and its content is
    the final answer; or all [max_cycles] replies carry tool calls and the
    final answer is the sentinel. *)
Theorem C6_loop_is_bounded (env : Env) (q : string) (max_cycles : Z) (w : World) :
  asks_executable env ->
  (forall k s, decision_accepted env (judge env k s) = true) ->
  store_error w = None ->
  exists traj w' rs,
    run_react_agent env q max_cycles w = (Return traj, w')
    /\ responses (trace w') = responses (trace w) ++ rs
    /\ (length rs <= Z.to_nat max_cycles)%nat
    /\ ((exists rs' r,
           rs = rs' ++ [r] /\ Forall calls_tools rs'
           /\ has_tool_calls r = false
           /\ final_answer traj = Some (default "" (resp_content r)))
        \/ (length rs = Z.to_nat max_cycles /\ Forall calls_tools rs
            /\ final_answer traj = Some SENTINEL)).
Proof.
  intros Hex Hacc Hs. unfold run_react_agent.
  destruct (cycles_returns env q (Z.to_nat max_cycles)
              [MsgSystem SYSTEM_PROMPT; MsgUser q] [] w Hex Hacc Hs)
    as (traj & w' & Hrun).
  destruct (cycles_spec _ _ _ _ _ _ _ _ Hrun) as (rs & H1 & _ & H2 & H3).
  exists traj, w', rs. split; [done|]. split; [done|]. split; [done|].
  destruct (H3 traj eq_refl)
    as [(rs' & r & A0 & A1 & A2 & A3 & _)|(B1 & B2 & B3 & _)].
  - left. by exists rs', r.
  - by right.
Qed.

(** C7 (amended).  A run that returns did one of two things.  It ended on
    a reply without tool calls, and then the Reflection Engine was
    triggered exactly once, on the question and the final answer.  Or it
    used up [max_cycles] replies that all carry tool calls, and then the
    final answer is the sentinel and the Reflection Engine was not
    triggered. *)
Theorem C7_reflection_only_on_answer (env : Env) (q : string) (max_cycles : Z)
    (w w' : World) (traj : Trajectory) :
  run_react_agent env q max_cycles w = (Return traj, w') ->
  exists rs,
    responses (trace w') = responses (trace w) ++ rs
    /\ ((exists rs' r,
           rs = rs' ++ [r] /\ Forall calls_tools rs'
           /\ has_tool_calls r = false
           /\ final_answer traj = Some (default "" (resp_content r))
           /\ reflections (trace w')
              = reflections (trace w) ++ [(q, default "" (resp_content r))])
        \/ (length rs = Z.to_nat max_cycles /\ Forall calls_tools rs
            /\ final_answer traj = Some SENTINEL
            /\ reflections (trace w') = reflections (trace w))).
Proof.
  intros Hrun. unfold run_react_agent in Hrun.
  destruct (cycles_spec _ _ _ _ _ _ _ _ Hrun) as (rs & H1 & _ & _ & H3).
  exists rs. split; [done|].
  destruct (H3 traj eq_refl) as [Ha|Hb]; [by left|by right].
Qed.

(** C6, witness: two cycles of tool calls, then the sentinel. *)
Lemma C6_witness :
  exists traj w',
    run_react_agent LoopFixtures.env_calculating "2+2?" 2 (Fixtures.world_of [] [])
    = (Return traj, w')
    /\ (length (responses (trace w')) <= 2)%nat.
Proof.
  destruct (C6_loop_is_bounded LoopFixtures.env_calculating "2+2?" 2
              (Fixtures.world_of [] []))
    as (traj & w' & rs & H1 & H2 & H3 & _).
  - intros n msgs tcs [= <-]. constructor; [|constructor].
    split; [by eexists|]. eexists. split; [reflexivity|].
    apply fixtures_serialize.
  - intros k s. reflexivity.
  - reflexivity.
  - exists traj, w'. split; [exact H1|]. rewrite H2. exact H3.
Defined.

(** C6, counterexample to the claim as stated: a reasoning behaviour that
    asks for an unregistered tool ends the run with the exception
    [KeyError], not with an answer or the sentinel. *)
Lemma C6_counterexample_unknown_tool :
  fst (run_react_agent LoopFixtures.env_unknown_tool "hello" 3
         (Fixtures.world_of [] []))
  = Raise (Exception "KeyError" "Unknown tool: no_such_tool").
Proof. vm_compute. reflexivity. Qed.

(** C7, witness: an immediate answer is reflected on once. *)
Lemma C7_witness :
  exists traj w',
    run_react_agent Fixtures.env0 "hello" 6 (Fixtures.world_of [] [])
    = (Return traj, w')
    /\ final_answer traj = Some "done"
    /\ reflections (trace w') = [("hello", "done")].
Proof.
  eexists _, _. split; [vm_compute; reflexivity|].
  split; [reflexivity|].
  match goal with
  | |- reflections (trace ?w') = _ =>
      destruct (C7_reflection_only_on_answer Fixtures.env0 "hello" 6
                  (Fixtures.world_of [] []) w'
                  {| question := "hello"; traces := []; final_answer := Some "done" |})
        as (rs & _ & [(rs' & r & _ & _ & _ & Ha & Hr)|(_ & _ & Hs & _)])
  end.
  - vm_compute. reflexivity.
  - rewrite Hr. cbn [final_answer] in Ha. injection Ha as <-. reflexivity.
  - discriminate Hs.
Defined.

(** C7, counterexample to the claim as stated: a run that uses up
    [max_cycles] returns the sentinel and the Reflection Engine is never
    triggered. *)
Lemma C7_counterexample_sentinel_run :
  exists traj w',
    run_react_agent LoopFixtures.env_calculating "2+2?" 1 (Fixtures.world_of [] [])
    = (Return traj, w')
    /\ final_answer traj = Some SENTINEL
    /\ reflections (trace w') = [].
Proof. eexists _, _. split; [vm_compute; reflexivity|]. split; reflexivity. Qed.

(* ================================================================== *)
(** ** Registration *)
(* ================================================================== *)

(** Registering a tool under a free name: the tool is what [get] returns
    for that name, every other name is looked up as before, and a second
    registration under the same name fails with [ValueError]. *)
Theorem register_tool_then_get (spec : ToolSpec)
    (tools tools' : gmap string ToolSpec) (w : World) :
  register_tool spec tools = Return tools' ->
  get tools' (name spec) w = (Return spec, w)
  /\ (forall n, n <> name spec -> get tools' n w = get tools n w)
  /\ (forall other, name other = name spec ->
        register_tool other tools'
        = Raise (Exception "ValueError"
                   ("Tool already registered: " +:+ name spec))).
Proof.
  unfold register_tool. destruct (tools !! name spec) eqn:Hfree; [done|].
  intros [= <-]. split; [|split].
  - unfold get. by rewrite lookup_insert_eq.
  - intros n Hn. unfold get. by rewrite lookup_insert_ne.
  - intros other Hname. rewrite Hname. by rewrite lookup_insert_eq.
Qed.

Lemma register_tool_then_get_witness :
  let tools' := <["echo" := ExtraFixtures.echo]> (registry Fixtures.env0) in
  register_tool ExtraFixtures.echo (registry Fixtures.env0) = Return tools'
  /\ get tools' "echo" (Fixtures.world_of [] [])
     = (Return ExtraFixtures.echo, Fixtures.world_of [] [])
  /\ get tools' "calculate" (Fixtures.world_of [] [])
     = get (registry Fixtures.env0) "calculate" (Fixtures.world_of [] []).
Proof.
  intros tools'.
  assert (register_tool ExtraFixtures.echo (registry Fixtures.env0)
          = Return tools') as Hreg by reflexivity.
  destruct (register_tool_then_get ExtraFixtures.echo (registry Fixtures.env0)
              tools' (Fixtures.world_of [] []) Hreg) as (H1 & H2 & _).
  split; [exact Hreg|]. split; [exact H1|]. apply H2. discriminate.
Defined.

Lemma register_all_names specs : forall tools tools',
  register_all specs tools = Return tools' ->
  forall n, is_Some (tools' !! n)
            <-> is_Some (tools !! n) \/ n ∈ map name specs.
Proof.
  induction specs as [|s specs IH]; intros tools tools' Hreg n.
  - simpl in Hreg. simplify_eq. rewrite elem_of_nil. tauto.
  - simpl in Hreg. unfold register_tool in Hreg.
    destruct (tools !! name s) eqn:Hs; [done|].
    rewrite (IH _ _ Hreg n). cbn [map]. rewrite elem_of_cons.
    destruct (decide (n = name s)) as [->|Hne].
    + rewrite lookup_insert_eq. split; [by auto|]. intros _. left. by eexists.
    + rewrite lookup_insert_ne by done. split; [tauto|].
      intros [H|[H|H]]; [by auto|done|by auto].
Qed.

(** The registration loop succeeds exactly when the names of the specs
    are pairwise distinct and none of them is registered yet; otherwise it
    stops with an exception. *)
Theorem register_all_succeeds_iff (specs : list ToolSpec)
    (tools : gmap string ToolSpec) :
  returns (register_all specs tools) = true
  <-> NoDup (map name specs)
      /\ Forall (fun s => tools !! name s = None) specs.
Proof.
  revert tools. induction specs as [|s specs IH]; intros tools.
  - simpl. split; [intros _; split; constructor|done].
  - cbn [register_all map]. unfold register_tool.
    rewrite NoDup_cons, Forall_cons.
    destruct (tools !! name s) eqn:Hs.
    + simpl. split; [done|]. intros (_ & Hn & _). congruence.
    + rewrite IH. split.
      * intros [Hnd Hall]. split; [split|split]; try done.
        -- intros Hin. apply list_elem_of_fmap in Hin as (s' & Heq & Hs').
           rewrite Forall_forall in Hall. specialize (Hall s' Hs').
           rewrite <- Heq, lookup_insert_eq in Hall. done.
        -- eapply Forall_impl; [exact Hall|]. intros s' Hs'. simpl in Hs'.
           destruct (decide (name s = name s')) as [Heq|Hne].
           ++ rewrite Heq, lookup_insert_eq in Hs'. done.
           ++ by rewrite lookup_insert_ne in Hs'.
      * intros [[Hnotin Hnd] [_ Hall]]. split; [done|].
        rewrite Forall_forall in Hall |- *. intros s' Hs'.
        rewrite lookup_insert_ne; [by apply Hall|].
        intros Heq. apply Hnotin. rewrite Heq.
        by apply (list_elem_of_fmap_2 name).
Qed.

(** The shipped registry knows exactly the six tool names. *)
Theorem registry_knows_six_tools (env : Env) (n : string) :
  is_Some (registry env !! n)
  <-> n ∈ ["get_time"; "calculate"; "google_search"; "rag_search";
           "read_memory"; "write_memory"].
Proof.
  rewrite (register_all_names _ _ _ (register_default_tools_ok env) n).
  rewrite lookup_empty. split.
  - intros [[? H]|H]; [done|exact H].
  - intros H. right. exact H.
Qed.

(* ================================================================== *)
(** ** Dispatch of the shipped tools *)
(* ================================================================== *)

Lemma registry_read_memory env :
  registry env !! "read_memory"
  = Some {| name := "read_memory";
            description := "Search past conversations and user information.";
            input_model := ReadMemoryInputModel;
            handler := read_memory_handler env |}.
Proof. reflexivity. Qed.

Lemma call_write_memory_eq env kv input w :
  validate_write env (JObj kv) = inr input ->
  call (registry env) "write_memory" (JObj kv) w
  = write_memory env input
      (set_trace w (trace w ++ [EvHandler "write_memory" (JObj kv)])).
Proof.
  intros Hv. rewrite (call_known _ _ _ _ _ (registry_write_memory env)).
  cbn [handler]. unfold write_memory_handler, construct.
  unfold bind at 1. rewrite Hv. unfold ret at 1.
  destruct (write_memory_framed env input
              (set_trace w (trace w ++ [EvHandler "write_memory" (JObj kv)])))
    as (r & w' & -> & _).
  done.
Qed.

(** Dispatching [write_memory] with an argument dictionary that validates
    is [write_memory] on the validated input, run after the invocation was
    recorded: the dispatcher adds nothing and catches nothing. *)
Theorem call_write_memory_validated (env : Env) (kv : list (string * Json))
    (input : WriteMemoryInput) (w : World) :
  validate_write env (JObj kv) = inr input ->
  call (registry env) "write_memory" (JObj kv) w
  = write_memory env input
      (set_trace w (trace w ++ [EvHandler "write_memory" (JObj kv)])).
Proof. apply call_write_memory_eq. Qed.

Lemma call_write_memory_validated_witness :
  exists w',
    call (registry Fixtures.env0) "write_memory"
      (JObj [("content", JStr "likes tea")]) (Fixtures.world_of [] [])
    = (Return (JObj [("status", JStr "saved");
                     ("memory_id", JStr "mem_1700000000.250000");
                     ("content", JStr "likes tea");
                     ("memory_type", JStr "episodic")]), w')
    /\ map e_document (mem w') = ["likes tea"].
Proof.
  eexists. split.
  - rewrite (call_write_memory_validated Fixtures.env0
               [("content", JStr "likes tea")]
               {| wm_content := "likes tea"; wm_memory_type := "episodic";
                  wm_importance := 3; wm_tags := [] |});
      [|reflexivity].
    vm_compute. reflexivity.
  - reflexivity.
Defined.

(** With the store unavailable, the memory tools report the failure in
    their own shape, [{"error": msg}], also through dispatch: the registry
    does not turn it into a [runtime_error] dictionary, and nothing is
    raised. *)
Theorem memory_tools_report_store_failure (env : Env)
    (kv : list (string * Json)) (w : World) (msg : string) :
  store_error w = Some msg ->
  (forall input, validate_read env (JObj kv) = inr input ->
     fst (call (registry env) "read_memory" (JObj kv) w)
     = Return (JObj [("error", JStr msg)]))
  /\ (forall input, validate_write env (JObj kv) = inr input ->
        fst (call (registry env) "write_memory" (JObj kv) w)
        = Return (JObj [("error", JStr msg)])
        /\ mem (snd (call (registry env) "write_memory" (JObj kv) w)) = mem w).
Proof.
  intros Hs. split.
  - intros input Hv.
    rewrite (call_known _ _ _ _ _ (registry_read_memory env)).
    cbn [handler]. unfold read_memory_handler, construct.
    unfold bind at 1. rewrite Hv. unfold ret at 1.
    by rewrite (read_memory_unavailable _ _ _ msg).
  - intros input Hv. rewrite (call_write_memory_eq _ _ input) by done.
    by rewrite (write_memory_unavailable _ _ _ msg).
Qed.

Lemma memory_tools_report_store_failure_witness :
  fst (call (registry Fixtures.env0) "write_memory"
         (JObj [("content", JStr "likes tea")]) ExtraFixtures.world_down)
  = Return (JObj [("error", JStr "database is locked")]).
Proof.
  destruct (memory_tools_report_store_failure Fixtures.env0
              [("content", JStr "likes tea")] ExtraFixtures.world_down
              "database is locked") as [_ Hw]; [reflexivity|].
  destruct (Hw {| wm_content := "likes tea"; wm_memory_type := "episodic";
                  wm_importance := 3; wm_tags := [] |}) as [H _];
    [reflexivity|exact H].
Defined.

(** Arguments that are not a dictionary cannot be unpacked into an input
    model: every shipped tool answers them with a [runtime_error]
    dictionary, not with a validation error. *)
Theorem call_rejects_non_dictionary (env : Env) (n : string) (args : Json)
    (w : World) :
  is_Some (registry env !! n) ->
  is_dict args = false ->
  exists details,
    call (registry env) n args w
    = (Return (JObj [("error", JStr "runtime_error"); ("details", details)]),
       set_trace w (trace w ++ [EvHandler n args])).
Proof.
  intros [spec Hspec] Hd. rewrite (call_known _ _ _ _ _ Hspec).
  apply registry_lookup in Hspec as [Hin _].
  pose proof (default_handler_cases env spec args
                (set_trace w (trace w ++ [EvHandler n args])) Hin) as Hc.
  rewrite Hd in Hc. rewrite Hc. by eexists.
Qed.

Lemma call_rejects_non_dictionary_witness :
  exists details,
    fst (call (registry Fixtures.env0) "calculate" (JList [JInt 1; JInt 2])
           (Fixtures.world_of [] []))
    = Return (JObj [("error", JStr "runtime_error"); ("details", details)]).
Proof.
  destruct (call_rejects_non_dictionary Fixtures.env0 "calculate"
              (JList [JInt 1; JInt 2]) (Fixtures.world_of [] []))
    as [details H]; [by eexists|reflexivity|].
  exists details. by rewrite H.
Defined.

Lemma handler_keeps_store env spec args w o w' :
  In spec (get_default_tool_specs env) ->
  name spec <> "write_memory" ->
  handler spec args w = (o, w') ->
  mem w' = mem w.
Proof.
  intros Hin Hname. cbn [get_default_tool_specs In] in Hin.
  destruct Hin as [<-|[<-|[<-|[<-|[<-|[<-|[]]]]]]];
    cbn [handler name] in *; try done;
    unfold other_handler, read_memory_handler, construct;
    (destruct args as [| | | | | |kv|];
     try (unfold_M; cbv beta iota; intros ?; simplify_eq; reflexivity)).
  1-4: destruct (validate_other env _ (JObj kv)) as [errors|input];
       unfold_M; cbv beta iota; intros ?; simplify_eq; reflexivity.
  destruct (validate_read env (JObj kv)) as [errors|input];
    [unfold_M; cbv beta iota; intros ?; simplify_eq; reflexivity|].
  unfold bind, ret. destruct (read_memory_framed env input w) as [r ->].
  intros ?; by simplify_eq.
Qed.

(** Of the shipped tools only [write_memory] changes the memory store:
    a dispatch under any other name, registered or not, leaves the stored
    records as they are. *)
Theorem only_write_memory_changes_store (env : Env) (n : string) (args : Json)
    (w w' : World) (o : outcome Json) :
  n <> "write_memory" ->
  call (registry env) n args w = (o, w') ->
  mem w' = mem w.
Proof.
  intros Hn. destruct (registry env !! n) as [spec|] eqn:Hspec.
  - rewrite (call_known _ _ _ _ _ Hspec).
    apply registry_lookup in Hspec as [Hin Hname].
    destruct (handler spec args _) as [[r|[errors|cls m]] w1] eqn:Hh;
      intros ?; simplify_eq;
      by apply (handler_keeps_store _ _ _ _ _ _ Hin) in Hh.
  - rewrite call_unknown by done. intros ?; by simplify_eq.
Qed.

Lemma only_write_memory_changes_store_witness :
  mem (snd (call (registry Fixtures.env0) "read_memory"
              (JObj [("query", JStr "tea")])
              (Fixtures.world_of Fixtures.three [])))
  = Fixtures.three.
Proof.
  destruct (call (registry Fixtures.env0) "read_memory"
              (JObj [("query", JStr "tea")])
              (Fixtures.world_of Fixtures.three [])) as [o w'] eqn:Hc.
  apply (only_write_memory_changes_store Fixtures.env0 "read_memory" _ _ w' o)
    in Hc; [exact Hc|discriminate].
Defined.

(* ================================================================== *)
(** ** The tool node: too few answers *)
(* ================================================================== *)

Lemma resume_suspends env state : forall answers given w,
  Forall (fun tc => is_Some (registry env !! tc_name tc)) (queued state) ->
  Forall (fun tc => serializes env (tc_name tc) (tc_arguments tc))
    (queued state) ->
  (length given + length answers < risky_count (queued state))%nat ->
  exists tc w',
    tc ∈ queued state
    /\ str_in (tc_name tc) DANGEROUS_TOOLS = true
    /\ resume env answers given state w
       = (Raise (Exception "GraphInterrupt" (confirm_prompt env tc)), w').
Proof.
  induction answers as [|approval answers IH]; intros given w Hreg Hser Hres.
  - destruct (activate_suspends env given state w Hreg Hser)
      as (tc & w' & Hin & Hd & Ha); [cbn [length] in Hres; lia|].
    exists tc, w'. split; [done|]. split; [done|].
    cbn [resume]. by rewrite Ha.
  - destruct (activate_suspends env given state w Hreg Hser)
      as (tc & w1 & _ & _ & Ha); [cbn [length] in Hres; lia|].
    cbn [resume]. rewrite Ha. cbn [String.eqb Ascii.eqb Bool.eqb].
    apply IH; [done|done|].
    rewrite length_app. cbn [length] in *. lia.
Qed.

(** When the queue holds more risky calls than answers are given, the
    turn of the tool node does not end: after the last answer the node is
    still suspended at a risky call of the queue, with the prompt that
    names this call and its arguments.  (The tools are registered and
    their results can be serialised.) *)
Theorem tool_node_suspends_without_token (env : Env) (state : AgentState)
    (w : World) (answers : list string) :
  Forall (fun tc => is_Some (registry env !! tc_name tc)) (queued state) ->
  Forall (fun tc => serializes env (tc_name tc) (tc_arguments tc))
    (queued state) ->
  (length answers < risky_count (queued state))%nat ->
  exists tc w',
    tc ∈ queued state
    /\ str_in (tc_name tc) DANGEROUS_TOOLS = true
    /\ tool_turn env answers state w
       = (Raise (Exception "GraphInterrupt" (confirm_prompt env tc)), w').
Proof.
  intros Hreg Hser Hres. unfold tool_turn.
  apply resume_suspends; [done|done|]. cbn [length]. lia.
Qed.

Lemma tool_node_suspends_without_token_witness :
  exists tc w',
    tc ∈ ExtraFixtures.mixed_queue
    /\ str_in (tc_name tc) DANGEROUS_TOOLS = true
    /\ tool_turn Fixtures.env0 ["y"]
         {| messages := []; tool_calls := Some ExtraFixtures.mixed_queue |}
         (Fixtures.world_of [] [])
       = (Raise (Exception "GraphInterrupt" (confirm_prompt Fixtures.env0 tc)),
          w').
Proof.
  apply (tool_node_suspends_without_token Fixtures.env0
           {| messages := []; tool_calls := Some ExtraFixtures.mixed_queue |}
           (Fixtures.world_of [] []) ["y"]).
  - repeat constructor; by eexists.
  - repeat constructor; apply fixtures_serialize.
  - vm_compute. lia.
Defined.

(* ================================================================== *)
(** ** Message conversion, the LLM node and the router *)
(* ================================================================== *)

Import LlmNode.

(** Every converted message is a dictionary, and dictionaries pass
    through the conversion untouched: converting the converted history
    again changes nothing. *)
Theorem convert_messages_is_stable (env : Env) (messages : list StateMessage) :
  exists ds,
    convert_messages env messages = map JObj ds
    /\ convert_messages env (map MessageDict ds) = convert_messages env messages.
Proof.
  induction messages as [|m ms (ds & IH1 & IH2)].
  - by exists [].
  - unfold convert_messages in *. cbn [map].
    destruct m as [type content tcs tcid|d|text].
    + eexists (_ :: ds). cbn [map convert_message]. split; [by rewrite IH1|].
      by rewrite IH2.
    + exists (d :: ds). cbn [map convert_message]. split; [by rewrite IH1|].
      by rewrite IH2.
    + eexists (_ :: ds). cbn [map convert_message]. split; [by rewrite IH1|].
      by rewrite IH2.
Qed.

Lemma role_of_cases type :
  role_of type <> "human" /\ role_of type <> "ai".
Proof.
  unfold role_of.
  destruct (String.eqb_spec type "human"); [done|].
  destruct (String.eqb_spec type "ai"); [done|].
  destruct (String.eqb_spec type "system"); [done|].
  destruct (String.eqb_spec type "tool"); done.
Qed.

(** A message object is converted to a dictionary whose role is never
    the library's "human" or "ai", whose content is a string (empty for a
    missing one), and which keeps a non-empty [tool_call_id], so that the
    result of a tool call stays attached to its call. *)
Theorem convert_message_object (env : Env) (type : string)
    (content : option string) (tcs : option (list (list (string * Json))))
    (tool_call_id : option string) :
  let converted := convert_message env (MessageObject type content tcs tool_call_id) in
  field "role" converted = Some (JStr (role_of type))
  /\ role_of type <> "human" /\ role_of type <> "ai"
  /\ field "content" converted = Some (JStr (default "" content))
  /\ (forall i, tool_call_id = Some i -> i <> "" ->
        field "tool_call_id" converted = Some (JStr i)).
Proof.
  cbn zeta. split; [done|]. destruct (role_of_cases type) as [H1 H2].
  split; [done|]. split; [done|]. split; [done|].
  intros i -> Hi. apply String.eqb_neq in Hi.
  unfold convert_message. rewrite Hi.
  destruct tcs as [[|tc tcs]|]; reflexivity.
Qed.

(** What is handed to the chat completion always starts with a system
    message: the history's own if it has one in front, otherwise the
    system prompt, put before the unchanged converted history. *)
Theorem outgoing_starts_with_system (env : Env) (messages : list StateMessage) :
  has_system (outgoing env messages) = true
  /\ (has_system (convert_messages env messages) = true ->
      outgoing env messages = convert_messages env messages)
  /\ (has_system (convert_messages env messages) = false ->
      outgoing env messages
      = JObj [("role", JStr "system"); ("content", JStr SYSTEM_PROMPT)]
        :: convert_messages env messages).
Proof.
  unfold outgoing.
  destruct (has_system (convert_messages env messages)) eqn:H.
  - by rewrite H.
  - split; [reflexivity|]. split; [done|reflexivity].
Qed.

Lemma tool_calls_data_spec env tcs : forall w o w',
  tool_calls_data env tcs w = (o, w') ->
  w' = w
  /\ (returns o = true
      <-> Forall (fun tc => is_Some (json_loads env
                              (RunExample.or_empty_object (rtc_arguments tc)))) tcs)
  /\ (forall data, o = Return data ->
        map tc_id data = map rtc_id tcs /\ map tc_name data = map rtc_name tcs).
Proof.
  induction tcs as [|tc rest IH]; intros w o w' H.
  - cbn [tool_calls_data] in H. unfold ret in H. simplify_eq.
    split; [done|]. split; [by split|]. by intros data [= <-].
  - cbn [tool_calls_data] in H. unfold tool_call_data in H.
    rewrite Forall_cons.
    destruct (json_loads env _) as [arguments|] eqn:Hl.
    + unfold bind at 1 in H. unfold ret at 1 in H.
      apply bind_inv in H as [(ds & w1 & Hd & H)|(e & Hd & ->)].
      * apply IH in Hd as (-> & Hret & Hmap). unfold ret in H. simplify_eq.
        split; [done|]. split.
        -- split; [intros _; split; [by eexists|by apply Hret]|done].
        -- intros data [= <-]. destruct (Hmap ds eq_refl) as [H1 H2].
           cbn [map tc_id tc_name]. by rewrite H1, H2.
      * apply IH in Hd as (-> & Hret & _). split; [done|]. split; [|done].
        split; [done|]. intros [_ Hall]. by apply Hret in Hall.
    + unfold_M. cbv beta iota in H. simplify_eq. split; [done|].
      split; [|done]. split; [done|]. intros [[? ?] _]. done.
Qed.

Lemma llm_node_queue env chat messages w w' update :
  llm_node env chat messages w = (Return update, w') ->
  map tc_id (queued update)
  = map rtc_id (default [] (resp_tool_calls (chat (ticks w) (outgoing env messages))))
  /\ map tc_name (queued update)
     = map rtc_name (default [] (resp_tool_calls (chat (ticks w) (outgoing env messages))))
  /\ (Nodes.tool_calls update = None \/
      exists d data, Nodes.tool_calls update = Some (d :: data)).
Proof.
  unfold llm_node. unfold bind at 1. unfold tick. simpl_world.
  set (reply := chat (ticks w) (outgoing env messages)).
  intros H. unfold queued.
  destruct (resp_tool_calls reply) as [[|tc tcs]|] eqn:Htc.
  - unfold ret in H. simplify_eq. cbn. by auto.
  - apply bind_inv in H as [(data & w1 & Hd & H)|(e & _ & ?)]; [|done].
    unfold ret in H. simplify_eq.
    apply tool_calls_data_spec in Hd as (_ & _ & Hmap).
    destruct (Hmap data eq_refl) as [Hid Hname]. cbn [Nodes.tool_calls default].
    split; [done|]. split; [done|]. right.
    destruct data as [|d data]; [done|]. by eauto.
  - unfold ret in H. simplify_eq. cbn. by auto.
Qed.

(** The update of the LLM node and the router: the graph goes on to the
    tool node exactly when the reply carries tool calls, and then the
    queue handed to the tool node lists the reply's calls in order, with
    their ids and names; otherwise the queue is cleared and the graph
    ends. *)
Theorem llm_node_routes_on_tool_calls (env : Env)
    (chat : nat -> list Json -> Response) (messages : list StateMessage)
    (w w' : World) (update : AgentState) :
  llm_node env chat messages w = (Return update, w') ->
  let reply := chat (ticks w) (outgoing env messages) in
  (Graph.route update = "tool" <-> has_tool_calls reply = true)
  /\ (has_tool_calls reply = false ->
      Graph.route update = Graph.END /\ Nodes.tool_calls update = None)
  /\ map tc_id (queued update) = map rtc_id (default [] (resp_tool_calls reply))
  /\ map tc_name (queued update) = map rtc_name (default [] (resp_tool_calls reply)).
Proof.
  intros H reply.
  destruct (llm_node_queue _ _ _ _ _ _ H) as (Hid & Hname & Hq).
  fold reply in Hid, Hname. split; [|split; [|done]].
  - unfold Graph.route, has_tool_calls.
    destruct Hq as [Hq|(d & data & Hq)]; rewrite Hq in *;
      unfold queued in Hid; rewrite Hq in Hid; cbn [default map] in Hid;
      destruct (resp_tool_calls reply) as [[|tc tcs]|]; cbn in Hid; try done.
  - unfold Graph.route, has_tool_calls. intros Hno.
    destruct Hq as [Hq|(d & data & Hq)]; rewrite Hq in *; [done|].
    unfold queued in Hid. rewrite Hq in Hid. cbn [default map] in Hid.
    destruct (resp_tool_calls reply) as [[|tc tcs]|]; cbn in Hid; done.
Qed.

Lemma llm_node_routes_on_tool_calls_witness :
  exists update w',
    llm_node Fixtures.env0 ExtraFixtures.chat_search
      [MessageObject "human" (Some "find papers") None None]
      (Fixtures.world_of [] []) = (Return update, w')
    /\ Graph.route update = "tool"
    /\ map tc_id (queued update) = ["call_0"].
Proof.
  eexists _, _. split; [vm_compute; reflexivity|].
  match goal with
  | |- Graph.route ?u = _ /\ _ =>
      destruct (llm_node_routes_on_tool_calls Fixtures.env0
                  ExtraFixtures.chat_search
                  [MessageObject "human" (Some "find papers") None None]
                  (Fixtures.world_of [] []) _ u ltac:(vm_compute; reflexivity))
        as (H1 & _ & H2 & _)
  end.
  split; [by apply H1|]. rewrite H2. reflexivity.
Defined.

(** The LLM node fails exactly when the reply carries a tool call whose
    arguments do not decode: it then raises instead of returning an
    update. *)
Theorem llm_node_returns_iff_arguments_decode (env : Env)
    (chat : nat -> list Json -> Response) (messages : list StateMessage)
    (w : World) :
  returns (fst (llm_node env chat messages w)) = true
  <-> Forall (fun tc => is_Some (json_loads env
                          (RunExample.or_empty_object (rtc_arguments tc))))
        (default [] (resp_tool_calls (chat (ticks w) (outgoing env messages)))).
Proof.
  unfold llm_node. unfold bind at 1. unfold tick. simpl_world.
  set (reply := chat (ticks w) (outgoing env messages)).
  destruct (resp_tool_calls reply) as [[|tc tcs]|] eqn:Htc; cbn [default].
  - by split.
  - unfold bind.
    destruct (tool_calls_data env (tc :: tcs) (set_ticks w (S (ticks w))))
      as [[data|e] w1] eqn:Hd;
      apply tool_calls_data_spec in Hd as (_ & Hret & _); simpl in *; tauto.
  - by split.
Qed.

(** The LLM node followed by the turn of the tool node: when the
    requested tools are registered, their results can be serialised and
    there is an answer for every risky call, the tool node ends by
    answering each tool call of the assistant message with one tool message
    under that call's id, in order. *)
Theorem tool_node_answers_llm_node (env : Env)
    (chat : nat -> list Json -> Response) (messages : list StateMessage)
    (w w1 : World) (update : AgentState) (answers : list string) :
  llm_node env chat messages w = (Return update, w1) ->
  Forall (fun tc => is_Some (registry env !! tc_name tc)) (queued update) ->
  Forall (fun tc => serializes env (tc_name tc) (tc_arguments tc))
    (queued update) ->
  (risky_count (queued update) <= length answers)%nat ->
  exists msgs w2,
    tool_turn env answers update w1
    = (Return {| Nodes.messages := msgs; Nodes.tool_calls := None |}, w2)
    /\ map msg_tool_call_id msgs
       = map (fun tc => Some (rtc_id tc))
           (default [] (resp_tool_calls (chat (ticks w) (outgoing env messages)))).
Proof.
  intros Hl Hreg Hser Hres.
  destruct (llm_node_queue _ _ _ _ _ _ Hl) as (Hid & _ & _).
  destruct (resume_returns env update answers [] w1 Hreg Hser)
    as (msgs & w2 & Hr & Hm); [cbn [length]; lia|].
  exists msgs, w2. split; [exact Hr|].
  rewrite Hm, <- (map_map rtc_id Some), <- Hid, map_map. done.
Qed.

Lemma tool_node_answers_llm_node_witness :
  exists update w1 msgs w2,
    llm_node Fixtures.env0 ExtraFixtures.chat_search
      [MessageObject "human" (Some "find papers") None None]
      (Fixtures.world_of [] []) = (Return update, w1)
    /\ tool_turn Fixtures.env0 [] update w1
       = (Return {| Nodes.messages := msgs; Nodes.tool_calls := None |}, w2)
    /\ map msg_tool_call_id msgs = [Some "call_0"].
Proof.
  destruct (llm_node Fixtures.env0 ExtraFixtures.chat_search
              [MessageObject "human" (Some "find papers") None None]
              (Fixtures.world_of [] [])) as [[update|e] w1] eqn:Hl;
    [|vm_compute in Hl; discriminate].
  assert (queued update
          = [{| tc_id := "call_0"; tc_name := "rag_search";
                tc_arguments := JObj [] |}]) as Hq.
  { vm_compute in Hl. by simplify_eq. }
  destruct (tool_node_answers_llm_node _ _ _ _ _ _ [] Hl)
    as (msgs & w2 & Ht & Hm).
  - rewrite Hq. repeat constructor. vm_compute. by eexists.
  - rewrite Hq. repeat constructor. apply fixtures_serialize.
  - rewrite Hq. vm_compute. lia.
  - exists update, w1, msgs, w2. split; [done|]. split; [exact Ht|].
    rewrite Hm. reflexivity.
Defined.

(* ================================================================== *)
(** ** The agent loop: edge cases and the trajectory *)
(* ================================================================== *)

(** With [max_cycles] zero or negative the loop body never runs: the
    run returns the sentinel answer at once, without consulting the
    reasoning capability and without touching the world. *)
Theorem run_react_agent_without_cycles (env : Env) (q : string)
    (max_cycles : Z) (w : World) :
  max_cycles <= 0 ->
  run_react_agent env q max_cycles w
  = (Return {| question := q; traces := []; final_answer := Some SENTINEL |}, w).
Proof.
  intros H. unfold run_react_agent.
  assert (Z.to_nat max_cycles = 0%nat) as -> by lia. reflexivity.
Qed.

Lemma run_react_agent_without_cycles_witness :
  run_react_agent LoopFixtures.env_unknown_tool "hello" (-2)
    (Fixtures.world_of [] [])
  = (Return {| question := "hello"; traces := [];
               final_answer := Some SENTINEL |}, Fixtures.world_of [] []).
Proof. apply run_react_agent_without_cycles. lia. Defined.

Lemma reasoning_bounded_always_witness :
  exists o w' rs,
    run_react_agent LoopFixtures.env_unknown_tool "hello" 3
      (Fixtures.world_of [] []) = (o, w')
    /\ returns o = false
    /\ responses (trace w') = rs
    /\ (length rs <= 3)%nat.
Proof.
  destruct (run_react_agent LoopFixtures.env_unknown_tool "hello" 3
              (Fixtures.world_of [] [])) as [o w'] eqn:Hrun.
  destruct (reasoning_bounded_always _ _ _ _ _ _ Hrun) as (rs & H1 & H2).
  exists o, w', rs. split; [reflexivity|]. split; [|split; [exact H1|exact H2]].
  vm_compute in Hrun. injection Hrun as <- _. reflexivity.
Defined.

Lemma run_tool_calls_traces env tcs : forall msgs trs w st w',
  run_tool_calls env tcs msgs trs w = (Return st, w') ->
  map tool_name (snd st) = map tool_name trs ++ map rtc_name tcs
  /\ map msg_tool_call_id (fst st)
     = map msg_tool_call_id msgs ++ map (fun tc => Some (rtc_id tc)) tcs
  /\ length (snd st) = (length trs + length tcs)%nat.
Proof.
  induction tcs as [|tc rest IH]; intros msgs trs w st w' H.
  - cbn [run_tool_calls] in H. unfold ret in H. simplify_eq.
    cbn. rewrite !app_nil_r. split; [done|]. split; [done|lia].
  - cbn [run_tool_calls] in H. unfold load_arguments in H.
    destruct (json_loads env _) as [args|];
      [|unfold_M; cbv beta iota in H; simplify_eq].
    unfold bind at 1 in H. unfold ret at 1 in H.
    apply bind_inv in H as [(r & w1 & Hc & H)|(e & _ & ?)]; [|done].
    apply bind_inv in H as [(obs & w2 & Hd & H)|(e & _ & ?)]; [|done].
    apply IH in H as (H1 & H2 & H3).
    rewrite H1, H2, H3, !map_app, !length_app. cbn.
    rewrite <- !app_assoc. split; [done|]. split; [done|lia].
Qed.

Lemma requested_app a b : requested (a ++ b) = requested a ++ requested b.
Proof. unfold requested. by rewrite flat_map_app. Qed.

Lemma cycles_traces env q n : forall msgs trs w traj w',
  cycles env n q msgs trs w = (Return traj, w') ->
  exists rs,
    responses (trace w') = responses (trace w) ++ rs
    /\ map tool_name (traces traj) = map tool_name trs ++ requested rs
    /\ question traj = q.
Proof.
  induction n as [|n IH]; intros msgs trs w traj w' H.
  - cbn [cycles] in H. unfold ret in H. simplify_eq.
    exists []. cbn. by rewrite !app_nil_r.
  - cbn [cycles] in H. unfold bind at 1 in H. rewrite reason_eq in H.
    set (reply := llm env (ticks w) msgs) in *.
    set (w1 := set_trace _ _) in H.
    assert (responses (trace w1) = responses (trace w) ++ [reply]) as Hr1.
    { unfold w1. simpl_world. by rewrite responses_app. }
    destruct (resp_tool_calls reply) as [[|tc tcs]|] eqn:Htc.
    + apply finish_spec in H as (F1 & _ & _ & F4).
      destruct (F4 traj eq_refl) as (_ & Hq & Htr).
      exists [reply]. split; [congruence|]. split; [|done].
      unfold requested. cbn. rewrite Htc, Htr. cbn. by rewrite app_nil_r.
    + apply bind_inv in H as [(st & w2 & Ht & H)|(e & _ & ?)]; [|done].
      pose proof (run_tool_calls_quiet _ _ _ _ _ _ _ Ht) as (Q1 & _ & _).
      apply run_tool_calls_traces in Ht as (T1 & _ & _).
      apply IH in H as (rs & R1 & R2 & R3).
      exists (reply :: rs). split; [rewrite R1, Q1, Hr1, <- app_assoc; done|].
      split; [|done]. rewrite R2, T1.
      change (reply :: rs) with ([reply] ++ rs). rewrite requested_app.
      unfold requested at 2. cbn. rewrite Htc. cbn.
      by rewrite app_nil_r, <- app_assoc.
    + apply finish_spec in H as (F1 & _ & _ & F4).
      destruct (F4 traj eq_refl) as (_ & Hq & Htr).
      exists [reply]. split; [congruence|]. split; [|done].
      unfold requested. cbn. rewrite Htc, Htr. cbn. by rewrite app_nil_r.
Qed.

(** The trajectory of a run that returns carries the question and one
    trace per tool call that the reasoning capability asked for during the
    run, in the order of the requests. *)
Theorem trajectory_records_every_tool_call (env : Env) (q : string)
    (max_cycles : Z) (w w' : World) (traj : Trajectory) :
  run_react_agent env q max_cycles w = (Return traj, w') ->
  exists rs,
    responses (trace w') = responses (trace w) ++ rs
    /\ map tool_name (traces traj) = requested rs
    /\ question traj = q.
Proof.
  intros H. unfold run_react_agent in H.
  apply cycles_traces in H as (rs & H1 & H2 & H3). by exists rs.
Qed.

Lemma trajectory_records_every_tool_call_witness :
  exists traj w',
    run_react_agent LoopFixtures.env_calculating "2+2?" 2 (Fixtures.world_of [] [])
    = (Return traj, w')
    /\ map tool_name (traces traj) = ["calculate"; "calculate"].
Proof.
  destruct (run_react_agent LoopFixtures.env_calculating "2+2?" 2
              (Fixtures.world_of [] [])) as [[traj|e] w'] eqn:Hrun;
    [|vm_compute in Hrun; discriminate].
  destruct (trajectory_records_every_tool_call _ _ _ _ _ _ Hrun)
    as (rs & H1 & H2 & _).
  exists traj, w'. split; [reflexivity|]. rewrite H2.
  assert (requested (responses (trace w')) = ["calculate"; "calculate"]) as Hrs.
  { vm_compute in Hrun. injection Hrun as _ <-. reflexivity. }
  rewrite H1 in Hrs. exact Hrs.
Defined.

(* ================================================================== *)
(** ** Reflection: both copies *)
(* ================================================================== *)

(** The copy of [extract_and_save_memory] in [run_example.py] returns
    exactly on the judgment replies that decode to a dictionary which
    either asks for no write or carries [content], [memory_type] and
    [importance] with a [content] that can be sliced; on every other reply
    it raises. *)
Theorem run_example_reflection_returns_iff (env : Env) (q a : string)
    (w : World) :
  returns (fst (RunExample.extract_and_save_memory env q a w)) = true
  <-> decision_accepted env (judge env (ticks w) (snippet q a)) = true.
Proof.
  split.
  - unfold decision_accepted, decision_of.
    unfold RunExample.extract_and_save_memory.
    unfold bind at 1. rewrite ask_judge_eq.
    destruct (judge env (ticks w) (snippet q a)) as [text|]; [|done].
    unfold load_decision.
    destruct (json_loads env text) as [[| | | | | |kv|]|]; try done.
    unfold bind at 1. unfold ret at 1. cbn [act_on].
    destruct (truthy (jget "should_write" kv)); [|done].
    unfold item.
    destruct (jget "content" kv) as [c|]; [|done].
    destruct (jget "memory_type" kv) as [mt|]; [|done].
    destruct (jget "importance" kv) as [imp|]; [|done].
    unfold bind at 1 2 3. unfold ret at 1 2 3. unfold bind.
    destruct (call (registry env) "write_memory" _ _) as [[r|e] w1]; [|done].
    by destruct (sliceable c).
  - intros H. destruct (extract_and_save_memory_returns env q a w H) as [w' ->].
    done.
Qed.

Lemma memory_py_writes_only_on_valid_decision_witness :
  exists kv,
    decision_of ExtraFixtures.env_saving (Some ExtraFixtures.save_text) = Some kv
    /\ truthy (jget "should_write" kv) = true
    /\ map e_document (mem ExtraFixtures.world_after_save) = ["likes tea"].
Proof.
  destruct (memory_py_writes_only_on_valid_decision ExtraFixtures.env_saving
              "my drink?" "noted" (Fixtures.world_of [] [])
              ExtraFixtures.world_after_save)
    as (kv & c & mt & imp & input & H1 & H2 & _).
  - vm_compute. reflexivity.
  - discriminate.
  - exists kv. split; [exact H1|]. split; [exact H2|reflexivity].
Defined.

(* ================================================================== *)
(** ** The memory store across operations *)
(* ================================================================== *)

Lemma keeps_ids_refl w : keeps_ids w w.
Proof. by intros ?. Qed.

Lemma keeps_ids_trans w1 w2 w3 :
  keeps_ids w1 w2 -> keeps_ids w2 w3 -> keeps_ids w1 w3.
Proof. unfold keeps_ids. tauto. Qed.

Lemma keeps_ids_same_mem w w' : mem w' = mem w -> keeps_ids w w'.
Proof. unfold keeps_ids, unique_ids. by intros ->. Qed.

Lemma write_memory_appends env input w o w' :
  write_memory env input w = (o, w') ->
  exists added,
    mem w' = mem w ++ added /\ (length added <= 1)%nat /\ keeps_ids w w'.
Proof.
  destruct (store_error w) as [msg|] eqn:Hs.
  - rewrite (write_memory_unavailable _ _ _ _ Hs). intros ?; simplify_eq.
    exists []. rewrite app_nil_r. split; [done|]. split; [cbn; lia|].
    by apply keeps_ids_same_mem.
  - destruct (str_in (new_memory_id env w) (map e_id (mem w))) eqn:Hf.
    + rewrite write_memory_present by done. intros ?; simplify_eq.
      exists []. rewrite app_nil_r. split; [done|]. split; [cbn; lia|].
      by apply keeps_ids_same_mem.
    + rewrite write_memory_fresh by done. intros ?; simplify_eq.
      exists [new_entry env input w]. split; [done|]. split; [cbn; lia|].
      unfold keeps_ids, unique_ids. simpl_world. intros Hnd.
      rewrite map_app. apply NoDup_app. split; [done|].
      split; [|cbn; apply NoDup_singleton].
      intros x Hx Hin. cbn in Hin. apply list_elem_of_singleton in Hin as ->.
      by apply str_in_false in Hf.
Qed.

Lemma call_store_cases env n args w o w' :
  call (registry env) n args w = (o, w') ->
  mem w' = mem w
  \/ exists input w0 o',
       mem w0 = mem w /\ write_memory env input w0 = (o', w').
Proof.
  destruct (registry env !! n) as [spec|] eqn:Hspec.
  - rewrite (call_known _ _ _ _ _ Hspec).
    destruct (decide (n = "write_memory")) as [->|Hn].
    + rewrite registry_write_memory in Hspec. simplify_eq. cbn [handler].
      unfold write_memory_handler, construct.
      destruct args as [| | | | | |kv|];
        try (unfold_M; cbv beta iota; intros ?; simplify_eq; by left).
      destruct (validate_write env (JObj kv)) as [errors|input];
        [unfold_M; cbv beta iota; intros ?; simplify_eq; by left|].
      unfold bind at 1. unfold ret at 1.
      destruct (write_memory env input _) as [[r|[errors|cls m]] w1] eqn:Hw;
        intros ?; simplify_eq; right;
        eexists input, _, _; (split; [|exact Hw]); reflexivity.
    + apply registry_lookup in Hspec as [Hin Hname]. subst n.
      destruct (handler spec args _) as [[r|[errors|cls m]] w1] eqn:Hh;
        intros ?; simplify_eq;
        apply (handler_keeps_store _ _ _ _ _ _ Hin Hn) in Hh; by left.
  - rewrite call_unknown by done. intros ?; simplify_eq. by left.
Qed.

(** A dispatched tool call never removes or alters a stored record: the
    store afterwards is the store before, followed by at most one new
    record; and if the ids were unique before the call they are unique
    after it.  This holds for every tool name, every argument value and
    every outcome of the call. *)
Theorem tool_calls_only_append (env : Env) (n : string) (args : Json)
    (w w' : World) (o : outcome Json) :
  call (registry env) n args w = (o, w') ->
  exists added,
    mem w' = mem w ++ added
    /\ (length added <= 1)%nat
    /\ (unique_ids w -> unique_ids w').
Proof.
  intros H.
  apply call_store_cases in H as [Hsame|(input & w0 & o' & Hm & Hw)].
  - exists []. rewrite app_nil_r. split; [done|]. split; [cbn; lia|].
    unfold unique_ids. by rewrite Hsame.
  - apply write_memory_appends in Hw as (added & H1 & H2 & H3).
    exists added. rewrite H1, Hm. split; [done|]. split; [done|].
    intros Hu. apply H3. unfold unique_ids. by rewrite Hm.
Qed.

Lemma tool_calls_only_append_witness :
  exists o w' added,
    call (registry Fixtures.env0) "write_memory"
      (JObj [("content", JStr "likes tea")]) (Fixtures.world_of Fixtures.three [])
    = (o, w')
    /\ mem w' = Fixtures.three ++ added
    /\ (length added <= 1)%nat
    /\ unique_ids w'.
Proof.
  destruct (call (registry Fixtures.env0) "write_memory"
              (JObj [("content", JStr "likes tea")])
              (Fixtures.world_of Fixtures.three [])) as [o w'] eqn:Hc.
  destruct (tool_calls_only_append _ _ _ _ _ _ Hc) as (added & H1 & H2 & H3).
  exists o, w', added. split; [reflexivity|]. split; [exact H1|].
  split; [exact H2|]. apply H3.
  unfold unique_ids. apply (bool_decide_unpack _). vm_compute. exact I.
Defined.

(** Round trip: a record that [write_memory] has just saved is found by
    a [read_memory] that asks for all types or for the record's type,
    provided fewer than [top_k] of the records stored before match the
    filter. *)
Theorem write_then_read_finds_record (env : Env) (input : WriteMemoryInput)
    (q : ReadMemoryInput) (w w' : World) (r : Json) :
  store_error w = None ->
  str_in (new_memory_id env w) (map e_id (mem w)) = false ->
  write_memory env input w = (Return r, w') ->
  rm_memory_type q = "all" \/ rm_memory_type q = wm_memory_type input ->
  (length (filter (fun e => Collection.matches (where_filter_of q) e = true)
             (mem w)) < Z.to_nat (rm_top_k q))%nat ->
  field "status" r = Some (JStr "saved")
  /\ result_of (new_entry env input w)
     ∈ results_in (fst (read_memory env q w')).
Proof.
  intros Hs Hfresh Hw Htype Hroom.
  rewrite write_memory_fresh in Hw by done. simplify_eq.
  split; [reflexivity|].
  rewrite read_memory_available by done. cbn [fst results_in].
  rewrite results_of_read_result. apply list_elem_of_fmap_2.
  unfold hits, Collection.nearest. simpl_world.
  rewrite take_ge.
  - rewrite sort_by_perm. apply list_elem_of_filter. split.
    + unfold Collection.matches, where_filter_of.
      destruct (String.eqb_spec (rm_memory_type q) "all") as [E|E]; [done|].
      destruct Htype as [?|Ht]; [done|]. cbn. rewrite Ht.
      apply String.eqb_refl.
    + apply elem_of_app. right. by apply list_elem_of_singleton.
  - rewrite sort_by_length, filter_app, length_app.
    pose proof (length_filter (fun e => Collection.matches (where_filter_of q) e = true)
                  [new_entry env input w]) as Hl.
    cbn [length] in Hl. lia.
Qed.

Lemma write_then_read_finds_record_witness :
  exists r w',
    write_memory Fixtures.env0 Fixtures.likes_python
      (Fixtures.world_of Fixtures.three []) = (Return r, w')
    /\ result_of (new_entry Fixtures.env0 Fixtures.likes_python
                    (Fixtures.world_of Fixtures.three []))
       ∈ results_in
           (fst (read_memory Fixtures.env0
                   {| rm_query := "language"; rm_memory_type := "profile";
                      rm_top_k := 5 |} w')).
Proof.
  eexists _, _. split; [vm_compute; reflexivity|].
  eapply (write_then_read_finds_record Fixtures.env0 Fixtures.likes_python
            {| rm_query := "language"; rm_memory_type := "profile";
               rm_top_k := 5 |} (Fixtures.world_of Fixtures.three [])).
  - reflexivity.
  - vm_compute. reflexivity.
  - vm_compute. reflexivity.
  - right. reflexivity.
  - vm_compute. lia.
Defined.

Lemma call_keeps_ids env n args w o w' :
  call (registry env) n args w = (o, w') -> keeps_ids w w'.
Proof.
  intros H.
  apply call_store_cases in H as [Hsame|(input & w0 & o' & Hm & Hw)].
  - by apply keeps_ids_same_mem.
  - apply write_memory_appends in Hw as (added & _ & _ & H3).
    intros Hu. apply H3. unfold unique_ids. by rewrite Hm.
Qed.

Lemma act_on_keeps_ids env decision w o w' :
  act_on env decision w = (o, w') -> keeps_ids w w'.
Proof.
  destruct decision as [| | | | | |kv|]; cbn [act_on];
    try (unfold raise; intros ?; simplify_eq; apply keeps_ids_refl).
  destruct (truthy (jget "should_write" kv));
    [|unfold ret; intros ?; simplify_eq; apply keeps_ids_refl].
  unfold item.
  destruct (jget "content" kv) as [c|];
    [|unfold_M; cbv beta iota; intros ?; simplify_eq; apply keeps_ids_refl].
  destruct (jget "memory_type" kv) as [mt|];
    [|unfold_M; cbv beta iota; intros ?; simplify_eq; apply keeps_ids_refl].
  destruct (jget "importance" kv) as [imp|];
    [|unfold_M; cbv beta iota; intros ?; simplify_eq; apply keeps_ids_refl].
  intros H. unfold bind at 1 2 3 in H. unfold ret at 1 2 3 in H.
  apply bind_inv in H as [(r & w1 & Hc & Hk)|(e & Hc & ->)].
  - apply call_keeps_ids in Hc.
    destruct (sliceable c); unfold_M; simplify_eq; done.
  - by apply call_keeps_ids in Hc.
Qed.

Lemma extract_and_save_memory_keeps_ids env q a w o w' :
  RunExample.extract_and_save_memory env q a w = (o, w') -> keeps_ids w w'.
Proof.
  unfold RunExample.extract_and_save_memory.
  unfold bind at 1. rewrite ask_judge_eq. intros H.
  apply (keeps_ids_trans _ (asked q a w)); [by apply keeps_ids_same_mem|].
  destruct (load_decision_pure env (judge env (ticks w) (snippet q a))
              (asked q a w)) as [o1 Ho1].
  apply bind_inv in H as [(d & w1 & Hl & Ha)|(e & Hl & ->)];
    rewrite Ho1 in Hl; simplify_eq.
  - by apply act_on_keeps_ids in Ha.
  - apply keeps_ids_refl.
Qed.

Lemma cleanup_memories_keeps_ids max_count w o w' :
  cleanup_memories max_count w = (o, w') -> keeps_ids w w'.
Proof.
  destruct (store_error w) as [msg|] eqn:Hs.
  - unfold cleanup_memories. unfold_M. rewrite Hs.
    intros ?; simplify_eq. apply keeps_ids_refl.
  - destruct (Z.le_gt_cases (Z.of_nat (length (mem w))) max_count).
    + rewrite cleanup_memories_noop by done.
      intros ?; simplify_eq. apply keeps_ids_refl.
    + rewrite cleanup_memories_evicts by (done || lia).
      intros ?; simplify_eq. unfold keeps_ids, unique_ids. simpl_world.
      intros Hnd. eapply sublist_NoDup; [exact Hnd|].
      apply fmap_sublist. unfold survivors. apply sublist_filter.
Qed.

Lemma finish_keeps_ids env q trs a w o w' :
  finish env q trs a w = (o, w') -> keeps_ids w w'.
Proof.
  unfold finish. intros H.
  apply bind_inv in H as [([] & w1 & He & H)|(e & He & ->)];
    apply extract_and_save_memory_keeps_ids in He; [|done].
  apply (keeps_ids_trans _ w1); [done|].
  unfold random_1_30 in H. unfold bind at 1 2 in H. unfold tick, ret at 1 in H.
  set (w2 := set_ticks w1 _) in H.
  apply (keeps_ids_trans _ w2); [by apply keeps_ids_same_mem|].
  apply bind_inv in H as [([] & w3 & Hc & H)|(e & Hc & ->)].
  - unfold ret in H. simplify_eq.
    destruct (randint env (ticks w1) =? 1).
    + by apply cleanup_memories_keeps_ids in Hc.
    + unfold ret in Hc. simplify_eq. apply keeps_ids_refl.
  - destruct (randint env (ticks w1) =? 1).
    + by apply cleanup_memories_keeps_ids in Hc.
    + unfold ret in Hc. simplify_eq.
Qed.

Lemma run_tool_calls_keeps_ids env tcs : forall msgs trs w o w',
  run_tool_calls env tcs msgs trs w = (o, w') -> keeps_ids w w'.
Proof.
  induction tcs as [|tc rest IH]; intros msgs trs w o w' H.
  - unfold run_tool_calls, ret in H. simplify_eq. apply keeps_ids_refl.
  - cbn [run_tool_calls] in H. unfold load_arguments in H.
    destruct (json_loads env _) as [args|].
    + unfold bind at 1 in H. unfold ret at 1 in H.
      apply bind_inv in H as [(r & w1 & Hc & H)|(e & Hc & ->)].
      * apply call_keeps_ids in Hc.
        apply bind_inv in H as [(obs & w2 & Hd & H)|(e & Hd & ->)];
          rewrite (dumps_world Hd) in *; [|done].
        apply IH in H. by eapply keeps_ids_trans.
      * by apply call_keeps_ids in Hc.
    + unfold_M. cbv beta iota in H. simplify_eq. apply keeps_ids_refl.
Qed.

Lemma cycles_keeps_ids env q n : forall msgs trs w o w',
  cycles env n q msgs trs w = (o, w') -> keeps_ids w w'.
Proof.
  induction n as [|n IH]; intros msgs trs w o w' H.
  - cbn [cycles] in H. unfold ret in H. simplify_eq. apply keeps_ids_refl.
  - cbn [cycles] in H. unfold bind at 1 in H. rewrite reason_eq in H.
    set (w1 := set_trace _ _) in H.
    apply (keeps_ids_trans _ w1); [by apply keeps_ids_same_mem|].
    destruct (resp_tool_calls (llm env (ticks w) msgs)) as [[|tc tcs]|].
    + by apply finish_keeps_ids in H.
    + apply bind_inv in H as [(st & w2 & Ht & H)|(e & Ht & ->)].
      * apply run_tool_calls_keeps_ids in Ht. apply IH in H.
        by eapply keeps_ids_trans.
      * by apply run_tool_calls_keeps_ids in Ht.
    + by apply finish_keeps_ids in H.
Qed.

(** Unique ids are an invariant of the agent: if no two stored records
    share an id when a run starts, none do when it ends, whatever the
    reasoning and judgment capabilities reply and whether the run returns
    or raises.  (Tool calls only append under an id that is not present;
    the clean-up only deletes.) *)
Theorem run_keeps_ids_unique (env : Env) (q : string) (max_cycles : Z)
    (w w' : World) (o : outcome Trajectory) :
  unique_ids w ->
  run_react_agent env q max_cycles w = (o, w') ->
  unique_ids w'.
Proof.
  intros Hu H. unfold run_react_agent in H.
  by apply cycles_keeps_ids in H; apply H.
Qed.

Lemma run_keeps_ids_unique_witness :
  exists o w',
    run_react_agent ExtraFixtures.env_saving "my drink?" 3
      (Fixtures.world_of Fixtures.three []) = (o, w')
    /\ length (mem w') = 4%nat
    /\ unique_ids w'.
Proof.
  destruct (run_react_agent ExtraFixtures.env_saving "my drink?" 3
              (Fixtures.world_of Fixtures.three [])) as [o w'] eqn:Hrun.
  exists o, w'. split; [reflexivity|]. split.
  - vm_compute in Hrun. injection Hrun as _ <-. reflexivity.
  - apply (run_keeps_ids_unique ExtraFixtures.env_saving "my drink?" 3
             (Fixtures.world_of Fixtures.three []) w' o); [|exact Hrun].
    unfold unique_ids. apply (bool_decide_unpack _). vm_compute. exact I.
Defined.

(* ================================================================== *)
(** ** The calculator and the document search *)
(* ================================================================== *)

(** [calculate] answers with exactly one of [error] and [result]: the
    error dictionary on a division by zero and on an operation other
    than the four it knows, with the message naming the cause, and the
    result dictionary otherwise.  It never raises. *)
Theorem calculate_error_cases {F : Type}
    (add subtract multiply divide : F -> F -> F) (is_zero : F -> bool)
    (number : F -> Json) (input : Calculator.CalculaterInput) :
  let r := Calculator.calculate add subtract multiply divide is_zero number
             input in
  let unknown := ~ In (Calculator.op input)
                     ["add"; "subtract"; "multiply"; "divide"] in
  let by_zero := Calculator.op input = "divide"
                 /\ is_zero (Calculator.num2 input) = true in
  (by_zero <-> r = JObj [("error", JStr "Division by zero is not allowed.")])
  /\ (unknown <->
      r = JObj [("error", JStr ("Invalid operation: " +:+ Calculator.op input))])
  /\ (~ by_zero /\ ~ unknown <-> exists x, r = JObj [("result", number x)]).
Proof.
  cbv zeta. unfold Calculator.calculate, Calculator.compute. cbn [In].
  destruct (String.eqb_spec (Calculator.op input) "add") as [E1|E1];
    [rewrite E1; cbn|
  destruct (String.eqb_spec (Calculator.op input) "subtract") as [E2|E2];
    [rewrite E2; cbn|
  destruct (String.eqb_spec (Calculator.op input) "multiply") as [E3|E3];
    [rewrite E3; cbn|
  destruct (String.eqb_spec (Calculator.op input) "divide") as [E4|E4];
    [rewrite E4; destruct (is_zero (Calculator.num2 input)); cbn|cbn]]]].
  all: split; [|split]; split; intros Hx.
  all: try (cbn in Hx; discriminate Hx).
  all: try reflexivity.
  all: try (by eexists).
  all: try (match goal with
            | H : ex _ |- _ => destruct H as [x H]; cbn in H; discriminate H
            end).
  all: try (match goal with H : _ /\ _ |- _ => destruct H; congruence end).
  all: try tauto.
  all: try (split; [intros [? ?]; done|tauto]).
  - intuition congruence.
  - exfalso. destruct Hx as [_ Hx]. apply Hx. intuition congruence.
Qed.

Lemma ranked_sorted {Score : Type} (score_ge : Score -> Score -> bool)
    (n : Z) (triples : list (string * option Json * Score)) :
  (forall a b, score_ge a b = true \/ score_ge b a = true) ->
  (forall a b c, score_ge a b = true -> score_ge b c = true ->
                 score_ge a c = true) ->
  let leb := fun a b : string * option Json * Score =>
               score_ge (snd a) (snd b) in
  let sorted := sort_by leb triples in
  StronglySorted (fun a b => leb a b = true) (RagSearch.ranked score_ge n triples)
  /\ (forall a b, a ∈ RagSearch.ranked score_ge n triples ->
                  b ∈ drop (Z.to_nat n) sorted -> leb a b = true)
  /\ RagSearch.ranked score_ge n triples ++ drop (Z.to_nat n) sorted ≡ₚ triples.
Proof.
  intros Htotal Htrans leb sorted.
  assert (StronglySorted (fun a b => leb a b = true) sorted) as Hs.
  { apply sort_by_sorted.
    - intros a b. apply Htotal.
    - intros a b c. apply Htrans. }
  unfold RagSearch.ranked. fold leb. fold sorted.
  rewrite <- (take_drop (Z.to_nat n) sorted) in Hs.
  apply StronglySorted_app in Hs as (H1 & H2 & _).
  split; [done|]. split; [done|].
  rewrite take_drop. apply sort_by_perm.
Qed.

(** When the collection yields documents and the reranker scores them,
    [rag_search] returns the [n_results] best-scored of them (all, when
    there are fewer): the results are in non-increasing score order, no
    document left out scores higher than one returned, and the result at
    position [i] carries rank [i + 1].  The order on scores is assumed
    total and transitive. *)
Theorem rag_search_ranks_by_score {Score : Type}
    (score_ge : Score -> Score -> bool) (rounded : Score -> Json)
    (collection_query : string -> Z -> outcome (list string * list (option Json)))
    (predict : list (string * string) -> outcome (list Score))
    (input : RagSearch.RAGSearchInput)
    (documents : list string) (metadatas : list (option Json))
    (scores : list Score) :
  (forall a b, score_ge a b = true \/ score_ge b a = true) ->
  (forall a b c, score_ge a b = true -> score_ge b c = true ->
                 score_ge a c = true) ->
  collection_query (RagSearch.query input) (RagSearch.n_results input)
  = Return (documents, metadatas) ->
  documents <> [] ->
  predict (map (fun doc => (RagSearch.query input, doc)) documents)
  = Return scores ->
  exists kept dropped,
    RagSearch.rag_search score_ge rounded collection_query predict input
    = JObj [("results", JList (imap (RagSearch.result_at rounded) kept));
            ("source", JStr "chroma_rag")]
    /\ kept ++ dropped ≡ₚ RagSearch.zip3 documents metadatas scores
    /\ length kept
       = Nat.min (Z.to_nat (RagSearch.n_results input))
           (length (RagSearch.zip3 documents metadatas scores))
    /\ StronglySorted (fun a b => score_ge (snd a) (snd b) = true) kept
    /\ (forall a b, a ∈ kept -> b ∈ dropped -> score_ge (snd a) (snd b) = true)
    /\ (forall i t, kept !! i = Some t ->
          field "rank" (RagSearch.result_at rounded i t)
          = Some (JInt (Z.of_nat i + 1))).
Proof.
  intros Htotal Htrans Hq Hne Hp.
  destruct (ranked_sorted score_ge (RagSearch.n_results input)
              (RagSearch.zip3 documents metadatas scores) Htotal Htrans)
    as (H1 & H2 & H3).
  eexists _, _. split; [|split; [exact H3|]].
  - unfold RagSearch.rag_search. rewrite Hq.
    destruct documents as [|d ds]; [done|]. by rewrite Hp.
  - split; [|split; [exact H1|split; [exact H2|]]].
    + unfold RagSearch.ranked. by rewrite length_take, sort_by_length.
    + intros i [[doc md] sc] _. reflexivity.
Qed.

Lemma rag_search_ranks_by_score_witness :
  exists kept,
    RagSearch.rag_search Z.geb JInt ExtraFixtures.rag_collection
      ExtraFixtures.rag_predict
      {| RagSearch.query := "install"; RagSearch.n_results := 2 |}
    = JObj [("results", JList (imap (RagSearch.result_at JInt) kept));
            ("source", JStr "chroma_rag")]
    /\ length kept = 2%nat
    /\ StronglySorted (fun a b => (snd a >=? snd b) = true) kept.
Proof.
  destruct (rag_search_ranks_by_score Z.geb JInt ExtraFixtures.rag_collection
              ExtraFixtures.rag_predict
              {| RagSearch.query := "install"; RagSearch.n_results := 2 |}
              ["intro"; "setup"; "usage"]
              [Some (JObj [("page", JInt 1)]); None; Some (JObj [])]
              [1; 3; 2])
    as (kept & dropped & H1 & _ & H3 & H4 & _).
  - intros a b. rewrite !Z.geb_le. lia.
  - intros a b c. rewrite !Z.geb_le. lia.
  - reflexivity.
  - discriminate.
  - reflexivity.
  - exists kept. split; [exact H1|]. split; [|exact H4].
    rewrite H3. reflexivity.
Defined.

(* ================================================================== *)
(** ** Resuming runs an approved call again *)
(* ================================================================== *)

Lemma execute_write env i kv a acc w :
  validate_write env (JObj kv) = inr a ->
  store_error w = None ->
  str_in (new_memory_id env w) (map e_id (mem w)) = false ->
  exists w',
    execute env {| tc_id := i; tc_name := "write_memory";
                   tc_arguments := JObj kv |} acc w
    = (Return (acc ++ [MsgTool i (json_dumps env false (saved env a w))]), w')
    /\ mem w' = mem w ++ [new_entry env a w]
    /\ store_error w' = None
    /\ ticks w' = S (S (ticks w))
    /\ resumes w' = resumes w.
Proof.
  intros Hv Hs Hfresh. unfold execute. cbn [tc_name tc_arguments tc_id].
  unfold bind at 1. rewrite (call_write_memory_eq _ _ a) by done.
  rewrite write_memory_fresh by done.
  unfold bind at 1. rewrite dumps_ok by done.
  eexists. split; [reflexivity|]. by repeat split.
Qed.

Lemma execute_outcome env tc acc w o w' :
  is_Some (registry env !! tc_name tc) ->
  execute env tc acc w = (o, w') ->
  (exists added, mem w' = mem w ++ added)
  /\ (forall cls msg, o = Raise (Exception cls msg) -> cls = "TypeError").
Proof.
  intros Hreg. unfold execute. unfold bind at 1.
  destruct (call_registered env _ (tc_arguments tc) w Hreg)
    as (r & w1 & Hc & _).
  rewrite Hc. apply call_store_cases in Hc.
  assert (exists added, mem w1 = mem w ++ added) as Hadd.
  { destruct Hc as [->|(input & w0 & o' & Hm & Hw)].
    - exists []. by rewrite app_nil_r.
    - apply write_memory_appends in Hw as (added & H1 & _). exists added.
      by rewrite H1, Hm. }
  unfold bind.
  destruct (dumps_cases env false r w1) as [[_ ->]|[_ [msg ->]]].
  - unfold ret. intros [= <- <-]. split; [done|]. by intros.
  - intros [= <- <-]. split; [done|]. by intros cls msg' [= <- _].
Qed.

(** One pass of the loop of [run_agent]. *)
Lemma resume_suspended env answers approval given state w prompt w1 :
  activate env given state w = (Raise (Exception "GraphInterrupt" prompt), w1) ->
  resume env (approval :: answers) given state w
  = resume env answers (given ++ [approval]) state w1.
Proof. intros Ha. cbn [resume]. by rewrite Ha. Qed.

Lemma resume_ended env answers given state w o w1 :
  activate env given state w = (o, w1) ->
  (forall prompt, o <> Raise (Exception "GraphInterrupt" prompt)) ->
  resume env answers given state w = (o, w1).
Proof.
  intros Ha Hno. destruct answers; cbn [resume]; rewrite Ha;
    (destruct o as [r|[errors|cls prompt]]; [done|done|]);
    (destruct (String.eqb_spec cls "GraphInterrupt") as [->|]; [|done]);
    by destruct (Hno prompt).
Qed.

Lemma activate_queue env given state w tcs :
  tool_calls state = Some tcs -> tcs <> [] ->
  activate env given state w
  = (tool_messages <- tool_loop env tcs [] ;;
     ret {| messages := tool_messages; tool_calls := None |})
      (set_resumes w given).
Proof.
  intros Htc Hne. unfold activate, tool_node. rewrite Htc.
  by destruct tcs.
Qed.

(** C1.  The claim fails on the code where an approved risky call is
    followed by another risky call.  A turn queues a [write_memory] call
    and a second risky call; the first is answered "y".  Whatever the
    second answer is, the turn ends with the record of the first call
    stored twice, under two ids: the activation that delivers the second
    answer starts the node from its first statement and runs the approved
    call again.  (The store is available and the ids generated at the two
    clock readings are new and differ.) *)
Theorem C1_approved_write_runs_again (env : Env) (kv : list (string * Json))
    (a : WriteMemoryInput) (i : string) (tc2 : ToolCall) (state : AgentState)
    (approval : string) (answers : list string) (w : World) :
  tool_calls state
  = Some [ {| tc_id := i; tc_name := "write_memory"; tc_arguments := JObj kv |};
           tc2 ] ->
  validate_write env (JObj kv) = inr a ->
  str_in (tc_name tc2) DANGEROUS_TOOLS = true ->
  store_error w = None ->
  NoDup (new_memory_id env w
         :: new_memory_id env (set_ticks w (S (S (ticks w))))
         :: map e_id (mem w)) ->
  exists o w' e1 e2 added,
    tool_turn env ("y" :: approval :: answers) state w = (o, w')
    /\ mem w' = mem w ++ e1 :: e2 :: added
    /\ e_document e1 = wm_content a
    /\ e_document e2 = wm_content a
    /\ e_id e1 <> e_id e2.
Proof.
  intros Htc Hv Hd2 Hs Hnd.
  apply NoDup_cons in Hnd as [Hn1 Hnd]. apply NoDup_cons in Hnd as [Hn2 _].
  apply not_elem_of_cons in Hn1 as [Hne Hn1].
  set (tc1 := {| tc_id := i; tc_name := "write_memory";
                 tc_arguments := JObj kv |}) in *.
  assert (str_in (tc_name tc1) DANGEROUS_TOOLS = true) as Hd1 by reflexivity.
  (* first activation: suspended at the first call *)
  assert (activate env [] state w
          = (Raise (Exception "GraphInterrupt" (confirm_prompt env tc1)),
             set_resumes w [])) as Ha1.
  { rewrite (activate_queue _ _ _ _ _ Htc) by done. unfold bind.
    by rewrite tool_loop_no_token. }
  (* second activation: the write runs, then suspended at the second call *)
  destruct (execute_write env i kv a []
              (set_resumes (set_resumes (set_resumes w []) ["y"]) []) Hv)
    as (w1 & He1 & Hm1 & Hs1 & Ht1 & Hr1);
    [done|by apply str_in_false|].
  fold tc1 in He1. simpl_world.
  assert (activate env ["y"] state (set_resumes w [])
          = (Raise (Exception "GraphInterrupt" (confirm_prompt env tc2)), w1))
    as Ha2.
  { rewrite (activate_queue _ _ _ _ _ Htc) by done. unfold bind at 1.
    rewrite (tool_loop_approve env tc1 [tc2] [] _ []) by done.
    unfold bind at 1. rewrite He1.
    by rewrite tool_loop_no_token. }
  (* third activation: the write runs again *)
  destruct (execute_write env i kv a []
              (set_resumes (set_resumes w1 ["y"; approval]) [approval]) Hv)
    as (w2 & He2 & Hm2 & Hs2 & Ht2 & Hr2); [done| |].
  { apply str_in_false. simpl_world. rewrite Hm1, map_app.
    unfold new_memory_id. simpl_world. rewrite Ht1.
    intros Hin. apply elem_of_app in Hin as [Hin|Hin]; [done|].
    apply list_elem_of_singleton in Hin. by symmetry in Hin. }
  fold tc1 in He2. simpl_world.
  rewrite Hm1, <- app_assoc in Hm2. cbn [app] in Hm2.
  set (e1 := new_entry env a _) in Hm2.
  set (e2 := new_entry env a _) in Hm2.
  assert (e_id e1 <> e_id e2) as Hids.
  { unfold e1, e2, new_entry, new_memory_id. cbn [e_id]. simpl_world.
    rewrite Ht1. exact Hne. }
  assert (exists o w' added,
            activate env ["y"; approval] state w1 = (o, w')
            /\ mem w' = mem w2 ++ added
            /\ forall prompt, o <> Raise (Exception "GraphInterrupt" prompt))
    as (o & w' & added & Ha3 & Hm3 & Hno).
  { rewrite (activate_queue _ _ _ _ _ Htc) by done. unfold bind at 1.
    rewrite (tool_loop_approve env tc1 [tc2] [] _ [approval]) by done.
    unfold bind at 1. rewrite He2.
    destruct (decide (approval = "y")) as [->|Hno].
    - rewrite (tool_loop_approve env tc2 [] _ w2 []) by done.
      unfold bind at 1.
      destruct (execute env tc2 _ (set_resumes w2 [])) as [[msgs|e] w3] eqn:He3;
        apply execute_outcome in He3 as [[added Hadd] Hcls];
        try (by apply dangerous_registered); simpl_world.
      + cbn [tool_loop]. unfold ret. by eexists _, _, added.
      + eexists _, _, added. split; [reflexivity|]. split; [done|].
        intros prompt [= ->]. by specialize (Hcls _ _ eq_refl).
    - rewrite (tool_loop_cancel env tc2 [] _ w2 approval []) by done.
      cbn [tool_loop]. unfold ret. eexists _, _, []. split; [reflexivity|].
      simpl_world. by rewrite app_nil_r. }
  exists o, w', e1, e2, added. split.
  - unfold tool_turn.
    rewrite (resume_suspended _ _ _ _ _ _ _ _ Ha1). cbn [app].
    rewrite (resume_suspended _ _ _ _ _ _ _ _ Ha2). cbn [app].
    by apply resume_ended.
  - rewrite Hm3, Hm2, <- app_assoc. done.
Qed.

(** C1, at concrete values: two writes queued, the first approved, the
    second denied.  The store ends with the first record twice. *)
Lemma C1_witness :
  exists update w',
    tool_turn Fixtures.env0 ["y"; "n"] ExtraFixtures.two_writes
      (Fixtures.world_of [] []) = (Return update, w')
    /\ map e_document (mem w') = ["A"; "A"]
    /\ map e_id (mem w') = ["mem_1700000000.250000"; "mem_1700000000.250002"].
Proof.
  destruct (C1_approved_write_runs_again Fixtures.env0 [("content", JStr "A")]
              {| wm_content := "A"; wm_memory_type := "episodic";
                 wm_importance := 3; wm_tags := [] |}
              "call_a"
              {| tc_id := "call_b"; tc_name := "write_memory";
                 tc_arguments := JObj [("content", JStr "B")] |}
              ExtraFixtures.two_writes "n" [] (Fixtures.world_of [] []))
    as (o & w' & e1 & e2 & added & H1 & _).
  - reflexivity.
  - reflexivity.
  - reflexivity.
  - reflexivity.
  - apply (bool_decide_unpack _). vm_compute. exact I.
  - vm_compute in H1. injection H1 as <- <-.
    eexists _, _. split; [vm_compute; reflexivity|]. split; reflexivity.
Defined.

(* ================================================================== *)
(** ** A result that cannot be serialised *)
(* ================================================================== *)

Lemma call_invalid env n spec args errors w :
  registry env !! n = Some spec ->
  is_dict args = true ->
  validation_errors env (input_model spec) args = Some errors ->
  call (registry env) n args w
  = (Return (JObj [("error", JStr "validation_error"); ("details", errors)]),
     set_trace w (trace w ++ [EvHandler n args])).
Proof.
  intros Hspec Hdict Hval. rewrite (call_known _ _ _ _ _ Hspec).
  apply registry_lookup in Hspec as [Hin _].
  pose proof (default_handler_cases env spec args
                (set_trace w (trace w ++ [EvHandler n args])) Hin) as Hc.
  rewrite Hdict, Hval in Hc. by rewrite Hc.
Qed.

(** Validation errors that hold an object which is not JSON data (the
    exception a validator raised) are returned by the registry inside the
    [validation_error] dictionary, and both loops serialise that dictionary
    outside any [try]: the call ends the tool node, and the agent loop of
    [run_example.py], with [TypeError], after the invocation was recorded
    and before any message or trace is appended. *)
Theorem unserializable_errors_escape (env : Env) (n : string) (spec : ToolSpec)
    (args errors : Json) (w : World) :
  registry env !! n = Some spec ->
  is_dict args = true ->
  validation_errors env (input_model spec) args = Some errors ->
  serializable errors = false ->
  exists msg,
    (forall i acc,
       execute env {| tc_id := i; tc_name := n; tc_arguments := args |} acc w
       = (Raise (Exception "TypeError" msg),
          set_trace w (trace w ++ [EvHandler n args])))
    /\ (forall tc rest msgs trs,
          rtc_name tc = n ->
          json_loads env (or_empty_object (rtc_arguments tc)) = Some args ->
          run_tool_calls env (tc :: rest) msgs trs w
          = (Raise (Exception "TypeError" msg),
             set_trace w (trace w ++ [EvHandler n args]))).
Proof.
  intros Hspec Hdict Hval Hser.
  pose proof (call_invalid env n spec args errors w Hspec Hdict Hval) as Hc.
  set (r := JObj _) in Hc. set (w1 := set_trace _ _) in *.
  assert (serializable r = false) as Hr.
  { unfold r. by rewrite serializable_details. }
  destruct (dumps_cases env false r w1) as [[Hok _]|[_ [msg Hd]]]; [congruence|].
  exists msg. split.
  - intros i acc. unfold execute. cbn [tc_name tc_arguments].
    unfold bind at 1. rewrite Hc. unfold bind at 1. by rewrite Hd.
  - intros tc rest msgs trs Hn Hargs. cbn [run_tool_calls].
    unfold load_arguments. rewrite Hargs, Hn.
    unfold bind at 1. unfold ret at 1.
    unfold bind at 1. rewrite Hc. unfold bind at 1. by rewrite Hd.
Qed.

Lemma unserializable_errors_escape_witness :
  fst (tool_turn ExtraFixtures.env_strict ["y"]
         {| messages := [];
            tool_calls := Some [ {| tc_id := "call_1"; tc_name := "google_search";
                                    tc_arguments := JObj [("query", JStr "")] |} ] |}
         (Fixtures.world_of [] []))
  = Raise (Exception "TypeError"
             "Object of type ValueError is not JSON serializable")
  /\ fst (run_react_agent ExtraFixtures.env_strict "search" 3
            (Fixtures.world_of [] []))
     = Raise (Exception "TypeError"
                "Object of type ValueError is not JSON serializable").
Proof.
  destruct (unserializable_errors_escape ExtraFixtures.env_strict "google_search"
              _ (JObj [("query", JStr "")]) ExtraFixtures.blank_query_errors
              (set_resumes (Fixtures.world_of [] []) [])
              (registry_google_search _))
    as (msg & He & Hr); [reflexivity|reflexivity|reflexivity|].
  split.
  - unfold tool_turn. cbn [resume]. unfold activate, tool_node.
    cbn [tool_calls]. unfold bind at 1.
    rewrite tool_loop_no_token by reflexivity.
    cbn [String.eqb Ascii.eqb Bool.eqb app resume].
    unfold activate, tool_node. cbn [tool_calls]. unfold bind at 1.
    rewrite (tool_loop_approve _ _ _ _ _ []) by reflexivity.
    unfold bind at 1. rewrite He.
    specialize (He "call_1" []). vm_compute in He. injection He as <-.
    reflexivity.
  - vm_compute. reflexivity.
Defined.
